(** * godis: RESP parser and keyspace commands

    A shallow embedding of

    - [redis/parser/parser.go]  (the streaming RESP parser [parse0] and its
      helpers [readLine], [parseMultiBulkHeader], [parseBulkHeader],
      [parseSingleLineReply], [readBody], and the drivers [ParseBytes] and
      [ParseOne]);
    - the keyspace command file of package [database] ([execDel],
      [execRename], [execRenameNx], [execExpire], [execPersist], [execKeys],
      ...).

    Go's [[]byte] is modelled as [list ascii], Go's [string] as [string], the
    conversions [string(b)] and [[]byte(s)] are written out.  Machine
    integers are [Z] with the wrap-around written where the source can
    overflow.  A Go panic is an explicit outcome. *)

From Stdlib Require Import ZArith Ascii String List Lia Bool.
From stdpp Require Import gmap strings list fin_maps.
Import ListNotations.

Open Scope Z_scope.

(** ** Bytes and Go strings *)

Abbreviation bytes := (list ascii).

Definition CR : ascii := "013"%char.
Definition LF : ascii := "010"%char.
Definition CRLF : bytes := [CR; LF].

(** [[]byte(s)] and [string(b)] *)
Definition to_bytes (s : string) : bytes := list_ascii_of_string s.
Definition to_string (b : bytes) : string := string_of_list_ascii b.

Definition blen (b : bytes) : Z := Z.of_nat (length b).

(** [s[i]]: [None] stands for the run-time panic "index out of range". *)
Definition index (s : bytes) (i : Z) : option ascii :=
  if (0 <=? i) && (i <? blen s) then nth_error s (Z.to_nat i) else None.

(** [s[lo:hi]]: [None] stands for the panic "slice bounds out of range". *)
Definition slice (s : bytes) (lo hi : Z) : option bytes :=
  if (0 <=? lo) && (lo <=? hi) && (hi <=? blen s)
  then Some (firstn (Z.to_nat (hi - lo)) (skipn (Z.to_nat lo) s))
  else None.

(** Two's complement wrap-around of a signed 64-bit integer. *)
Definition wrap64 (n : Z) : Z := (n + 2^63) mod 2^64 - 2^63.

Definition int64_range (n : Z) : Prop := - 2^63 <= n < 2^63.

(** ** strconv (Go standard library), base 10 *)

Module strconv.

Definition digit_val (c : ascii) : option Z :=
  let n := Z.of_nat (nat_of_ascii c) in
  if (48 <=? n) && (n <=? 57) then Some (n - 48) else None.

Definition digit_char (d : Z) : ascii := ascii_of_nat (Z.to_nat (48 + d)).

(** The accumulation loop of [ParseUint]: [n = n*10 + d] for each byte. *)
Fixpoint parse_digits (s : bytes) (acc : Z) : option Z :=
  match s with
  | [] => Some acc
  | c :: s' =>
      match digit_val c with
      | Some d => parse_digits s' (acc * 10 + d)
      | None => None
      end
  end.

(** [ParseUint(s, 10, bitSize)] returns [(value, ok)]; [ok = false] is a
    non-nil [err].  As documented: value 0 on a syntax error, the maximum
    value on a range error. *)
Definition ParseUint (s : bytes) (bitSize : Z) : Z * bool :=
  match s with
  | [] => (0, false)
  | _ =>
      match parse_digits s 0 with
      | Some n => if n <? 2 ^ bitSize then (n, true) else (2 ^ bitSize - 1, false)
      | None => (0, false)
      end
  end.

(** [ParseInt(s, 10, bitSize)]: optional sign, digits, range check.  Value 0
    on a syntax error, the extreme value of that sign on a range error. *)
Definition ParseInt (s : bytes) (bitSize : Z) : Z * bool :=
  match s with
  | [] => (0, false)
  | c :: s' =>
      let neg := Ascii.eqb c "-" in
      let body := if Ascii.eqb c "+" || Ascii.eqb c "-" then s' else s in
      match body with
      | [] => (0, false)
      | _ =>
          match parse_digits body 0 with
          | None => (0, false)
          | Some un =>
              let cutoff := 2 ^ (bitSize - 1) in
              if negb neg && (cutoff <=? un) then (cutoff - 1, false)
              else if neg && (cutoff <? un) then (- cutoff, false)
              else (if neg then - un else un, true)
          end
      end
  end.

(** Decimal digits of a non-negative number, most significant first. *)
Fixpoint fmt_digits (fuel : nat) (n : Z) : bytes :=
  match fuel with
  | O => []
  | S f => (if n <? 10 then [] else fmt_digits f (n / 10)) ++ [digit_char (n mod 10)]
  end.

Definition FormatUint (n : Z) : bytes := fmt_digits (S (Z.to_nat (Z.log2 n))) n.

(** [FormatInt(n, 10)] / [Itoa] *)
Definition FormatInt (n : Z) : bytes :=
  if n <? 0 then "-"%char :: FormatUint (- n) else FormatUint n.

End strconv.

(** ** strings (Go standard library) *)

Module strings.

Definition HasSuffix (s suffix : bytes) : bool :=
  (length suffix <=? length s)%nat &&
  bool_decide (skipn (length s - length suffix)%nat s = suffix).

Definition TrimSuffix (s suffix : bytes) : bytes :=
  if HasSuffix s suffix then firstn (length s - length suffix)%nat s else s.

(** [Split(s, sep)] for a one-byte separator. *)
Fixpoint Split (s : bytes) (sep : ascii) : list bytes :=
  match s with
  | [] => [[]]
  | c :: s' =>
      if Ascii.eqb c sep then [] :: Split s' sep
      else match Split s' sep with
           | h :: t => (c :: h) :: t
           | [] => [[c]]
           end
  end.

End strings.

(** ** Go panics *)

Inductive comp (A : Type) : Type :=
| Done (a : A)
| Panic.
Arguments Done {A} a.
Arguments Panic {A}.

Definition bind {A B} (c : comp A) (k : A -> comp B) : comp B :=
  match c with
  | Done a => k a
  | Panic => Panic
  end.

(** An index or slice expression: out of range panics. *)
Definition must {A} (o : option A) : comp A :=
  match o with
  | Some a => Done a
  | None => Panic
  end.

Notation "'let*' x := c 'in' k" := (bind c (fun x => k))
  (at level 10, x name, c at level 100, k at level 200).
Notation "'let*' ' p := c 'in' k" := (bind c (fun x => match x with p => k end))
  (at level 10, p strict pattern, c at level 100, k at level 200).

(** ** Replies (package protocol) and errors *)

Inductive Reply : Type :=
| StatusReply (Status : string)
| StandardErrReply (Status : string)
| IntReply (Code : Z)
| BulkReply (Arg : bytes)
| MultiBulkReply (Args : list bytes)
| NullBulkReply
| EmptyMultiBulkReply
| OkReply
| UnknownErrReply.

Definition MakeStatusReply := StatusReply.
Definition MakeErrReply := StandardErrReply.
Definition MakeIntReply := IntReply.
Definition MakeBulkReply := BulkReply.
Definition MakeMultiBulkReply := MultiBulkReply.

Inductive error : Type :=
| io_EOF
| io_ErrUnexpectedEOF
| errors_New (text : string).

(** [errors.New("protocol error: " + string(msg))] *)
Definition protocol_error (msg : bytes) : error :=
  errors_New ("protocol error: " +:+ to_string msg).

(** Modelled from the spec: the writer of package [protocol] ([ToBytes] of
    each reply type) is not among the sources.  Spec 4.1, Writer:
    Status(s) is [+s CRLF], Error(s) is [-s CRLF], Int(n) is [:n CRLF],
    Bulk(b) is [$len(b) CRLF b CRLF], the null bulk is [$-1 CRLF], and
    MultiBulk(items) is [*N CRLF] followed by each item's bulk
    serialization; the empty array is count 0; Ok is the status OK.  The
    unknown error is [unknownErrReplyBytes] of [server.go]. *)
Definition bulk_bytes (b : bytes) : bytes :=
  "$"%char :: strconv.FormatInt (blen b) ++ CRLF ++ b ++ CRLF.

Definition ToBytes (r : Reply) : bytes :=
  match r with
  | StatusReply s => "+"%char :: to_bytes s ++ CRLF
  | StandardErrReply s => "-"%char :: to_bytes s ++ CRLF
  | IntReply n => ":"%char :: strconv.FormatInt n ++ CRLF
  | BulkReply b => bulk_bytes b
  | MultiBulkReply items =>
      "*"%char :: strconv.FormatInt (Z.of_nat (length items)) ++ CRLF
        ++ concat (map bulk_bytes items)
  | NullBulkReply => to_bytes "$-1" ++ CRLF
  | EmptyMultiBulkReply => to_bytes "*0" ++ CRLF
  | OkReply => to_bytes "+OK" ++ CRLF
  | UnknownErrReply => to_bytes "-ERR unknown" ++ CRLF
  end.

(** ** The parser: [redis/parser/parser.go] *)

Module parser.

(** [type Payload struct { Data redis.Reply; Err error }]; [None] is [nil]. *)
Record Payload : Type := mkPayload { Data : option Reply; Err : option error }.

Definition dataPayload (r : Reply) : Payload := {| Data := Some r; Err := None |}.
Definition errPayload (e : error) : Payload := {| Data := None; Err := Some e |}.

Record readState : Type := mkState {
  readingMultiLine : bool;
  expectedArgsCount : Z;
  msgType : ascii;
  args : list bytes;
  bulkLen : Z
}.

(** [readState{}] *)
Definition zeroState : readState :=
  {| readingMultiLine := false; expectedArgsCount := 0; msgType := zero;
     args := []; bulkLen := 0 |}.

Definition set_bulkLen (n : Z) (s : readState) : readState :=
  {| readingMultiLine := readingMultiLine s; expectedArgsCount := expectedArgsCount s;
     msgType := msgType s; args := args s; bulkLen := n |}.

Definition set_args (a : list bytes) (s : readState) : readState :=
  {| readingMultiLine := readingMultiLine s; expectedArgsCount := expectedArgsCount s;
     msgType := msgType s; args := a; bulkLen := bulkLen s |}.

Definition set_expectedArgsCount (n : Z) (s : readState) : readState :=
  {| readingMultiLine := readingMultiLine s; expectedArgsCount := n;
     msgType := msgType s; args := args s; bulkLen := bulkLen s |}.

Definition finished (s : readState) : bool :=
  (0 <? expectedArgsCount s) && (Z.of_nat (length (args s)) =? expectedArgsCount s).

(** *** The reader: a finite byte stream followed by end of file *)

(** [bufReader.ReadBytes(delim)]: the bytes up to and including the first
    [delim]; without one, everything that is left and [io.EOF]. *)
Fixpoint ReadBytes (delim : ascii) (r : bytes) : bytes * option error * bytes :=
  match r with
  | [] => ([], Some io_EOF, [])
  | c :: r' =>
      if Ascii.eqb c delim then ([c], None, r')
      else let '(line, err, rest) := ReadBytes delim r' in (c :: line, err, rest)
  end.

(** [io.ReadFull(bufReader, buf)] with [len(buf) = n]: exactly [n] bytes, or
    [io.EOF] when none is left, [io.ErrUnexpectedEOF] when too few are. *)
Definition ReadFull (r : bytes) (n : nat) : bytes * option error * bytes :=
  if (n <=? length r)%nat then (firstn n r, None, skipn n r)
  else match r with
       | [] => ([], Some io_EOF, [])
       | _ => (r, Some io_ErrUnexpectedEOF, [])
       end.

(** [readLine] returns [(msg, ioErr, err)], the rest of the stream and the
    state ([state.bulkLen] is reset after a bulk line).  [make([]byte, n)]
    panics for a negative [n].  It also panics for an [n] above the
    allocator's limit (2^48 bytes on 64-bit platforms), which is not
    modelled: the properties that quantify over a declared length keep
    [n] below 2^47, and a payload that is given as a byte slice has been
    allocated. *)
Definition readLine (r : bytes) (state : readState)
  : comp (bytes * bool * option error * bytes * readState) :=
  if bulkLen state =? 0 then
    let '(msg, err, r') := ReadBytes LF r in
    match err with
    | Some e => Done ([], true, Some e, r', state)
    | None =>
        if blen msg =? 0 then Done ([], false, Some (protocol_error msg), r', state)
        else
          let* c := must (index msg (blen msg - 2)) in
          if negb (Ascii.eqb c CR)
          then Done ([], false, Some (protocol_error msg), r', state)
          else Done (msg, false, None, r', state)
    end
  else
    let n := wrap64 (bulkLen state + 2) in
    if n <? 0 then Panic
    else
      let '(msg, err, r') := ReadFull r (Z.to_nat n) in
      match err with
      | Some e => Done ([], true, Some e, r', state)
      | None =>
          if blen msg =? 0 then Done ([], false, Some (protocol_error msg), r', state)
          else
            let* c1 := must (index msg (blen msg - 2)) in
            if negb (Ascii.eqb c1 CR)
            then Done ([], false, Some (protocol_error msg), r', state)
            else
              let* c2 := must (index msg (blen msg - 1)) in
              if negb (Ascii.eqb c2 LF)
              then Done ([], false, Some (protocol_error msg), r', state)
              else Done (msg, false, None, r', set_bulkLen 0 state)
      end.

Definition parseMultiBulkHeader (msg : bytes) (state : readState)
  : comp (option error * readState) :=
  let* digits := must (slice msg 1 (blen msg - 2)) in
  let '(expectedLine, ok) := strconv.ParseUint digits 32 in
  if negb ok then Done (Some (protocol_error msg), state)
  else if expectedLine =? 0 then Done (None, set_expectedArgsCount 0 state)
  else if 0 <? expectedLine then
    let* c := must (index msg 0) in
    Done (None, {| readingMultiLine := true; expectedArgsCount := expectedLine;
                   msgType := c; args := []; bulkLen := bulkLen state |})
  else Done (Some (protocol_error msg), state).

Definition parseBulkHeader (msg : bytes) (state : readState)
  : comp (option error * readState) :=
  let* digits := must (slice msg 1 (blen msg - 2)) in
  let '(n, ok) := strconv.ParseInt digits 64 in
  let state := set_bulkLen n state in
  if negb ok then Done (Some (protocol_error msg), state)
  else if bulkLen state =? -1 then Done (None, state)
  else if 0 <? bulkLen state then
    let* c := must (index msg 0) in
    Done (None, {| readingMultiLine := true; expectedArgsCount := 1;
                   msgType := c; args := []; bulkLen := bulkLen state |})
  else Done (Some (protocol_error msg), state).

Definition parseSingleLineReply (msg : bytes) : comp (option Reply * option error) :=
  let str := strings.TrimSuffix msg CRLF in
  let* c := must (index msg 0) in
  if Ascii.eqb c "+" then
    let* s := must (slice str 1 (blen str)) in
    Done (Some (MakeStatusReply (to_string s)), None)
  else if Ascii.eqb c "-" then
    let* s := must (slice str 1 (blen str)) in
    Done (Some (MakeErrReply (to_string s)), None)
  else if Ascii.eqb c ":" then
    let* s := must (slice str 1 (blen str)) in
    let '(val, ok) := strconv.ParseInt s 64 in
    if negb ok then Done (None, Some (protocol_error msg))
    else Done (Some (MakeIntReply val), None)
  else
    let strs := strings.Split str " " in
    Done (Some (MakeMultiBulkReply strs), None).

Definition readBody (msg : bytes) (state : readState)
  : comp (option error * readState) :=
  let* line := must (slice msg 0 (blen msg - 2)) in
  let* c := must (index line 0) in
  if Ascii.eqb c "$" then
    let* digits := must (slice line 1 (blen line)) in
    let '(n, ok) := strconv.ParseInt digits 64 in
    let state := set_bulkLen n state in
    if negb ok then Done (Some (protocol_error msg), state)
    else if bulkLen state <=? 0
         then Done (None, set_bulkLen 0 (set_args (args state ++ [[]]) state))
         else Done (None, state)
  else Done (None, set_args (args state ++ [line]) state).

(** *** [parse0]: the loop body *)

(** What one iteration of the [for] loop does: it sends [sent] on the
    channel and goes on with the next iteration, or it sends and closes the
    channel and returns. *)
Inductive loopStep : Type :=
| Next (sent : list Payload) (state : readState) (r : bytes)
| Return (sent : list Payload).

Definition iter (state : readState) (r : bytes) : comp loopStep :=
  let* '(msg, ioErr, err, r, state) := readLine r state in
  match err with
  | Some e =>
      if ioErr then Done (Return [errPayload e])
      else Done (Next [errPayload e] zeroState r)
  | None =>
      if negb (readingMultiLine state) then
        let* c := must (index msg 0) in
        if Ascii.eqb c "*" then
          let* '(err, state) := parseMultiBulkHeader msg state in
          match err with
          | Some _ => Done (Next [errPayload (protocol_error msg)] zeroState r)
          | None =>
              if expectedArgsCount state =? 0
              then Done (Next [dataPayload EmptyMultiBulkReply] zeroState r)
              else Done (Next [] state r)
          end
        else if Ascii.eqb c "$" then
          let* '(err, state) := parseBulkHeader msg state in
          match err with
          | Some _ => Done (Next [errPayload (protocol_error msg)] zeroState r)
          | None =>
              if bulkLen state =? -1
              then Done (Next [dataPayload NullBulkReply] zeroState r)
              else Done (Next [] state r)
          end
        else
          let* '(result, err) := parseSingleLineReply msg in
          Done (Next [{| Data := result; Err := err |}] zeroState r)
      else
        let* '(err, state) := readBody msg state in
        match err with
        | Some _ => Done (Next [errPayload (protocol_error msg)] zeroState r)
        | None =>
            if finished state then
              let* result :=
                if Ascii.eqb (msgType state) "*"
                then Done (Some (MakeMultiBulkReply (args state)))
                else if Ascii.eqb (msgType state) "$"
                then let* a0 := must (nth_error (args state) 0) in
                     Done (Some (MakeBulkReply a0))
                else Done None in
              Done (Next [{| Data := result; Err := None |}] zeroState r)
            else Done (Next [] state r)
        end
  end.

(** How the goroutine leaves the channel: closed after an I/O error, or
    left open when a panic is recovered by the deferred function (which
    logs the stack and returns without closing). *)
Inductive chanEnd : Type := Closed | LeftOpen.

Fixpoint loop (fuel : nat) (state : readState) (r : bytes)
  : option (list Payload * chanEnd) :=
  match fuel with
  | O => None
  | S fuel' =>
      match iter state r with
      | Panic => Some ([], LeftOpen)
      | Done (Return sent) => Some (sent, Closed)
      | Done (Next sent state' r') =>
          match loop fuel' state' r' with
          | Some (ps, e) => Some (sent ++ ps, e)
          | None => None
          end
      end
  end.

(** Everything [parse0] sends for the stream [r]; every iteration that goes
    on has consumed a byte, so [length r + 1] iterations are enough
    ([parse0_total]). *)
Definition parse0 (r : bytes) : option (list Payload * chanEnd) :=
  loop (S (length r)) zeroState r.

(** A receive from the channel either yields or blocks for ever. *)
Inductive recv (A : Type) : Type :=
| Returns (a : A)
| Blocks.
Arguments Returns {A} a.
Arguments Blocks {A}.

(** The [for payload := range ch] loop of [ParseBytes]. *)
Fixpoint collect (ps : list Payload) (e : chanEnd) (results : list (option Reply))
  : recv (list (option Reply) * option error) :=
  match ps with
  | [] =>
      match e with
      | Closed => Returns (results, None)
      | LeftOpen => Blocks
      end
  | payload :: ps' =>
      match Err payload with
      | Some err =>
          match err with
          | io_EOF => Returns (results, None)
          | _ => Returns ([], Some err)
          end
      | None => collect ps' e (results ++ [Data payload])
      end
  end.

Definition ParseBytes (data : bytes) : option (recv (list (option Reply) * option error)) :=
  match parse0 data with
  | Some (ps, e) => Some (collect ps e [])
  | None => None
  end.

Definition ParseOne (data : bytes) : option (recv (option Reply * option error)) :=
  match parse0 data with
  | Some (payload :: _, _) => Some (Returns (Data payload, Err payload))
  | Some ([], Closed) => Some (Returns (None, Some (errors_New "no protocol")))
  | Some ([], LeftOpen) => Some Blocks
  | None => None
  end.

End parser.

Definition crlf (s : string) : bytes := to_bytes s ++ CRLF.

(** ** The keyspace (package database) *)

Module database.

(** [time.Time] as nanoseconds since the Unix epoch and [time.Duration] as
    signed 64-bit nanoseconds.  The saturation of [Time] at the ends of its
    range is not modelled. *)
Abbreviation Time := Z.
Definition Second : Z := 1000000000.
Definition Millisecond : Z := 1000000.

(** Modelled from the spec: the entity type is not among the sources; spec
    3: an opaque value with a discriminator.  The constructors are the
    cases of the type switch of [execType], [DOther] is its fall-through. *)
Inductive EntityData : Type :=
| DBytes (b : bytes)
| DLinkedList
| DDict
| DSet
| DSortedSet
| DOther.

Record DataEntity : Type := mkEntity { EData : EntityData }.

Abbreviation CmdLine := (list bytes).

(** Modelled from the spec: the type [DB] is not among the sources; spec 3:
    a mapping from keys to entities, a companion mapping from keys to
    absolute expiration instants, and (spec 4.4) the AOF sink the records
    go to. *)
Record DB : Type := mkDB {
  data : gmap string DataEntity;
  ttlMap : gmap string Time;
  aofLog : list CmdLine
}.

Definition set_data (d : gmap string DataEntity) (db : DB) : DB :=
  {| data := d; ttlMap := ttlMap db; aofLog := aofLog db |}.
Definition set_ttlMap (t : gmap string Time) (db : DB) : DB :=
  {| data := data db; ttlMap := t; aofLog := aofLog db |}.

(** Modelled from the spec: the methods of [DB] are not among the sources.
    Spec 4.2: [remove(k)] removes the entity and any TTL entry. *)
Definition Remove (db : DB) (key : string) : DB :=
  {| data := delete key (data db); ttlMap := delete key (ttlMap db); aofLog := aofLog db |}.

(** Modelled from the spec: [removeMany(ks...)] of spec 4.2 is missing from
    the sources; it removes each key and returns the count removed. *)
Fixpoint Removes (db : DB) (keys : list string) : Z * DB :=
  match keys with
  | [] => (0, db)
  | key :: keys' =>
      match data db !! key with
      | Some _ => let '(n, db') := Removes (Remove db key) keys' in (n + 1, db')
      | None => Removes db keys'
      end
  end.

(** Modelled from the spec: [get(k)] of spec 4.2 is missing from the sources;
    every get checks the TTL, and a key whose TTL is at most [now] is
    removed and reported absent (lazy expiration). *)
Definition GetEntity (db : DB) (now : Time) (key : string) : option DataEntity * DB :=
  match data db !! key with
  | None => (None, db)
  | Some entity =>
      match ttlMap db !! key with
      | Some expireTime =>
          if expireTime <=? now then (None, Remove db key) else (Some entity, db)
      | None => (Some entity, db)
      end
  end.

(** Modelled from the spec: [put(k, entity)] of spec 4.2 is missing from the
    sources; it inserts or overwrites and does not clear the TTL. *)
Definition PutEntity (db : DB) (key : string) (entity : DataEntity) : DB :=
  set_data (<[key := entity]> (data db)) db.

(** Modelled from the spec: [expire(k, instant)] of spec 4.2 is missing from
    the sources; it sets the absolute expiration, overriding a prior one. *)
Definition Expire (db : DB) (key : string) (expireTime : Time) : DB :=
  set_ttlMap (<[key := expireTime]> (ttlMap db)) db.

(** Modelled from the spec: [persist(k)] of spec 4.2 is missing from the
    sources; it removes any TTL entry of the key. *)
Definition Persist (db : DB) (key : string) : DB :=
  set_ttlMap (delete key (ttlMap db)) db.

(** Modelled from the spec: [flush()] of spec 4.2 is missing from the
    sources; it clears all keys and TTLs. *)
Definition Flush (db : DB) : DB :=
  {| data := ∅; ttlMap := ∅; aofLog := aofLog db |}.

(** Modelled from the spec: the AOF sink is an interface outside the
    sources; spec 4.4 step 6: a record is appended to the sink. *)
Definition addAof (db : DB) (line : CmdLine) : DB :=
  {| data := data db; ttlMap := ttlMap db; aofLog := aofLog db ++ [line] |}.

(** Modelled from the spec: [utils.ToCmdLine3] is missing from the sources;
    the command line is the command name followed by the arguments. *)
Definition ToCmdLine3 (name : string) (args : list bytes) : CmdLine :=
  to_bytes name :: args.

(** Modelled from the spec: [aof.MakeExpireCmd] is missing from the sources;
    spec 4.4: expirations are rewritten to [PEXPIREAT k ms-since-epoch]. *)
Definition MakeExpireCmd (key : string) (expireAt : Time) : CmdLine :=
  [to_bytes "PEXPIREAT"; to_bytes key; strconv.FormatInt (Z.quot expireAt 1000000)].

(** Modelled from the spec: package [wildcard] is missing from the sources;
    spec 6: glob patterns with [*], [?] and [[...]] (here: any one of the
    listed characters). *)
Inductive token : Type :=
| TAll
| TAny
| TSet (cs : bytes)
| TLit (c : ascii).

Fixpoint compile_set (p : bytes) (acc : bytes) : option (bytes * bytes) :=
  match p with
  | [] => None
  | c :: p' => if Ascii.eqb c "]" then Some (acc, p') else compile_set p' (acc ++ [c])
  end.

Fixpoint compile (fuel : nat) (p : bytes) : list token :=
  match fuel, p with
  | O, _ => []
  | _, [] => []
  | S f, c :: p' =>
      if Ascii.eqb c "*" then TAll :: compile f p'
      else if Ascii.eqb c "?" then TAny :: compile f p'
      else if Ascii.eqb c "[" then
        match compile_set p' [] with
        | Some (cs, rest) => TSet cs :: compile f rest
        | None => TLit c :: compile f p'
        end
      else TLit c :: compile f p'
  end.

Definition CompilePattern (src : string) : list token :=
  compile (String.length src) (to_bytes src).

Fixpoint match_tokens (p : list token) : bytes -> bool :=
  match p with
  | [] => fun s => match s with [] => true | _ => false end
  | TAll :: p' =>
      fix star (s : bytes) : bool :=
        match_tokens p' s || match s with [] => false | _ :: s' => star s' end
  | TAny :: p' => fun s => match s with [] => false | _ :: s' => match_tokens p' s' end
  | TSet cs :: p' =>
      fun s => match s with
               | [] => false
               | c :: s' => existsb (Ascii.eqb c) cs && match_tokens p' s'
               end
  | TLit c :: p' =>
      fun s => match s with
               | [] => false
               | c' :: s' => Ascii.eqb c c' && match_tokens p' s'
               end
  end.

Definition IsMatch (p : list token) (key : string) : bool :=
  match_tokens p (to_bytes key).

(** Modelled from the spec: [forEach(fn)] of spec 4.2 is missing from the
    sources; [fn] receives key and entity and returns continue or stop.
    The variables the Go closure captures are the threaded [S]. *)
Fixpoint ForEach_entries {S : Type} (l : list (string * DataEntity))
    (consumer : string -> DataEntity -> S -> S * bool) (s : S) : S :=
  match l with
  | [] => s
  | (key, val) :: l' =>
      let '(s', continue) := consumer key val s in
      if continue then ForEach_entries l' consumer s' else s'
  end.

Definition ForEach {S : Type} (d : gmap string DataEntity)
    (consumer : string -> DataEntity -> S -> S * bool) (s : S) : S :=
  ForEach_entries (map_to_list d) consumer s.

(** *** The executors of the keyspace commands *)

(** An executor gets the keyspace, the clock reading of [time.Now()] and
    the arguments after the command name. *)
Definition executor : Type := DB -> Time -> list bytes -> comp (Reply * DB).

Definition arg (args : list bytes) (i : nat) : comp bytes := must (nth_error args i).

Definition execDel : executor := fun db now args =>
  let keys := map to_string args in
  let '(deleted, db) := Removes db keys in
  let db := if 0 <? deleted then addAof db (ToCmdLine3 "del" args) else db in
  Done (MakeIntReply deleted, db).

Fixpoint execExists_loop (db : DB) (now : Time) (args : list bytes) (result : Z) : Z * DB :=
  match args with
  | [] => (result, db)
  | a :: args' =>
      let key := to_string a in
      let '(e, db) := GetEntity db now key in
      execExists_loop db now args'
        (match e with Some _ => result + 1 | None => result end)
  end.

Definition execExists : executor := fun db now args =>
  let '(result, db) := execExists_loop db now args 0 in
  Done (MakeIntReply result, db).

Definition execFlushDB : executor := fun db now args =>
  let db := Flush db in
  let db := addAof db (ToCmdLine3 "flushdb" args) in
  Done (OkReply, db).

Definition execType : executor := fun db now args =>
  let* a0 := arg args 0 in
  let key := to_string a0 in
  let '(e, db) := GetEntity db now key in
  match e with
  | None => Done (MakeStatusReply "none", db)
  | Some entity =>
      match EData entity with
      | DBytes _ => Done (MakeStatusReply "string", db)
      | DLinkedList => Done (MakeStatusReply "list", db)
      | DDict => Done (MakeStatusReply "hash", db)
      | DSet => Done (MakeStatusReply "set", db)
      | DSortedSet => Done (MakeStatusReply "zset", db)
      | DOther => Done (UnknownErrReply, db)
      end
  end.

Definition execRename : executor := fun db now args =>
  if negb (length args =? 2)%nat
  then Done (MakeErrReply "ERR wrong number of arguments for 'rename' command", db)
  else
    let* a0 := arg args 0 in
    let* a1 := arg args 1 in
    let src := to_string a0 in
    let dest := to_string a1 in
    let '(e, db) := GetEntity db now src in
    match e with
    | None => Done (MakeErrReply "no such key", db)
    | Some entity =>
        let rawTTL := ttlMap db !! src in
        let db := PutEntity db dest entity in
        let db := Remove db src in
        let db :=
          match rawTTL with
          | Some expireTime =>
              let db := Persist db src in
              let db := Persist db dest in
              Expire db dest expireTime
          | None => db
          end in
        let db := addAof db (ToCmdLine3 "rename" args) in
        Done (OkReply, db)
    end.

Definition execRenameNx : executor := fun db now args =>
  let* a0 := arg args 0 in
  let* a1 := arg args 1 in
  let src := to_string a0 in
  let dest := to_string a1 in
  let '(e, db) := GetEntity db now dest in
  match e with
  | Some _ => Done (MakeIntReply 0, db)
  | None =>
      let '(e, db) := GetEntity db now src in
      match e with
      | None => Done (MakeErrReply "no such key", db)
      | Some entity =>
          let rawTTL := ttlMap db !! src in
          let '(_, db) := Removes db [src; dest] in
          let db := PutEntity db dest entity in
          let db :=
            match rawTTL with
            | Some expireTime =>
                let db := Persist db src in
                let db := Persist db dest in
                Expire db dest expireTime
            | None => db
            end in
          let db := addAof db (ToCmdLine3 "renamenx" args) in
          Done (MakeIntReply 1, db)
      end
  end.

(** The common shape of the four expiration commands: parse the integer,
    look the key up, set the expiration [expireAt raw], log it. *)
Definition execExpireWith (expireAt : Z -> Time) : executor := fun db now args =>
  let* a0 := arg args 0 in
  let key := to_string a0 in
  let* a1 := arg args 1 in
  let '(raw, ok) := strconv.ParseInt a1 64 in
  if negb ok then Done (MakeErrReply "ERR value is not an integer or out of range", db)
  else
    let '(e, db) := GetEntity db now key in
    match e with
    | None => Done (MakeIntReply 0, db)
    | Some _ =>
        let db := Expire db key (expireAt raw) in
        let db := addAof db (MakeExpireCmd key (expireAt raw)) in
        Done (MakeIntReply 1, db)
    end.

(** [ttl := time.Duration(ttlArg) * time.Second; expireAt := time.Now().Add(ttl)] *)
Definition execExpire : executor := fun db now args =>
  execExpireWith (fun ttlArg => now + wrap64 (ttlArg * Second)) db now args.

(** [expireAt := time.Unix(raw, 0)] *)
Definition execExpireAt : executor := fun db now args =>
  execExpireWith (fun raw => raw * Second) db now args.

(** [ttl := time.Duration(ttlArg) * time.Millisecond] *)
Definition execPExpire : executor := fun db now args =>
  execExpireWith (fun ttlArg => now + wrap64 (ttlArg * Millisecond)) db now args.

(** [expireAt := time.Unix(0, raw*int64(time.Millisecond))] *)
Definition execPExpireAt : executor := fun db now args =>
  execExpireWith (fun raw => wrap64 (raw * Millisecond)) db now args.

(** [expireTime.Sub(time.Now())], saturating at the ends of [Duration]. *)
Definition Sub (t u : Time) : Z := Z.max (- 2^63) (Z.min (2^63 - 1) (t - u)).

Definition execTTLWith (unit : Z) : executor := fun db now args =>
  let* a0 := arg args 0 in
  let key := to_string a0 in
  let '(e, db) := GetEntity db now key in
  match e with
  | None => Done (MakeIntReply (-2), db)
  | Some _ =>
      match ttlMap db !! key with
      | None => Done (MakeIntReply (-1), db)
      | Some expireTime => Done (MakeIntReply (Z.quot (Sub expireTime now) unit), db)
      end
  end.

Definition execTTL : executor := execTTLWith Second.
Definition execPTTL : executor := execTTLWith Millisecond.

Definition execPersist : executor := fun db now args =>
  let* a0 := arg args 0 in
  let key := to_string a0 in
  let '(e, db) := GetEntity db now key in
  match e with
  | None => Done (MakeIntReply 0, db)
  | Some _ =>
      match ttlMap db !! key with
      | None => Done (MakeIntReply 0, db)
      | Some _ =>
          let db := Persist db key in
          let db := addAof db (ToCmdLine3 "persist" args) in
          Done (MakeIntReply 1, db)
      end
  end.

Definition execKeys : executor := fun db now args =>
  let* a0 := arg args 0 in
  let pattern := CompilePattern (to_string a0) in
  let result :=
    ForEach (data db)
      (fun key val result =>
         (if IsMatch pattern key then result ++ [to_bytes key] else result, true))
      [] in
  Done (MakeMultiBulkReply result, db).

(** The write commands of the keyspace surface with their arity, as [init]
    registers them; FLUSHDB is registered outside this file and has the
    arity of the command table of spec 6. *)
Definition keyspaceWrites : list (string * executor * Z) :=
  [ ("Del", execDel, -2);
    ("Expire", execExpire, 3);
    ("ExpireAt", execExpireAt, 3);
    ("PExpire", execPExpire, 3);
    ("PExpireAt", execPExpireAt, 3);
    ("Persist", execPersist, 2);
    ("Rename", execRename, 3);
    ("RenameNx", execRenameNx, 3);
    ("FlushDB", execFlushDB, 1) ].

(** Modelled from the spec: the dispatcher is not among the sources; spec 3:
    a positive arity [n] is exactly [n] tokens, a negative one at least
    [-n], counting the command name. *)
Definition validateArity (arity : Z) (args : list bytes) : bool :=
  let argNum := Z.of_nat (length args) + 1 in
  if 0 <=? arity then argNum =? arity else - arity <=? argNum.

End database.

(** ** The vocabulary of the properties *)

Section Vocabulary.
Import parser database.

(** A string of digits holds no sign and no line feed. *)
Definition is_digit (c : ascii) : Prop := strconv.digit_val c <> None.

Definition state_ok (st : readState) : Prop := 0 <= bulkLen st < 2 ^ 63.

(** The parser from a given state, and its unfolding by one iteration. *)
Definition run (st : readState) (r : bytes) : option (list Payload * chanEnd) :=
  loop (S (length r)) st r.

(** The state while the arguments of a message are collected. *)
Definition collecting (ty : ascii) (count : Z) (acc : list bytes) (pending : Z) : readState :=
  {| readingMultiLine := true; expectedArgsCount := count; msgType := ty;
     args := acc; bulkLen := pending |}.

(** A payload the parser hands back unchanged: not empty, not starting
    with a dollar sign, and of a length that fits. *)
Definition payload_ok (b : bytes) : bool :=
  match b with
  | [] => false
  | c :: _ => negb (Ascii.eqb c "$")
  end && (blen b + 2 <? 2 ^ 63).

Definition no_LF (b : bytes) : bool := negb (existsb (Ascii.eqb LF) b).

(** The replies whose serialization the parser reads back: texts without a
    line feed, integers of 64 bits, payloads as in [payload_ok], between one
    and [2^32 - 1] array items.  [OkReply] and [UnknownErrReply] read back
    as a status and an error reply. *)
Definition wire_safe (r : Reply) : bool :=
  match r with
  | StatusReply s | StandardErrReply s => no_LF (to_bytes s)
  | IntReply n => (- 2 ^ 63 <=? n) && (n <? 2 ^ 63)
  | BulkReply b => payload_ok b
  | MultiBulkReply items =>
      (0 <? Z.of_nat (length items)) && (Z.of_nat (length items) <? 2 ^ 32)
      && forallb payload_ok items
  | NullBulkReply | EmptyMultiBulkReply => true
  | OkReply | UnknownErrReply => false
  end.

(** [p] is sent, then what follows. *)
Definition sent_then (p : Payload) (k : option (list Payload * chanEnd))
  : option (list Payload * chanEnd) :=
  match k with
  | Some (ps, e) => Some (p :: ps, e)
  | None => None
  end.

(** [err.Error()] *)
Definition Error_text (e : error) : string :=
  match e with
  | io_EOF => "EOF"
  | io_ErrUnexpectedEOF => "unexpected EOF"
  | errors_New text => text
  end.

(** The reply [Handle] of [server.go] writes for a protocol error:
    [protocol.MakeErrReply(payload.Err.Error())], here for the malformed
    array header [*x]. *)
Definition malformed_header_reply : Reply :=
  MakeErrReply (Error_text (protocol_error (crlf "*x"))).

(** A key is live when it is stored and its expiration, if any, lies in the
    future: what [GetEntity] reports as present. *)
Definition live (db : DB) (now : Time) (key : string) : Prop :=
  exists entity, data db !! key = Some entity /\
                 forall t, ttlMap db !! key = Some t -> now < t.

(** No orphan TTL: every key with an expiration is stored. *)
Definition no_orphan_ttl (db : DB) : Prop :=
  forall key, is_Some (ttlMap db !! key) -> is_Some (data db !! key).

Definition entity_of (s : string) : DataEntity := {| EData := DBytes (to_bytes s) |}.

(** The keyspace holding key [a] with value [1], without and with an
    expiration at instant 100. *)
Definition db_a : DB :=
  {| data := {[ "a"%string := entity_of "1" ]}; ttlMap := ∅; aofLog := [] |}.
Definition db_a_ttl : DB :=
  {| data := {[ "a"%string := entity_of "1" ]}; ttlMap := {[ "a"%string := 100 ]};
     aofLog := [] |}.
Definition db_empty : DB := {| data := ∅; ttlMap := ∅; aofLog := [] |}.

Definition is_error (r : Reply) : bool :=
  match r with
  | StandardErrReply _ | UnknownErrReply => true
  | _ => false
  end.

Definition is_zero (r : Reply) : bool :=
  match r with
  | IntReply n => n =? 0
  | _ => false
  end.

(** What a command does to the log, by its reply: nothing after an error
    or the integer 0, one record otherwise. *)
Definition aof_rule (reply : Reply) (db db' : DB) : Prop :=
  if is_error reply || is_zero reply
  then aofLog db' = aofLog db
  else exists line, aofLog db' = aofLog db ++ [line].

End Vocabulary.

(** ** More of the sources *)

(** [strings.Contains] *)
Fixpoint has_prefix (p s : bytes) : bool :=
  match p, s with
  | [], _ => true
  | c :: p', d :: s' => Ascii.eqb c d && has_prefix p' s'
  | _ :: _, [] => false
  end.

Fixpoint contains_bytes (s sub : bytes) : bool :=
  has_prefix sub s ||
  match s with
  | [] => false
  | _ :: s' => contains_bytes s' sub
  end.

Definition strings_Contains (s substr : string) : bool :=
  contains_bytes (to_bytes s) (to_bytes substr).


Section MoreVocabulary.
Import parser database.

(** What holds of every state [parse0] reaches: it is the zero state, or
    arguments are being collected for a [*] or [$] message that still
    misses some, with a pending bulk length that is a non-negative int64. *)
Definition state_inv (st : readState) : Prop :=
  st = zeroState \/
  (readingMultiLine st = true /\
   (msgType st = "*"%char \/ msgType st = "$"%char) /\
   Z.of_nat (length (args st)) < expectedArgsCount st /\
   0 <= bulkLen st < 2 ^ 63).

(** A payload carries a reply or an error, not both and not neither. *)
Definition payload_wf (p : Payload) : bool :=
  match Data p, Err p with
  | Some _, None => true
  | None, Some _ => true
  | _, _ => false
  end.

Definition is_io_error (p : Payload) : bool :=
  match Err p with
  | Some io_EOF | Some io_ErrUnexpectedEOF => true
  | _ => false
  end.



(** [live] as a test. *)
Definition liveb (db : DB) (now : Time) (key : string) : bool :=
  match data db !! key with
  | None => false
  | Some _ =>
      match ttlMap db !! key with
      | Some t => now <? t
      | None => true
      end
  end.

(** [expireTime.UnixNano()/1000/1000]: the instant in milliseconds, each
    division truncating towards zero. *)
Definition unix_millis (t : Time) : Z := Z.quot (Z.quot (wrap64 t) 1000) 1000.

(** Modelled from the spec: [utils.ToCmdLine] is missing from the sources;
    spec 4.4: [toTTLCmd(k)] emits [PEXPIREAT k t] or [PERSIST k], the words
    of the command as byte strings. *)
Definition ToCmdLine (cmd : list string) : CmdLine := map to_bytes cmd.

Definition toTTLCmd (db : DB) (key : string) : Reply :=
  match ttlMap db !! key with
  | None => MakeMultiBulkReply (ToCmdLine ["PERSIST"%string; key])
  | Some expireTime =>
      let timestamp := to_string (strconv.FormatInt (unix_millis expireTime)) in
      MakeMultiBulkReply (ToCmdLine ["PEXPIREAT"%string; key; timestamp])
  end.

(** [toTTLCmd(db, key).Args] *)
Definition Args_of (r : Reply) : CmdLine :=
  match r with
  | MultiBulkReply a => a
  | _ => []
  end.

Definition undoExpire (db : DB) (args : list bytes) : comp (list CmdLine) :=
  let* a0 := arg args 0 in
  let key := to_string a0 in
  Done [Args_of (toTTLCmd db key)].

Definition prepareRename (args : list bytes) : comp (list string * list string) :=
  let* a0 := arg args 0 in
  let* a1 := arg args 1 in
  let src := to_string a0 in
  let dest := to_string a1 in
  Done ([dest], [src]).

End MoreVocabulary.

(** ** The session: [redis/server/server.go] *)

Module server.
Import parser database.

Definition unknownErrReplyBytes : bytes := to_bytes "-ERR unknown" ++ CRLF.

(** How [Handle] leaves: the connection refused by a closing handler, the
    client closed ([closeClient]), the channel drained, the goroutine
    blocked on a channel that is never closed, or a nil dereference. *)
Inductive sessionEnd : Type :=
| Refused
| ClientClosed
| Drained
| Blocked
| Crashed.

Section Handler.

(** The keyspace behind [h.db] and the client connection are parameters:
    [Exec] is [h.db.Exec(client, args)] ([None] is a nil reply), [Write] is
    [client.Write] and tells whether it returned an error. *)
Variables DBState Conn : Type.
Variable Exec : DBState -> CmdLine -> option Reply * DBState.
Variable Write : Conn -> bytes -> Conn * bool.

(** The body of [for payload := range ch]. *)
Fixpoint serve (ps : list Payload) (e : chanEnd) (db : DBState) (client : Conn)
  : DBState * Conn * sessionEnd :=
  match ps with
  | [] =>
      match e with
      | Closed => (db, client, Drained)
      | LeftOpen => (db, client, Blocked)
      end
  | payload :: ps' =>
      match Err payload with
      | Some err =>
          if match err with
             | io_EOF | io_ErrUnexpectedEOF => true
             | _ => strings_Contains (Error_text err) "use of closed network connection"
             end
          then (db, client, ClientClosed)
          else
            let errReply := MakeErrReply (Error_text err) in
            let '(client, failed) := Write client (ToBytes errReply) in
            if failed then (db, client, ClientClosed)
            else serve ps' e db client
      | None =>
          match Data payload with
          | None => (db, client, Crashed)
          | Some (MultiBulkReply cmdArgs) =>
              let '(result, db) := Exec db cmdArgs in
              let '(client, _) :=
                match result with
                | Some reply => Write client (ToBytes reply)
                | None => Write client unknownErrReplyBytes
                end in
              serve ps' e db client
          | Some _ => serve ps' e db client
          end
      end
  end.

(** [Handle] on a connection that delivers [input] and then end of file. *)
Definition Handle (closing : bool) (input : bytes) (db : DBState) (client : Conn)
  : option (DBState * Conn * sessionEnd) :=
  if closing then Some (db, client, Refused)
  else match parse0 input with
       | Some (ps, e) => Some (serve ps e db client)
       | None => None
       end.

End Handler.

Arguments serve {DBState Conn} Exec Write ps e db client.
Arguments Handle {DBState Conn} Exec Write closing input db client.

(** What is written for the result of [Exec]. *)
Definition reply_bytes (result : option Reply) : bytes :=
  match result with
  | Some reply => ToBytes reply
  | None => unknownErrReplyBytes
  end.

(** The commands executed one after the other: what is written for each,
    and the keyspace at the end. *)
Fixpoint run_commands {DBState : Type}
    (Exec : DBState -> CmdLine -> option Reply * DBState)
    (cmds : list CmdLine) (db : DBState) : list bytes * DBState :=
  match cmds with
  | [] => ([], db)
  | cmd :: cmds' =>
      let '(result, db1) := Exec db cmd in
      let '(out, db2) := run_commands Exec cmds' db1 in
      (reply_bytes result :: out, db2)
  end.

(** The requests among the replies a client sent: [Handle] takes a
    payload for a command only when it is a [*protocol.MultiBulkReply]. *)
Definition commands_of (rs : list Reply) : list CmdLine :=
  flat_map (fun r => match r with MultiBulkReply cmdArgs => [cmdArgs] | _ => [] end) rs.

(** A connection that records what is written and never fails. *)
Definition record_write (written : list bytes) (b : bytes) : list bytes * bool :=
  (written ++ [b], false).

End server.

(** * Properties *)

(** ** The standard library functions on examples *)

Example FormatInt_ex1 : strconv.FormatInt (-9223372036854775808) = to_bytes "-9223372036854775808".
Proof. vm_compute. reflexivity. Qed.
Example FormatInt_ex2 : strconv.FormatInt 0 = to_bytes "0".
Proof. vm_compute. reflexivity. Qed.
Example ParseInt_ex1 : strconv.ParseInt (to_bytes "-9223372036854775808") 64 = (-9223372036854775808, true).
Proof. vm_compute. reflexivity. Qed.
Example ParseInt_ex2 : strconv.ParseInt (to_bytes "9223372036854775808") 64 = (9223372036854775807, false).
Proof. vm_compute. reflexivity. Qed.
Example ParseInt_ex3 : strconv.ParseInt (to_bytes "+12") 64 = (12, true).
Proof. vm_compute. reflexivity. Qed.
Example ParseInt_ex4 : strconv.ParseInt (to_bytes "1_2") 64 = (0, false).
Proof. vm_compute. reflexivity. Qed.
Example Split_ex1 : strings.Split (to_bytes "a  b") " " = [to_bytes "a"; []; to_bytes "b"].
Proof. reflexivity. Qed.
Example TrimSuffix_ex1 : strings.TrimSuffix (to_bytes "+OK" ++ CRLF) CRLF = to_bytes "+OK".
Proof. vm_compute. reflexivity. Qed.

(** ** Decimal numbers: parsing what was formatted *)

Section Decimal.
Import strconv.

Lemma digit_val_char d : 0 <= d < 10 -> digit_val (digit_char d) = Some d.
Proof.
  intros H.
  assert (Hd : d = 0 \/ d = 1 \/ d = 2 \/ d = 3 \/ d = 4 \/ d = 5 \/ d = 6 \/
               d = 7 \/ d = 8 \/ d = 9) by lia.
  repeat (destruct Hd as [-> | Hd]; [reflexivity |]). subst d. reflexivity.
Qed.

Lemma parse_digits_app a b acc :
  parse_digits (a ++ b) acc =
  match parse_digits a acc with
  | Some v => parse_digits b v
  | None => None
  end.
Proof.
  revert acc. induction a as [| c a IH]; intros acc; simpl; [reflexivity |].
  destruct (digit_val c); [apply IH | reflexivity].
Qed.

Lemma parse_fmt_digits fuel : forall n,
  0 <= n < 2 ^ Z.of_nat fuel ->
  parse_digits (fmt_digits fuel n) 0 = Some n.
Proof.
  induction fuel as [| f IH]; intros n Hn.
  - change (Z.of_nat 0) with 0 in Hn. rewrite Z.pow_0_r in Hn.
    replace n with 0 by lia. reflexivity.
  - cbn [fmt_digits]. rewrite parse_digits_app.
    assert (Hmod : 0 <= n mod 10 < 10) by (apply Z.mod_pos_bound; lia).
    destruct (n <? 10) eqn:E.
    + apply Z.ltb_lt in E. simpl. rewrite Z.mod_small by lia.
      rewrite digit_val_char by lia. reflexivity.
    + apply Z.ltb_ge in E. rewrite IH.
      * simpl. rewrite digit_val_char by lia. f_equal.
        pose proof (Z.div_mod n 10). lia.
      * split; [apply Z.div_pos; lia |].
        apply Z.div_lt_upper_bound; [lia |].
        rewrite Nat2Z.inj_succ, Z.pow_succ_r in Hn by lia. lia.
Qed.

Lemma fmt_digits_nonempty fuel n : fmt_digits (S fuel) n <> [].
Proof. cbn [fmt_digits]. destruct (if n <? 10 then [] else fmt_digits fuel (n / 10)); discriminate. Qed.

Lemma parse_FormatUint n : 0 <= n -> parse_digits (FormatUint n) 0 = Some n.
Proof.
  intros Hn. unfold FormatUint. apply parse_fmt_digits.
  destruct (Z.eq_dec n 0) as [-> | Hne]; [simpl; lia |].
  split; [lia |].
  rewrite Nat2Z.inj_succ, Z2Nat.id by apply Z.log2_nonneg.
  apply Z.log2_spec. lia.
Qed.

Lemma parse_digits_all_digit s : forall acc v,
  parse_digits s acc = Some v -> Forall is_digit s.
Proof.
  induction s as [| c s IH]; intros acc v H; [constructor |].
  simpl in H. destruct (digit_val c) eqn:E; [| discriminate].
  constructor; [unfold is_digit; congruence | eauto].
Qed.

Lemma FormatUint_digits n : 0 <= n -> Forall is_digit (FormatUint n).
Proof. intros H. eapply parse_digits_all_digit, parse_FormatUint, H. Qed.

Lemma FormatUint_cons n : exists c s, FormatUint n = c :: s.
Proof.
  unfold FormatUint. pose proof (fmt_digits_nonempty (Z.to_nat (Z.log2 n)) n) as H.
  destruct (fmt_digits _ n) as [| c s]; [congruence | eauto].
Qed.

Lemma is_digit_not c c' : is_digit c -> digit_val c' = None -> Ascii.eqb c c' = false.
Proof.
  intros H H'. destruct (Ascii.eqb_spec c c') as [-> | _]; [contradiction | reflexivity].
Qed.

Lemma ParseUint_FormatInt n bits :
  0 <= n < 2 ^ bits -> ParseUint (FormatInt n) bits = (n, true).
Proof.
  intros [H0 H1]. unfold FormatInt.
  destruct (n <? 0) eqn:E; [apply Z.ltb_lt in E; lia |].
  unfold ParseUint. rewrite parse_FormatUint by lia.
  destruct (FormatUint_cons n) as (c & s & ->).
  apply Z.ltb_lt in H1. rewrite H1. reflexivity.
Qed.

Lemma ParseInt_FormatInt n :
  int64_range n -> ParseInt (FormatInt n) 64 = (n, true).
Proof.
  unfold int64_range. intros [H0 H1]. unfold FormatInt.
  destruct (n <? 0) eqn:E.
  - apply Z.ltb_lt in E. unfold ParseInt.
    replace (Ascii.eqb "-" "-") with true by reflexivity.
    replace (Ascii.eqb "-" "+") with false by reflexivity. cbn [orb].
    rewrite parse_FormatUint by lia.
    destruct (FormatUint_cons (- n)) as (c & s & ->).
    cbn [negb andb].
    destruct (2 ^ (64 - 1) <? - n) eqn:E2; [apply Z.ltb_lt in E2; lia |].
    f_equal. lia.
  - apply Z.ltb_ge in E. unfold ParseInt.
    pose proof (FormatUint_digits n E) as Hd.
    pose proof (parse_FormatUint n E) as Hp.
    destruct (FormatUint n) as [| c s] eqn:Ef.
    { destruct (FormatUint_cons n) as (c & s & Hc). congruence. }
    apply Forall_cons_iff in Hd as [Hc _].
    rewrite (is_digit_not c "-" Hc eq_refl), (is_digit_not c "+" Hc eq_refl).
    cbn [orb]. rewrite Hp. cbn [negb andb].
    destruct (2 ^ (64 - 1) <=? n) eqn:E2; [apply Z.leb_le in E2; lia |].
    reflexivity.
Qed.

Lemma FormatInt_no_LF n : ~ In LF (FormatInt n).
Proof.
  assert (Hd : forall m, 0 <= m -> ~ In LF (FormatUint m)).
  { intros m Hm Hin. pose proof (FormatUint_digits m Hm) as Hf.
    rewrite Forall_forall in Hf. apply list_elem_of_In in Hin.
    apply Hf in Hin. apply Hin. reflexivity. }
  unfold FormatInt. destruct (n <? 0) eqn:E.
  - apply Z.ltb_lt in E. intros [Hc | Hin]; [discriminate |].
    apply (Hd (- n)); [lia | exact Hin].
  - apply Z.ltb_ge in E. apply Hd, E.
Qed.

End Decimal.

(** ** The reader and [readLine] *)

Section Reader.
Import parser.

Lemma blen_app (a b : bytes) : blen (a ++ b) = blen a + blen b.
Proof. unfold blen. rewrite length_app. lia. Qed.

Lemma blen_cons c (a : bytes) : blen (c :: a) = blen a + 1.
Proof. unfold blen. cbn [length]. lia. Qed.

Lemma blen_nonneg (a : bytes) : 0 <= blen a.
Proof. unfold blen. lia. Qed.

Lemma index_0 c (s : bytes) : index (c :: s) 0 = Some c.
Proof.
  unfold index. rewrite blen_cons. pose proof (blen_nonneg s).
  destruct (0 <? blen s + 1) eqn:E; [reflexivity | apply Z.ltb_ge in E; lia].
Qed.

Lemma index_app_r (a b : bytes) i :
  0 <= i < blen b -> index (a ++ b) (blen a + i) = nth_error b (Z.to_nat i).
Proof.
  intros Hi. unfold index. rewrite blen_app. pose proof (blen_nonneg a).
  destruct (0 <=? blen a + i) eqn:E1; [| apply Z.leb_gt in E1; lia].
  destruct (blen a + i <? blen a + blen b) eqn:E2; [| apply Z.ltb_ge in E2; lia].
  cbn [andb]. unfold blen. rewrite Z2Nat.inj_add, Nat2Z.id by lia.
  rewrite nth_error_app2 by lia. f_equal. lia.
Qed.

Lemma index_CR (a : bytes) : index (a ++ CRLF) (blen (a ++ CRLF) - 2) = Some CR.
Proof.
  rewrite blen_app. replace (blen a + blen CRLF - 2) with (blen a + 0) by (unfold blen; simpl; lia).
  rewrite index_app_r; [reflexivity | unfold blen; simpl; lia].
Qed.

Lemma index_LF (a : bytes) : index (a ++ CRLF) (blen (a ++ CRLF) - 1) = Some LF.
Proof.
  rewrite blen_app. replace (blen a + blen CRLF - 1) with (blen a + 1) by (unfold blen; simpl; lia).
  rewrite index_app_r; [reflexivity | unfold blen; simpl; lia].
Qed.

Lemma slice_from_1 c (s : bytes) : slice (c :: s) 1 (blen (c :: s)) = Some s.
Proof.
  unfold slice. rewrite blen_cons. pose proof (blen_nonneg s).
  destruct (1 <=? blen s + 1) eqn:E1; [| apply Z.leb_gt in E1; lia].
  rewrite Z.leb_refl. cbn [Z.leb Z.compare andb].
  replace (blen s + 1 - 1) with (blen s) by lia.
  change (Z.to_nat 1) with 1%nat. cbn [skipn]. unfold blen.
  rewrite Nat2Z.id, firstn_all. reflexivity.
Qed.

Lemma slice_line c (s : bytes) :
  slice ((c :: s) ++ CRLF) 1 (blen ((c :: s) ++ CRLF) - 2) = Some s.
Proof.
  unfold slice. rewrite blen_app, blen_cons. pose proof (blen_nonneg s).
  replace (blen CRLF) with 2 by reflexivity.
  destruct (1 <=? blen s + 1 + 2 - 2) eqn:E1; [| apply Z.leb_gt in E1; lia].
  destruct (blen s + 1 + 2 - 2 <=? blen s + 1 + 2) eqn:E2; [| apply Z.leb_gt in E2; lia].
  cbn [Z.leb Z.compare andb].
  replace (blen s + 1 + 2 - 2 - 1) with (blen s) by lia.
  change (Z.to_nat 1) with 1%nat. cbn [skipn app]. rewrite ?skipn_O. unfold blen.
  rewrite Nat2Z.id, firstn_app, firstn_all, Nat.sub_diag, firstn_O, app_nil_r. reflexivity.
Qed.

Lemma slice_body (b : bytes) : slice (b ++ CRLF) 0 (blen (b ++ CRLF) - 2) = Some b.
Proof.
  unfold slice. rewrite blen_app. pose proof (blen_nonneg b).
  replace (blen CRLF) with 2 by reflexivity.
  destruct (0 <=? blen b + 2 - 2) eqn:E1; [| apply Z.leb_gt in E1; lia].
  destruct (blen b + 2 - 2 <=? blen b + 2) eqn:E2; [| apply Z.leb_gt in E2; lia].
  cbn [Z.leb Z.compare andb].
  replace (blen b + 2 - 2 - 0) with (blen b) by lia.
  change (Z.to_nat 0) with 0%nat. rewrite skipn_O. unfold blen.
  rewrite Nat2Z.id, firstn_app, firstn_all, Nat.sub_diag, firstn_O, app_nil_r. reflexivity.
Qed.

Lemma TrimSuffix_CRLF (a : bytes) : strings.TrimSuffix (a ++ CRLF) CRLF = a.
Proof.
  unfold strings.TrimSuffix, strings.HasSuffix.
  rewrite length_app. replace (length CRLF) with 2%nat by reflexivity.
  replace (length a + 2 - 2)%nat with (length a) by lia.
  rewrite skipn_app, skipn_all, Nat.sub_diag, skipn_O. cbn [app].
  rewrite bool_decide_eq_true_2 by reflexivity.
  destruct (2 <=? length a + 2)%nat eqn:E; [| apply Nat.leb_gt in E; lia].
  cbn [andb]. rewrite firstn_app, firstn_all, Nat.sub_diag, firstn_O, app_nil_r. reflexivity.
Qed.

Lemma ReadBytes_found (line rest : bytes) :
  ~ In LF line -> ReadBytes LF (line ++ LF :: rest) = (line ++ [LF], None, rest).
Proof.
  induction line as [| c line IH]; intros Hnin.
  - reflexivity.
  - cbn [app ReadBytes].
    destruct (Ascii.eqb_spec c LF) as [-> | _]; [exfalso; apply Hnin; left; reflexivity |].
    rewrite IH; [reflexivity | intros Hin; apply Hnin; right; exact Hin].
Qed.

Lemma ReadBytes_shrinks r : forall msg r',
  ReadBytes LF r = (msg, None, r') -> (length r' < length r)%nat.
Proof.
  induction r as [| c r IH]; intros msg r' H; [discriminate |].
  cbn [ReadBytes] in H. destruct (Ascii.eqb c LF).
  - injection H as _ <-. cbn [length]. lia.
  - destruct (ReadBytes LF r) as [[line err] rest] eqn:E.
    injection H as _ -> ->. specialize (IH _ _ eq_refl). cbn [length]. lia.
Qed.

Lemma ReadFull_shrinks r n msg r' :
  ReadFull r n = (msg, None, r') -> (length r' + n = length r)%nat.
Proof.
  unfold ReadFull. destruct (n <=? length r)%nat eqn:E.
  - apply Nat.leb_le in E. intros H. injection H as _ <-. rewrite length_skipn. lia.
  - destruct r; discriminate.
Qed.

Lemma wrap64_small n : int64_range n -> wrap64 n = n.
Proof.
  unfold int64_range, wrap64. intros H. rewrite Z.mod_small; lia.
Qed.

(** A header line: everything up to the first line feed, which must follow
    a carriage return. *)
Lemma readLine_line (line rest : bytes) st :
  bulkLen st = 0 -> ~ In LF line ->
  readLine (line ++ CRLF ++ rest) st = Done (line ++ CRLF, false, None, rest, st).
Proof.
  intros Hb Hnin. unfold readLine. rewrite Hb. cbn [Z.eqb].
  change (line ++ CRLF ++ rest) with (line ++ [CR] ++ LF :: rest).
  rewrite app_assoc, ReadBytes_found.
  2:{ intros Hin. apply in_app_or in Hin as [Hin | [Hin | []]]; [auto | discriminate]. }
  rewrite <- app_assoc. change ([CR] ++ [LF]) with CRLF.
  rewrite index_CR.
  destruct (blen (line ++ CRLF) =? 0) eqn:E.
  { apply Z.eqb_eq in E. rewrite blen_app in E. pose proof (blen_nonneg line).
    change (blen CRLF) with 2 in E. lia. }
  reflexivity.
Qed.

(** A bulk line: exactly [bulkLen + 2] bytes, whatever they are. *)
Lemma readLine_bulk (b rest : bytes) st :
  bulkLen st = blen b -> 0 < blen b -> blen b + 2 < 2 ^ 63 ->
  readLine (b ++ CRLF ++ rest) st = Done (b ++ CRLF, false, None, rest, set_bulkLen 0 st).
Proof.
  intros Hb Hpos Hmax. unfold readLine. rewrite Hb.
  destruct (blen b =? 0) eqn:E0; [apply Z.eqb_eq in E0; lia |].
  rewrite wrap64_small by (unfold int64_range; lia).
  destruct (blen b + 2 <? 0) eqn:E1; [apply Z.ltb_lt in E1; lia |].
  unfold ReadFull.
  replace (Z.to_nat (blen b + 2)) with (length (b ++ CRLF))
    by (rewrite length_app; unfold blen; simpl; lia).
  rewrite app_assoc.
  destruct (length (b ++ CRLF) <=? length ((b ++ CRLF) ++ rest))%nat eqn:E2.
  2:{ apply Nat.leb_gt in E2. rewrite length_app in E2. lia. }
  rewrite firstn_app, firstn_all, Nat.sub_diag, skipn_app, skipn_all, Nat.sub_diag.
  rewrite firstn_O, skipn_O, app_nil_r. cbn [app].
  rewrite index_CR, index_LF.
  destruct (blen (b ++ CRLF) =? 0) eqn:E.
  { apply Z.eqb_eq in E. rewrite blen_app in E. change (blen CRLF) with 2 in E. lia. }
  reflexivity.
Qed.

(** *** The pending bulk length stays a non-negative int64 *)

Lemma zeroState_ok : state_ok zeroState.
Proof. unfold state_ok. simpl. lia. Qed.

Lemma parse_digits_nonneg s : forall acc v,
  0 <= acc -> strconv.parse_digits s acc = Some v -> 0 <= v.
Proof.
  induction s as [| c s IH]; intros acc v Hacc H; simpl in H.
  - injection H as <-. exact Hacc.
  - destruct (strconv.digit_val c) as [d |] eqn:E; [| discriminate].
    eapply IH; [| exact H].
    unfold strconv.digit_val in E.
    destruct ((48 <=? Z.of_nat (nat_of_ascii c)) && (Z.of_nat (nat_of_ascii c) <=? 57)) eqn:E2;
      [| discriminate].
    injection E as <-. apply andb_prop in E2 as [E2 _]. apply Z.leb_le in E2. lia.
Qed.

Lemma ParseInt_range s v ok : strconv.ParseInt s 64 = (v, ok) -> int64_range v.
Proof.
  unfold strconv.ParseInt, int64_range. destruct s as [| c s].
  { intros H. injection H as <- _. lia. }
  set (body := if Ascii.eqb c "+" || Ascii.eqb c "-" then s else c :: s).
  destruct body as [| c' body'] eqn:Eb.
  { intros H. injection H as <- _. lia. }
  destruct (strconv.parse_digits (c' :: body') 0) as [un |] eqn:Ep.
  2:{ intros H. injection H as <- _. lia. }
  pose proof (parse_digits_nonneg _ _ _ (Z.le_refl 0) Ep) as Hun.
  change (2 ^ (64 - 1)) with (2 ^ 63).
  destruct (Ascii.eqb c "-"); cbn [negb andb].
  - destruct (2 ^ 63 <? un) eqn:E; intros H; injection H as <- _.
    + lia.
    + apply Z.ltb_ge in E. lia.
  - destruct (2 ^ 63 <=? un) eqn:E; intros H; injection H as <- _.
    + lia.
    + apply Z.leb_gt in E. lia.
Qed.

Lemma readLine_spec r st msg ioErr err r' st' :
  state_ok st ->
  readLine r st = Done (msg, ioErr, err, r', st') ->
  (ioErr = true /\ err <> None) \/
  (ioErr = false /\ (length r' < length r)%nat /\
   (err = None -> bulkLen st' = 0 /\ readingMultiLine st' = readingMultiLine st
                  /\ expectedArgsCount st' = expectedArgsCount st
                  /\ msgType st' = msgType st /\ args st' = args st)).
Proof.
  intros Hb. unfold state_ok in Hb. unfold readLine. destruct (bulkLen st =? 0) eqn:E0.
  - apply Z.eqb_eq in E0.
    destruct (ReadBytes LF r) as [[m e] rest] eqn:ER.
    destruct e as [e |].
    { intros H. injection H as _ <- <- _ _. left. split; [reflexivity | discriminate]. }
    pose proof (ReadBytes_shrinks _ _ _ ER) as Hs.
    destruct (blen m =? 0).
    + intros H. injection H as _ <- <- <- _. right.
      split; [reflexivity | split; [exact Hs | discriminate]].
    + destruct (index m (blen m - 2)) as [c |]; [| discriminate]. cbn [must bind].
      destruct (negb (Ascii.eqb c CR)); intros H; injection H as _ <- <- <- <-; right;
        (split; [reflexivity | split; [exact Hs | try discriminate; auto]]).
  - apply Z.eqb_neq in E0.
    destruct (wrap64 (bulkLen st + 2) <? 0) eqn:E1; [discriminate |].
    apply Z.ltb_ge in E1.
    assert (Hn : wrap64 (bulkLen st + 2) = bulkLen st + 2).
    { unfold wrap64 in *.
      destruct (Z_lt_le_dec (bulkLen st + 2) (2 ^ 63)) as [Hlt | Hge].
      - rewrite Z.mod_small; lia.
      - exfalso.
        replace (bulkLen st + 2 + 2 ^ 63) with (bulkLen st + 2 - 2 ^ 63 + 1 * 2 ^ 64) in E1 by lia.
        rewrite Z.mod_add in E1 by lia. rewrite Z.mod_small in E1; lia. }
    rewrite Hn.
    destruct (ReadFull r (Z.to_nat (bulkLen st + 2))) as [[m e] rest] eqn:ER.
    destruct e as [e |].
    { intros H. injection H as _ <- <- _ _. left. split; [reflexivity | discriminate]. }
    pose proof (ReadFull_shrinks _ _ _ _ ER) as Hs.
    assert (Hs' : (length rest < length r)%nat) by lia.
    destruct (blen m =? 0).
    + intros H. injection H as _ <- <- <- _. right.
      split; [reflexivity | split; [exact Hs' | discriminate]].
    + destruct (index m (blen m - 2)) as [c1 |]; [| discriminate]. cbn [must bind].
      destruct (negb (Ascii.eqb c1 CR)).
      { intros H; injection H as _ <- <- <- <-; right.
        split; [reflexivity | split; [exact Hs' | discriminate]]. }
      destruct (index m (blen m - 1)) as [c2 |]; [| discriminate]. cbn [must bind].
      destruct (negb (Ascii.eqb c2 LF)); intros H; injection H as _ <- <- <- <-; right;
        (split; [reflexivity | split; [exact Hs' | try discriminate; auto]]).
Qed.

Lemma parseMultiBulkHeader_bulkLen msg st e st' :
  parseMultiBulkHeader msg st = Done (e, st') -> bulkLen st' = bulkLen st.
Proof.
  unfold parseMultiBulkHeader.
  destruct (slice msg 1 (blen msg - 2)) as [d |]; [| discriminate]. cbn [must bind].
  destruct (strconv.ParseUint d 32) as [n ok].
  destruct ok; cbn [negb].
  2:{ intros H. injection H as _ <-. reflexivity. }
  destruct (n =? 0).
  { intros H. injection H as _ <-. reflexivity. }
  destruct (0 <? n).
  - destruct (index msg 0); [| discriminate]. cbn [must bind].
    intros H. injection H as _ <-. reflexivity.
  - intros H. injection H as _ <-. reflexivity.
Qed.

Lemma parseBulkHeader_bulkLen msg st st' :
  parseBulkHeader msg st = Done (None, st') ->
  bulkLen st' = -1 \/ 0 < bulkLen st' < 2 ^ 63.
Proof.
  unfold parseBulkHeader.
  destruct (slice msg 1 (blen msg - 2)) as [d |]; [| discriminate]. cbn [must bind].
  destruct (strconv.ParseInt d 64) as [n ok] eqn:Ep.
  apply ParseInt_range in Ep. unfold int64_range in Ep.
  destruct ok; cbn [negb]; [| discriminate]. cbn [bulkLen set_bulkLen].
  destruct (n =? -1) eqn:E1.
  { apply Z.eqb_eq in E1. intros H. injection H as <-. left. exact E1. }
  destruct (0 <? n) eqn:E2; [| discriminate]. apply Z.ltb_lt in E2.
  destruct (index msg 0); [| discriminate]. cbn [must bind].
  intros H. injection H as <-. right. cbn [bulkLen]. lia.
Qed.

Lemma readBody_ok msg st st' :
  state_ok st -> readBody msg st = Done (None, st') -> state_ok st'.
Proof.
  unfold state_ok, readBody. intros Hb.
  destruct (slice msg 0 (blen msg - 2)) as [line |]; [| discriminate]. cbn [must bind].
  destruct (index line 0) as [c |]; [| discriminate]. cbn [must bind].
  destruct (Ascii.eqb c "$").
  - destruct (slice line 1 (blen line)) as [d |]; [| discriminate]. cbn [must bind].
    destruct (strconv.ParseInt d 64) as [n ok] eqn:Ep.
    apply ParseInt_range in Ep. unfold int64_range in Ep.
    destruct ok; cbn [negb]; [| discriminate]. cbn [bulkLen set_bulkLen].
    destruct (n <=? 0) eqn:E1; intros H; injection H as <-; cbn [bulkLen set_bulkLen set_args].
    + lia.
    + apply Z.leb_gt in E1. lia.
  - intros H. injection H as <-. cbn [bulkLen set_args]. exact Hb.
Qed.

(** An iteration that goes on has consumed input and keeps the state sane. *)
Lemma iter_next st r sent st' r' :
  state_ok st -> iter st r = Done (Next sent st' r') ->
  (length r' < length r)%nat /\ state_ok st'.
Proof.
  intros Hb. unfold iter.
  destruct (readLine r st) as [[[[[msg ioErr] err] r1] st1] |] eqn:ER; [| discriminate].
  cbn [bind]. apply (readLine_spec _ _ _ _ _ _ _ Hb) in ER.
  destruct ER as [[-> Herr] | (-> & Hlen & Hst)].
  { destruct err; [discriminate | congruence]. }
  destruct err as [e |].
  { intros H. injection H as _ <- <-. split; [exact Hlen | apply zeroState_ok]. }
  destruct (Hst eq_refl) as (Hb1 & _).
  assert (Hok1 : state_ok st1) by (unfold state_ok; rewrite Hb1; lia).
  destruct (negb (readingMultiLine st1)).
  - destruct (index msg 0) as [c |]; [| discriminate]. cbn [must bind].
    destruct (Ascii.eqb c "*").
    { destruct (parseMultiBulkHeader msg st1) as [[e st2] |] eqn:EH; [| discriminate].
      cbn [bind]. apply parseMultiBulkHeader_bulkLen in EH.
      destruct e.
      { intros H. injection H as _ <- <-. split; [exact Hlen | apply zeroState_ok]. }
      destruct (expectedArgsCount st2 =? 0); intros H; injection H as _ <- <-.
      - split; [exact Hlen | apply zeroState_ok].
      - split; [exact Hlen | unfold state_ok; rewrite EH, Hb1; lia]. }
    destruct (Ascii.eqb c "$").
    { destruct (parseBulkHeader msg st1) as [[e st2] |] eqn:EH; [| discriminate].
      cbn [bind]. destruct e.
      { intros H. injection H as _ <- <-. split; [exact Hlen | apply zeroState_ok]. }
      apply parseBulkHeader_bulkLen in EH.
      destruct (bulkLen st2 =? -1) eqn:E; intros H; injection H as _ <- <-.
      - split; [exact Hlen | apply zeroState_ok].
      - apply Z.eqb_neq in E. split; [exact Hlen | unfold state_ok; lia]. }
    destruct (parseSingleLineReply msg) as [[res e] |]; [| discriminate]. cbn [bind].
    intros H. injection H as _ <- <-. split; [exact Hlen | apply zeroState_ok].
  - destruct (readBody msg st1) as [[e st2] |] eqn:EB; [| discriminate]. cbn [bind].
    destruct e.
    { intros H. injection H as _ <- <-. split; [exact Hlen | apply zeroState_ok]. }
    apply (readBody_ok _ _ _ Hok1) in EB.
    destruct (finished st2).
    + match goal with |- context [bind ?c _] => destruct c as [res |] end; [| discriminate].
      cbn [bind]. intros H. injection H as _ <- <-. split; [exact Hlen | apply zeroState_ok].
    + intros H. injection H as _ <- <-. split; [exact Hlen | exact EB].
Qed.

(** *** [parse0] always comes to an end *)

Lemma loop_fuel fuel : forall fuel' st r,
  state_ok st -> (length r < fuel)%nat -> (length r < fuel')%nat ->
  loop fuel st r = loop fuel' st r /\ loop fuel st r <> None.
Proof.
  induction fuel as [| f IH]; intros fuel' st r Hok H1 H2; [lia |].
  destruct fuel' as [| f']; [lia |]. cbn [loop].
  destruct (iter st r) as [[sent st' r' | sent] |] eqn:EI; try (split; [reflexivity | discriminate]).
  apply (iter_next _ _ _ _ _ Hok) in EI as [Hlen Hok'].
  destruct (IH f' st' r' Hok' ltac:(lia) ltac:(lia)) as [Heq Hne].
  rewrite <- Heq. split; [reflexivity |].
  destruct (loop f st' r') as [[ps e] |]; [discriminate | congruence].
Qed.

Lemma run_unfold st r :
  state_ok st ->
  run st r =
  match iter st r with
  | Panic => Some ([], LeftOpen)
  | Done (Return sent) => Some (sent, Closed)
  | Done (Next sent st' r') =>
      match run st' r' with
      | Some (ps, e) => Some (sent ++ ps, e)
      | None => None
      end
  end.
Proof.
  intros Hok. unfold run. cbn [loop].
  destruct (iter st r) as [[sent st' r' | sent] |] eqn:EI; try reflexivity.
  apply (iter_next _ _ _ _ _ Hok) in EI as [Hlen Hok'].
  destruct (loop_fuel (length r) (S (length r')) st' r' Hok' Hlen ltac:(lia)) as [-> _].
  reflexivity.
Qed.

End Reader.

(** ** One iteration on a well-formed line *)

Section Framing.
Import parser.

Lemma no_LF_In b : no_LF b = true -> ~ In LF b.
Proof.
  unfold no_LF. intros H Hin. apply negb_true_iff in H.
  assert (Hex : existsb (Ascii.eqb LF) b = true).
  { apply existsb_exists. exists LF. split; [exact Hin | apply Ascii.eqb_refl]. }
  congruence.
Qed.

Lemma payload_ok_inv b :
  payload_ok b = true ->
  exists c b', b = c :: b' /\ Ascii.eqb c "$" = false /\ 0 < blen b /\ blen b + 2 < 2 ^ 63.
Proof.
  unfold payload_ok. intros H. apply andb_prop in H as [H1 H2].
  apply Z.ltb_lt in H2. destruct b as [| c b']; [discriminate |].
  apply negb_true_iff in H1. exists c, b'. rewrite blen_cons in *.
  pose proof (blen_nonneg b'). repeat split; auto; lia.
Qed.

Lemma In_cons_line c (b : bytes) : c <> LF -> ~ In LF b -> ~ In LF (c :: b).
Proof. intros Hc Hb [H | H]; [congruence | contradiction]. Qed.

Lemma iter_status (b rest : bytes) :
  ~ In LF b ->
  iter zeroState (("+"%char :: b) ++ CRLF ++ rest) =
  Done (Next [dataPayload (StatusReply (to_string b))] zeroState rest).
Proof.
  intros Hb. unfold iter.
  rewrite readLine_line by (first [reflexivity | apply In_cons_line; [discriminate | exact Hb]]).
  cbn [bind readingMultiLine zeroState negb]. cbn [app]. rewrite index_0. cbn [must bind].
  change (Ascii.eqb "+" "*") with false. change (Ascii.eqb "+" "$") with false. cbv iota.
  unfold parseSingleLineReply.
  change ("+"%char :: b ++ CRLF) with (("+"%char :: b) ++ CRLF).
  rewrite TrimSuffix_CRLF. cbn [app]. rewrite index_0. cbn [must bind].
  change (Ascii.eqb "+" "+") with true. cbv iota.
  rewrite slice_from_1. reflexivity.
Qed.

Lemma iter_error (b rest : bytes) :
  ~ In LF b ->
  iter zeroState (("-"%char :: b) ++ CRLF ++ rest) =
  Done (Next [dataPayload (StandardErrReply (to_string b))] zeroState rest).
Proof.
  intros Hb. unfold iter.
  rewrite readLine_line by (first [reflexivity | apply In_cons_line; [discriminate | exact Hb]]).
  cbn [bind readingMultiLine zeroState negb]. cbn [app]. rewrite index_0. cbn [must bind].
  change (Ascii.eqb "-" "*") with false. change (Ascii.eqb "-" "$") with false. cbv iota.
  unfold parseSingleLineReply.
  change ("-"%char :: b ++ CRLF) with (("-"%char :: b) ++ CRLF).
  rewrite TrimSuffix_CRLF. cbn [app]. rewrite index_0. cbn [must bind].
  change (Ascii.eqb "-" "+") with false. change (Ascii.eqb "-" "-") with true. cbv iota.
  rewrite slice_from_1. reflexivity.
Qed.

Lemma iter_int n (rest : bytes) :
  int64_range n ->
  iter zeroState ((":"%char :: strconv.FormatInt n) ++ CRLF ++ rest) =
  Done (Next [dataPayload (IntReply n)] zeroState rest).
Proof.
  intros Hn. unfold iter.
  rewrite readLine_line
    by (first [reflexivity | apply In_cons_line; [discriminate | apply FormatInt_no_LF]]).
  cbn [bind readingMultiLine zeroState negb]. cbn [app]. rewrite index_0. cbn [must bind].
  change (Ascii.eqb ":" "*") with false. change (Ascii.eqb ":" "$") with false. cbv iota.
  unfold parseSingleLineReply.
  change (":"%char :: strconv.FormatInt n ++ CRLF) with ((":"%char :: strconv.FormatInt n) ++ CRLF).
  rewrite TrimSuffix_CRLF. cbn [app]. rewrite index_0. cbn [must bind].
  change (Ascii.eqb ":" "+") with false. change (Ascii.eqb ":" "-") with false.
  change (Ascii.eqb ":" ":") with true. cbv iota.
  rewrite slice_from_1. cbn [must bind]. rewrite ParseInt_FormatInt by exact Hn.
  reflexivity.
Qed.

Lemma iter_null_bulk (rest : bytes) :
  iter zeroState (to_bytes "$-1" ++ CRLF ++ rest) =
  Done (Next [dataPayload NullBulkReply] zeroState rest).
Proof.
  unfold iter. rewrite readLine_line; [reflexivity | reflexivity |].
  intros H. repeat (destruct H as [H | H]; [discriminate |]). exact H.
Qed.

Lemma iter_empty_multi_bulk (rest : bytes) :
  iter zeroState (to_bytes "*0" ++ CRLF ++ rest) =
  Done (Next [dataPayload EmptyMultiBulkReply] zeroState rest).
Proof.
  unfold iter. rewrite readLine_line; [reflexivity | reflexivity |].
  intros H. repeat (destruct H as [H | H]; [discriminate |]). exact H.
Qed.

Lemma iter_multi_header count (rest : bytes) :
  0 < count < 2 ^ 32 ->
  iter zeroState (("*"%char :: strconv.FormatInt count) ++ CRLF ++ rest) =
  Done (Next [] (collecting "*" count [] 0) rest).
Proof.
  intros Hc. unfold iter.
  rewrite readLine_line
    by (first [reflexivity | apply In_cons_line; [discriminate | apply FormatInt_no_LF]]).
  cbn [bind readingMultiLine zeroState negb]. cbn [app]. rewrite index_0. cbn [must bind].
  change (Ascii.eqb "*" "*") with true. cbv iota.
  unfold parseMultiBulkHeader.
  change ("*"%char :: strconv.FormatInt count ++ CRLF)
    with (("*"%char :: strconv.FormatInt count) ++ CRLF).
  rewrite slice_line. cbn [must bind]. rewrite ParseUint_FormatInt by lia.
  cbn [negb]. cbn [app]. rewrite index_0. cbn [must bind].
  destruct (count =? 0) eqn:E0; [apply Z.eqb_eq in E0; lia |].
  destruct (0 <? count) eqn:E1; [| apply Z.ltb_ge in E1; lia].
  cbn [bind expectedArgsCount]. rewrite E0. reflexivity.
Qed.

Lemma iter_bulk_header (b rest : bytes) :
  0 < blen b < 2 ^ 63 ->
  iter zeroState (("$"%char :: strconv.FormatInt (blen b)) ++ CRLF ++ rest) =
  Done (Next [] (collecting "$" 1 [] (blen b)) rest).
Proof.
  intros Hc. unfold iter.
  rewrite readLine_line
    by (first [reflexivity | apply In_cons_line; [discriminate | apply FormatInt_no_LF]]).
  cbn [bind readingMultiLine zeroState negb]. cbn [app]. rewrite index_0. cbn [must bind].
  change (Ascii.eqb "$" "*") with false. change (Ascii.eqb "$" "$") with true. cbv iota.
  unfold parseBulkHeader.
  change ("$"%char :: strconv.FormatInt (blen b) ++ CRLF)
    with (("$"%char :: strconv.FormatInt (blen b)) ++ CRLF).
  rewrite slice_line. cbn [must bind].
  rewrite ParseInt_FormatInt by (unfold int64_range; lia).
  cbn [negb bulkLen set_bulkLen]. cbn [app]. rewrite index_0. cbn [must bind].
  destruct (blen b =? -1) eqn:E0; [apply Z.eqb_eq in E0; lia |].
  destruct (0 <? blen b) eqn:E1; [| apply Z.ltb_ge in E1; lia].
  cbn [bind bulkLen]. rewrite E0. reflexivity.
Qed.

Lemma iter_item_header ty count acc (b rest : bytes) :
  0 < blen b < 2 ^ 63 -> Z.of_nat (length acc) < count ->
  iter (collecting ty count acc 0) (("$"%char :: strconv.FormatInt (blen b)) ++ CRLF ++ rest) =
  Done (Next [] (collecting ty count acc (blen b)) rest).
Proof.
  intros Hc Hacc. unfold iter.
  rewrite readLine_line
    by (first [reflexivity | apply In_cons_line; [discriminate | apply FormatInt_no_LF]]).
  cbn [bind readingMultiLine collecting negb].
  unfold readBody. rewrite slice_body. cbn [must bind]. rewrite index_0. cbn [must bind].
  change (Ascii.eqb "$" "$") with true. cbv iota.
  rewrite slice_from_1. cbn [must bind].
  rewrite ParseInt_FormatInt by (unfold int64_range; lia).
  cbn [negb bulkLen set_bulkLen].
  destruct (blen b <=? 0) eqn:E0; [apply Z.leb_le in E0; lia |].
  cbn [bind]. unfold finished. unfold set_bulkLen, collecting.
  cbn [expectedArgsCount args readingMultiLine msgType bulkLen].
  destruct (Z.of_nat (length acc) =? count) eqn:Ef; [apply Z.eqb_eq in Ef; lia |].
  rewrite andb_false_r. reflexivity.
Qed.

Lemma iter_item_body ty count acc (b rest : bytes) :
  payload_ok b = true ->
  iter (collecting ty count acc (blen b)) (b ++ CRLF ++ rest) =
  if finished (collecting ty count (acc ++ [b]) 0)
  then
    let* result :=
      if Ascii.eqb ty "*" then Done (Some (MakeMultiBulkReply (acc ++ [b])))
      else if Ascii.eqb ty "$"
           then let* a0 := must (nth_error (acc ++ [b]) 0) in Done (Some (MakeBulkReply a0))
           else Done None in
    Done (Next [{| Data := result; Err := None |}] zeroState rest)
  else Done (Next [] (collecting ty count (acc ++ [b]) 0) rest).
Proof.
  intros Hb. destruct (payload_ok_inv b Hb) as (c & b' & Hcb & Hc & Hpos & Hmax).
  unfold iter. rewrite readLine_bulk by (first [reflexivity | lia]).
  cbn [bind readingMultiLine collecting set_bulkLen negb].
  unfold readBody. rewrite slice_body. cbn [must bind].
  rewrite Hcb at 1. rewrite index_0. cbn [must bind]. rewrite Hc.
  cbn [bind]. unfold set_args. cbn [expectedArgsCount args readingMultiLine msgType bulkLen].
  reflexivity.
Qed.

Lemma finished_collecting ty count acc :
  finished (collecting ty count acc 0) = (0 <? count) && (Z.of_nat (length acc) =? count).
Proof. reflexivity. Qed.

Lemma iter_item_more ty count acc (b rest : bytes) :
  payload_ok b = true -> Z.of_nat (length acc) + 1 < count ->
  iter (collecting ty count acc (blen b)) (b ++ CRLF ++ rest) =
  Done (Next [] (collecting ty count (acc ++ [b]) 0) rest).
Proof.
  intros Hb Hc. rewrite iter_item_body by exact Hb. rewrite finished_collecting.
  rewrite length_app. cbn [length].
  replace (Z.of_nat (length acc + 1) =? count) with false by (symmetry; apply Z.eqb_neq; lia).
  rewrite andb_false_r. reflexivity.
Qed.

Lemma iter_item_last count acc (b rest : bytes) :
  payload_ok b = true -> Z.of_nat (length acc) + 1 = count ->
  iter (collecting "*" count acc (blen b)) (b ++ CRLF ++ rest) =
  Done (Next [dataPayload (MultiBulkReply (acc ++ [b]))] zeroState rest).
Proof.
  intros Hb Hc. rewrite iter_item_body by exact Hb. rewrite finished_collecting.
  rewrite length_app. cbn [length].
  replace (Z.of_nat (length acc + 1) =? count) with true by (symmetry; apply Z.eqb_eq; lia).
  replace (0 <? count) with true by (symmetry; apply Z.ltb_lt; lia).
  reflexivity.
Qed.

Lemma iter_bulk_body (b rest : bytes) :
  payload_ok b = true ->
  iter (collecting "$" 1 [] (blen b)) (b ++ CRLF ++ rest) =
  Done (Next [dataPayload (BulkReply b)] zeroState rest).
Proof. intros Hb. rewrite iter_item_body by exact Hb. reflexivity. Qed.

(** ** Whole messages *)

Lemma run_next st r sent st' r' :
  state_ok st -> iter st r = Done (Next sent st' r') ->
  run st r = match run st' r' with
             | Some (ps, e) => Some (sent ++ ps, e)
             | None => None
             end.
Proof. intros Hok Hi. rewrite run_unfold by exact Hok. rewrite Hi. reflexivity. Qed.

Lemma run_skip st r st' r' :
  state_ok st -> iter st r = Done (Next [] st' r') -> run st r = run st' r'.
Proof.
  intros Hok Hi. rewrite (run_next _ _ _ _ _ Hok Hi).
  destruct (run st' r') as [[ps e] |]; reflexivity.
Qed.

Lemma run_emit st r p r' :
  state_ok st -> iter st r = Done (Next [p] zeroState r') ->
  run st r = sent_then p (run zeroState r').
Proof. intros Hok Hi. rewrite (run_next _ _ _ _ _ Hok Hi). reflexivity. Qed.

Lemma collecting_ok ty count acc pending :
  0 <= pending < 2 ^ 63 -> state_ok (collecting ty count acc pending).
Proof. intros H. exact H. Qed.

Lemma run_eof : run zeroState [] = Some ([errPayload io_EOF], Closed).
Proof. reflexivity. Qed.

Lemma bulk_bytes_app (b tail : bytes) :
  bulk_bytes b ++ tail =
  ("$"%char :: strconv.FormatInt (blen b)) ++ CRLF ++ (b ++ CRLF ++ tail).
Proof.
  unfold bulk_bytes. cbn [app]. f_equal. rewrite <- !app_assoc. reflexivity.
Qed.

(** The items of an array, read one after the other. *)
Lemma run_items items : forall acc count rest,
  forallb payload_ok items = true -> items <> [] ->
  Z.of_nat (length acc + length items) = count ->
  run (collecting "*" count acc 0) (concat (map bulk_bytes items) ++ rest) =
  sent_then (dataPayload (MultiBulkReply (acc ++ items))) (run zeroState rest).
Proof.
  induction items as [| b items IH]; intros acc count rest Hall Hne Hcount; [congruence |].
  cbn [forallb] in Hall. apply andb_prop in Hall as [Hb Hall].
  destruct (payload_ok_inv b Hb) as (c & b' & Hcb & Hc & Hpos & Hmax).
  cbn [map concat length] in *. rewrite <- app_assoc, bulk_bytes_app.
  erewrite run_skip; [| apply collecting_ok; lia | apply iter_item_header; lia].
  destruct items as [| b2 items'].
  - cbn [length] in Hcount.
    erewrite run_emit; [reflexivity | apply collecting_ok; lia |].
    cbn [map concat app]. apply iter_item_last; [exact Hb | lia].
  - cbn [length] in Hcount.
    erewrite run_skip; [| apply collecting_ok; lia | apply iter_item_more; [exact Hb | lia]].
    rewrite (IH (acc ++ [b]) count rest Hall ltac:(discriminate)).
    + rewrite <- app_assoc. reflexivity.
    + rewrite length_app. cbn [length]. lia.
Qed.

(** The parser reads one serialized reply and starts afresh on what follows. *)
Lemma run_reply r rest :
  wire_safe r = true ->
  run zeroState (ToBytes r ++ rest) = sent_then (dataPayload r) (run zeroState rest).
Proof.
  intros Hsafe. destruct r as [s | s | n | b | items | | | |]; cbn [wire_safe] in Hsafe;
    try discriminate.
  - cbn [ToBytes]. apply no_LF_In in Hsafe.
    replace (("+"%char :: to_bytes s ++ CRLF) ++ rest)
      with (("+"%char :: to_bytes s) ++ CRLF ++ rest)
      by (cbn [app]; rewrite <- app_assoc; reflexivity).
    erewrite run_emit; [| apply zeroState_ok | apply iter_status, Hsafe].
    unfold to_string, to_bytes. rewrite string_of_list_ascii_of_string. reflexivity.
  - cbn [ToBytes]. apply no_LF_In in Hsafe.
    replace (("-"%char :: to_bytes s ++ CRLF) ++ rest)
      with (("-"%char :: to_bytes s) ++ CRLF ++ rest)
      by (cbn [app]; rewrite <- app_assoc; reflexivity).
    erewrite run_emit; [| apply zeroState_ok | apply iter_error, Hsafe].
    unfold to_string, to_bytes. rewrite string_of_list_ascii_of_string. reflexivity.
  - cbn [ToBytes]. apply andb_prop in Hsafe as [H1 H2].
    apply Z.leb_le in H1. apply Z.ltb_lt in H2.
    replace ((":"%char :: strconv.FormatInt n ++ CRLF) ++ rest)
      with ((":"%char :: strconv.FormatInt n) ++ CRLF ++ rest)
      by (cbn [app]; rewrite <- app_assoc; reflexivity).
    erewrite run_emit; [reflexivity | apply zeroState_ok |].
    apply iter_int. unfold int64_range. lia.
  - cbn [ToBytes]. rewrite bulk_bytes_app.
    destruct (payload_ok_inv b Hsafe) as (c & b' & Hcb & Hc & Hpos & Hmax).
    erewrite run_skip; [| apply zeroState_ok | apply iter_bulk_header; lia].
    erewrite run_emit; [reflexivity | apply collecting_ok; lia |].
    apply iter_bulk_body, Hsafe.
  - cbn [ToBytes]. apply andb_prop in Hsafe as [H12 Hall]. apply andb_prop in H12 as [H1 H2].
    apply Z.ltb_lt in H1. apply Z.ltb_lt in H2.
    replace (("*"%char :: strconv.FormatInt (Z.of_nat (length items)) ++ CRLF
                ++ concat (map bulk_bytes items)) ++ rest)
      with (("*"%char :: strconv.FormatInt (Z.of_nat (length items))) ++ CRLF
                ++ (concat (map bulk_bytes items) ++ rest)).
    2:{ cbn [app]. f_equal. rewrite <- !app_assoc. reflexivity. }
    erewrite run_skip; [| apply zeroState_ok | apply iter_multi_header; lia].
    rewrite (run_items items [] _ rest Hall); [reflexivity | | reflexivity].
    intros ->. cbn [length] in H1. lia.
  - cbn [ToBytes]. rewrite <- app_assoc.
    erewrite run_emit; [reflexivity | apply zeroState_ok | apply iter_null_bulk].
  - cbn [ToBytes]. rewrite <- app_assoc.
    erewrite run_emit; [reflexivity | apply zeroState_ok | apply iter_empty_multi_bulk].
Qed.

Lemma parse0_reply r :
  wire_safe r = true ->
  parse0 (ToBytes r) = Some ([dataPayload r; errPayload io_EOF], Closed).
Proof.
  intros Hsafe. change (parse0 (ToBytes r)) with (run zeroState (ToBytes r)).
  rewrite <- (app_nil_r (ToBytes r)). rewrite (run_reply r [] Hsafe), run_eof.
  reflexivity.
Qed.

(** [parse0] never runs out of iterations. *)
Lemma parse0_total (r : bytes) : exists ps e, parse0 r = Some (ps, e).
Proof.
  unfold parse0.
  destruct (loop_fuel (S (length r)) (S (length r)) zeroState r zeroState_ok) as [_ Hne];
    [lia | lia |].
  destruct (loop (S (length r)) zeroState r) as [[ps e] |]; [eauto | congruence].
Qed.

End Framing.

(** ** The keyspace primitives *)

Section Keyspace.
Import database.

Lemma GetEntity_live db now key :
  live db now key ->
  exists entity, GetEntity db now key = (Some entity, db) /\ data db !! key = Some entity.
Proof.
  intros (entity & Hd & Ht). exists entity. split; [| exact Hd].
  unfold GetEntity. rewrite Hd. destruct (ttlMap db !! key) as [t |] eqn:E; [| reflexivity].
  specialize (Ht t eq_refl). destruct (t <=? now) eqn:E2; [apply Z.leb_le in E2; lia |].
  reflexivity.
Qed.

Lemma GetEntity_present db now key entity db' :
  GetEntity db now key = (Some entity, db') -> db' = db /\ live db now key.
Proof.
  unfold GetEntity, live. destruct (data db !! key) as [e |] eqn:Hd; [| discriminate].
  destruct (ttlMap db !! key) as [t |] eqn:Ht.
  - destruct (t <=? now) eqn:E; [discriminate |]. apply Z.leb_gt in E.
    intros H. injection H as <- <-. split; [reflexivity |].
    exists e. split; [reflexivity |]. intros t' Ht'. injection Ht' as <-. exact E.
  - intros H. injection H as <- <-. split; [reflexivity |].
    exists e. split; [reflexivity | discriminate].
Qed.

Lemma GetEntity_absent db now key db' :
  GetEntity db now key = (None, db') ->
  ~ live db now key /\ aofLog db' = aofLog db /\
  ttlMap db' ⊆ ttlMap db /\ data db' ⊆ data db /\ data db' !! key = None /\
  (no_orphan_ttl db -> no_orphan_ttl db').
Proof.
  unfold GetEntity, live. destruct (data db !! key) as [e |] eqn:Hd.
  - destruct (ttlMap db !! key) as [t |] eqn:Ht; [| discriminate].
    destruct (t <=? now) eqn:E; [| discriminate]. apply Z.leb_le in E.
    intros H. injection H as <-. cbn [Remove data ttlMap aofLog].
    split; [| split; [reflexivity | split; [apply delete_subseteq | split;
      [apply delete_subseteq | split; [apply lookup_delete_eq |]]]]].
    + intros (e' & _ & Hlt). specialize (Hlt t eq_refl). lia.
    + intros Hinv k [t' Hk]. cbn [Remove data ttlMap] in *.
      destruct (decide (key = k)) as [-> | Hne].
      * rewrite lookup_delete_eq in Hk. discriminate.
      * rewrite lookup_delete_ne in Hk by exact Hne. rewrite lookup_delete_ne by exact Hne.
        apply Hinv. eauto.
  - intros H. injection H as <-.
    split; [| split; [reflexivity | split; [reflexivity | split; [reflexivity | split;
      [exact Hd | auto]]]]].
    intros (e' & He' & _). congruence.
Qed.

Lemma Removes_spec keys : forall db n db',
  Removes db keys = (n, db') ->
  0 <= n /\ aofLog db' = aofLog db /\ (n = 0 -> db' = db) /\
  (no_orphan_ttl db -> no_orphan_ttl db').
Proof.
  induction keys as [| key keys IH]; intros db n db' H; cbn [Removes] in H.
  - injection H as <- <-. repeat split; auto; lia.
  - destruct (data db !! key) as [e |] eqn:Hd.
    + destruct (Removes (Remove db key) keys) as [m db1] eqn:ER.
      injection H as <- <-. destruct (IH _ _ _ ER) as (H0 & Haof & _ & Hinv).
      split; [lia |]. split; [rewrite Haof; reflexivity |]. split; [lia |].
      intros Hno. apply Hinv. intros k [t Hk]. cbn [Remove data ttlMap] in *.
      destruct (decide (key = k)) as [-> | Hne].
      * rewrite lookup_delete_eq in Hk. discriminate.
      * rewrite lookup_delete_ne in Hk by exact Hne. rewrite lookup_delete_ne by exact Hne.
        apply Hno. eauto.
    + apply IH in H. exact H.
Qed.

Lemma arity_exact n (args : list bytes) :
  0 <= n -> validateArity n args = true -> Z.of_nat (length args) = n - 1.
Proof.
  unfold validateArity. intros Hn. destruct (0 <=? n) eqn:E; [| apply Z.leb_gt in E; lia].
  intros H. apply Z.eqb_eq in H. lia.
Qed.

Lemma arity_two_args (args : list bytes) :
  validateArity 3 args = true -> exists a b, args = [a; b].
Proof.
  intros H. apply arity_exact in H; [| lia].
  destruct args as [| a [| b [| c args]]]; cbn [length] in H; try lia. eauto.
Qed.

Lemma arity_one_arg (args : list bytes) :
  validateArity 2 args = true -> exists a, args = [a].
Proof.
  intros H. apply arity_exact in H; [| lia].
  destruct args as [| a [| b args]]; cbn [length] in H; try lia. eauto.
Qed.

End Keyspace.

(** ** The codec claims *)

Section Codec.
Import parser.

Example parse0_malformed_header :
  parse0 (crlf "*x") =
  Some ([errPayload (protocol_error (crlf "*x")); errPayload io_EOF], Closed).
Proof. vm_compute. reflexivity. Qed.

(** C1, as stated, fails: the error reply the server itself sends for the
    malformed header [*x] carries the offending line with its CRLF, so its
    serialization is two lines; parsing it yields an error reply with a
    shorter text followed by a one-argument array, not the reply again. *)
Lemma C1_roundtrip_counterexample :
  ParseBytes (ToBytes malformed_header_reply) =
    Some (Returns ([Some (StandardErrReply "protocol error: *x");
                    Some (MultiBulkReply [[]])], None))
  /\ ParseBytes (ToBytes malformed_header_reply) <>
       Some (Returns ([Some malformed_header_reply], None))
  /\ ParseOne (ToBytes malformed_header_reply) <>
       Some (Returns (Some malformed_header_reply, None)).
Proof.
  split; [vm_compute; reflexivity |].
  split; vm_compute; intros H; discriminate H.
Qed.

(** C1, amended: for every reply that is a status or an error without a
    line feed in its text, a 64-bit integer, a bulk string with a payload
    as in [payload_ok], the null bulk, the empty array, or an array of one
    to [2^32 - 1] such payloads, parsing the serialization yields exactly
    that reply, through [ParseBytes] and through [ParseOne]. *)
Theorem C1_roundtrip_wire_safe (r : Reply) :
  wire_safe r = true ->
  ParseBytes (ToBytes r) = Some (Returns ([Some r], None)) /\
  ParseOne (ToBytes r) = Some (Returns (Some r, None)).
Proof.
  intros Hsafe. unfold ParseBytes, ParseOne.
  rewrite (parse0_reply r Hsafe). split; reflexivity.
Qed.

Lemma C1_roundtrip_wire_safe_witness :
  wire_safe (MultiBulkReply [to_bytes "SET"; to_bytes "k"; to_bytes "v"]) = true /\
  (ParseBytes (ToBytes (MultiBulkReply [to_bytes "SET"; to_bytes "k"; to_bytes "v"])) =
     Some (Returns ([Some (MultiBulkReply [to_bytes "SET"; to_bytes "k"; to_bytes "v"])], None)) /\
   ParseOne (ToBytes (MultiBulkReply [to_bytes "SET"; to_bytes "k"; to_bytes "v"])) =
     Some (Returns (Some (MultiBulkReply [to_bytes "SET"; to_bytes "k"; to_bytes "v"]), None))).
Proof.
  split; [reflexivity |].
  apply (C1_roundtrip_wire_safe (MultiBulkReply [to_bytes "SET"; to_bytes "k"; to_bytes "v"])).
  reflexivity.
Defined.

(** Replies one after the other on the wire are read one after the other. *)
Lemma parse0_replies (rs : list Reply) :
  forallb wire_safe rs = true ->
  parse0 (concat (map ToBytes rs)) =
  Some (map dataPayload rs ++ [errPayload io_EOF], Closed).
Proof.
  change (parse0 (concat (map ToBytes rs))) with (run zeroState (concat (map ToBytes rs))).
  induction rs as [| r rs IH]; intros Hall.
  - reflexivity.
  - cbn [forallb] in Hall. apply andb_prop in Hall as [Hr Hrs].
    cbn [map concat]. rewrite (run_reply r _ Hr), (IH Hrs). reflexivity.
Qed.

(** C2: the array [*1 CRLF $2 CRLF $5 CRLF], whose one argument is the two
    bytes [$5], is the serialization of a one-argument array; the parser
    takes the payload for a bulk header, waits for five more bytes and ends
    with [io.EOF] without having sent any reply.  [readLine] documents the
    bulk line as binary safe; [readBody] looks at its first byte. *)
Theorem C2_dollar_payload_misparsed :
  ToBytes (MultiBulkReply [to_bytes "$5"]) = crlf "*1" ++ crlf "$2" ++ crlf "$5" /\
  parse0 (crlf "*1" ++ crlf "$2" ++ crlf "$5") = Some ([errPayload io_EOF], Closed) /\
  ParseBytes (crlf "*1" ++ crlf "$2" ++ crlf "$5") = Some (Returns ([], None)).
Proof. repeat split; vm_compute; reflexivity. Qed.

(** The same message with a payload that does not start with a dollar sign. *)
Example C2_plain_payload_parsed :
  parse0 (crlf "*1" ++ crlf "$2" ++ crlf "x5") =
  Some ([dataPayload (MultiBulkReply [to_bytes "x5"]); errPayload io_EOF], Closed).
Proof. vm_compute. reflexivity. Qed.

(** C6: the empty bulk string [$0 CRLF CRLF] is answered with a protocol
    error for its header, and its payload line is then read as an inline
    command with one empty argument. *)
Theorem C6_zero_length_bulk_rejected :
  ToBytes (BulkReply []) = crlf "$0" ++ CRLF /\
  parse0 (crlf "$0" ++ CRLF) =
    Some ([errPayload (protocol_error (crlf "$0"));
           dataPayload (MultiBulkReply [[]]);
           errPayload io_EOF], Closed).
Proof. split; vm_compute; reflexivity. Qed.

(** The sibling path: inside an array [readBody] takes the header [$0] for
    an empty argument. *)
Example zero_length_header_in_array :
  readBody (crlf "$0") (collecting "*" 1 [] 0) =
  Done (None, collecting "*" 1 [[]] 0).
Proof. vm_compute. reflexivity. Qed.

(** C10: on the line that is a lone line feed [readLine] indexes the
    buffer at -1 and panics; [parse0] recovers, sends nothing and leaves the
    channel open, so [ParseBytes] blocks. *)
Theorem C10_lone_line_feed_panics :
  index [LF] (blen [LF] - 2) = None /\
  readLine [LF] zeroState = Panic /\
  parse0 [LF] = Some ([], LeftOpen) /\
  ParseBytes [LF] = Some Blocks.
Proof. repeat split; vm_compute; reflexivity. Qed.

(** A line feed preceded by another byte than a carriage return is the
    protocol error the guard is written for. *)
Example line_feed_without_CR :
  parse0 (to_bytes "a" ++ [LF]) =
  Some ([errPayload (protocol_error (to_bytes "a" ++ [LF])); errPayload io_EOF], Closed).
Proof. vm_compute. reflexivity. Qed.

End Codec.

(** ** The keyspace claims *)

Section Commands.
Import database.

(** C3: RENAME of a key onto itself answers OK and deletes the key: the
    entity is put at the destination and the source, the same key, is
    removed right after. *)
Theorem C3_rename_same_key_deletes_it :
  live db_a 0 "a" /\
  execRename db_a 0 [to_bytes "a"; to_bytes "a"] =
    Done (OkReply,
          {| data := ∅; ttlMap := ∅;
             aofLog := [[to_bytes "rename"; to_bytes "a"; to_bytes "a"]] |}).
Proof.
  split.
  - exists (entity_of "1"). split; [reflexivity | intros t H; discriminate H].
  - vm_compute. reflexivity.
Qed.

(** X22.  With two different keys RENAME does what C3 says: the
    destination holds the source's entity, the source is gone with its TTL,
    a TTL of the source is carried over, and one record is logged. *)
Lemma execRename_distinct db now src dst entity :
  to_string src <> to_string dst ->
  data db !! to_string src = Some entity ->
  (forall t, ttlMap db !! to_string src = Some t -> now < t) ->
  exists db',
    execRename db now [src; dst] = Done (OkReply, db') /\
    data db' !! to_string dst = Some entity /\
    data db' !! to_string src = None /\
    ttlMap db' !! to_string src = None /\
    (forall t, ttlMap db !! to_string src = Some t -> ttlMap db' !! to_string dst = Some t) /\
    aofLog db' = aofLog db ++ [ToCmdLine3 "rename" [src; dst]].
Proof.
  intros Hne Hd Ht.
  destruct (GetEntity_live db now (to_string src)) as (e & HG & He); [exists entity; auto |].
  assert (e = entity) by congruence. subst e.
  unfold execRename. cbn [length Nat.eqb negb arg nth_error must bind]. rewrite HG.
  destruct (ttlMap db !! to_string src) as [t |] eqn:Ettl.
  - eexists. split; [reflexivity |].
    cbn [addAof Expire Persist Remove PutEntity set_data set_ttlMap data ttlMap aofLog].
    repeat split.
    + rewrite lookup_delete_ne by exact Hne. apply lookup_insert_eq.
    + apply lookup_delete_eq.
    + rewrite lookup_insert_ne by congruence. rewrite lookup_delete_ne by congruence.
      rewrite lookup_delete_eq. reflexivity.
    + intros t' Ht'. injection Ht' as <-. apply lookup_insert_eq.
  - eexists. split; [reflexivity |].
    cbn [addAof Expire Persist Remove PutEntity set_data set_ttlMap data ttlMap aofLog].
    repeat split.
    + rewrite lookup_delete_ne by exact Hne. apply lookup_insert_eq.
    + apply lookup_delete_eq.
    + apply lookup_delete_eq.
    + intros t' Ht'. discriminate Ht'.
Qed.

Lemma execRename_absent db now src dst :
  ~ live db now (to_string src) ->
  exists db', execRename db now [src; dst] = Done (MakeErrReply "no such key", db').
Proof.
  intros Hn. unfold execRename. cbn [length Nat.eqb negb arg nth_error must bind].
  destruct (GetEntity db now (to_string src)) as [[e |] db1] eqn:HG.
  - apply GetEntity_present in HG as [_ Hl]. contradiction.
  - eauto.
Qed.

(** C4: RENAME of a key with an expiration onto itself leaves the
    expiration behind for a key that is no longer stored. *)
Theorem C4_rename_same_key_orphans_ttl :
  no_orphan_ttl db_a_ttl /\
  execRename db_a_ttl 50 [to_bytes "a"; to_bytes "a"] =
    Done (OkReply,
          {| data := ∅; ttlMap := {[ "a"%string := 100 ]};
             aofLog := [[to_bytes "rename"; to_bytes "a"; to_bytes "a"]] |}) /\
  ~ no_orphan_ttl
      {| data := ∅; ttlMap := {[ "a"%string := 100 ]};
         aofLog := [[to_bytes "rename"; to_bytes "a"; to_bytes "a"]] |}.
Proof.
  split; [| split].
  - intros key [t Hk]. cbn [db_a_ttl ttlMap data] in *.
    destruct (decide (key = "a"%string)) as [-> | Hne].
    + rewrite lookup_singleton_eq. eauto.
    + rewrite lookup_singleton_ne in Hk by congruence. discriminate.
  - vm_compute. reflexivity.
  - intros H. specialize (H "a"%string). cbn [ttlMap data] in H.
    rewrite lookup_singleton_eq, lookup_empty in H.
    destruct H as [e He]; [eauto | discriminate].
Qed.

(** C5: [execKeys] walks the stored keys without looking at their
    expiration: at instant 150 the key that expired at 100 is listed by KEYS
    while EXISTS, which goes through [GetEntity], counts none. *)
Theorem C5_keys_lists_expired_key :
  execKeys db_a_ttl 150 [to_bytes "*"] = Done (MultiBulkReply [to_bytes "a"], db_a_ttl) /\
  execExists db_a_ttl 150 [to_bytes "a"] = Done (IntReply 0, db_empty).
Proof. split; vm_compute; reflexivity. Qed.

(** What EXPIRE does on seconds whose nanoseconds fit a [time.Duration]:
    it answers the error "ERR value is not an integer or out of range" and
    changes nothing when s is not a 64-bit integer; when it is and k is not
    live it answers 0 and sets no expiration; when it is, k is live and s
    times 10^9 is a 64-bit number, it answers 1, keeps the stored keys and
    sets the expiration of k to now plus s seconds. *)
Lemma execExpire_in_range db now (k s : bytes) :
  (snd (strconv.ParseInt s 64) = false ->
   execExpire db now [k; s] =
     Done (MakeErrReply "ERR value is not an integer or out of range", db)) /\
  (forall n, strconv.ParseInt s 64 = (n, true) ->
     (~ live db now (to_string k) ->
      exists db', execExpire db now [k; s] = Done (MakeIntReply 0, db') /\
                  ttlMap db' ⊆ ttlMap db /\ aofLog db' = aofLog db) /\
     (live db now (to_string k) -> int64_range (n * Second) ->
      exists db', execExpire db now [k; s] = Done (MakeIntReply 1, db') /\
                  data db' = data db /\
                  ttlMap db' !! to_string k = Some (now + n * Second))).
Proof.
  unfold execExpire, execExpireWith. cbn [arg nth_error must bind].
  destruct (strconv.ParseInt s 64) as [raw ok] eqn:EP. split.
  - cbn [snd]. intros ->. reflexivity.
  - intros n Hn. injection Hn as -> ->. cbn [negb]. split.
    + intros Hnl. destruct (GetEntity db now (to_string k)) as [[e |] db1] eqn:HG.
      * apply GetEntity_present in HG as [_ Hl]. contradiction.
      * apply GetEntity_absent in HG as (_ & Haof & Hsub & _). eauto.
    + intros Hl Hr. destruct (GetEntity_live _ _ _ Hl) as (e & HG & _). rewrite HG.
      eexists. split; [reflexivity |].
      cbn [addAof Expire set_ttlMap data ttlMap]. split; [reflexivity |].
      rewrite wrap64_small by exact Hr. apply lookup_insert_eq.
Qed.

(** C7: [execExpire] multiplies the seconds by [time.Second] in the 64-bit
    nanoseconds of a [time.Duration].  [9223372037] is a 64-bit integer, so
    the check behind "ERR value is not an integer or out of range" lets it
    through, but the product wraps around: on the live key a, at instant 0,
    EXPIRE a 9223372037 answers 1 and sets the expiration about 292 years
    before now, not at now plus that many seconds, and the key is no longer
    live.  EXPIREAT, which hands its seconds to [time.Unix] without
    multiplying, sets the instant asked for on the same argument. *)
Theorem C7_expire_seconds_overflow :
  strconv.ParseInt (to_bytes "9223372037") 64 = (9223372037, true) /\
  live db_a 0 "a" /\
  (exists db',
     execExpire db_a 0 [to_bytes "a"; to_bytes "9223372037"] = Done (IntReply 1, db') /\
     ttlMap db' !! "a"%string = Some (- 9223372036709551616) /\
     ~ live db' 0 "a") /\
  - 9223372036709551616 <> 0 + 9223372037 * Second /\
  (exists db',
     execExpireAt db_a 0 [to_bytes "a"; to_bytes "9223372037"] = Done (IntReply 1, db') /\
     ttlMap db' !! "a"%string = Some (9223372037 * Second)).
Proof.
  split; [vm_compute; reflexivity |]. split.
  { exists (entity_of "1"). split; [reflexivity | intros t H; discriminate H]. }
  split; [| split; [vm_compute; discriminate |]].
  - eexists. split; [vm_compute; reflexivity |]. split; [vm_compute; reflexivity |].
    intros (e & _ & Ht). specialize (Ht (- 9223372036709551616)).
    assert (H : 0 < - 9223372036709551616) by (apply Ht; vm_compute; reflexivity).
    lia.
  - eexists. split; [vm_compute; reflexivity |]. vm_compute. reflexivity.
Qed.

(** C9: when the destination is live RENAMENX answers 0 and the keyspace,
    its expirations and the log are what they were. *)
Theorem C9_renamenx_destination_present db now (src dst : bytes) :
  live db now (to_string dst) ->
  execRenameNx db now [src; dst] = Done (MakeIntReply 0, db).
Proof.
  intros Hl. unfold execRenameNx. cbn [arg nth_error must bind].
  destruct (GetEntity_live _ _ _ Hl) as (e & HG & _). rewrite HG. reflexivity.
Qed.

Lemma C9_renamenx_destination_present_witness :
  live db_a_ttl 50 (to_string (to_bytes "a")) /\
  execRenameNx db_a_ttl 50 [to_bytes "b"; to_bytes "a"] = Done (MakeIntReply 0, db_a_ttl).
Proof.
  assert (Hl : live db_a_ttl 50 (to_string (to_bytes "a"))).
  { exists (entity_of "1"). split; [reflexivity |].
    intros t H. vm_compute in H. injection H as <-. reflexivity. }
  split; [exact Hl |].
  apply (C9_renamenx_destination_present db_a_ttl 50 (to_bytes "b") (to_bytes "a") Hl).
Defined.

(** *** The append-only log *)

Lemma GetEntity_aofLog db now key e db' :
  GetEntity db now key = (e, db') -> aofLog db' = aofLog db.
Proof.
  destruct e as [e |]; intros H.
  - apply GetEntity_present in H as [-> _]. reflexivity.
  - apply GetEntity_absent in H as (_ & H & _). exact H.
Qed.

Lemma execDel_aof db now args reply db' :
  execDel db now args = Done (reply, db') -> aof_rule reply db db'.
Proof.
  unfold execDel. destruct (Removes db (map to_string args)) as [n db1] eqn:ER.
  apply Removes_spec in ER as (Hn & Haof & _).
  intros H. injection H as <- <-. unfold aof_rule, MakeIntReply. cbn [is_error is_zero orb].
  destruct (0 <? n) eqn:E.
  - apply Z.ltb_lt in E. destruct (n =? 0) eqn:E0; [apply Z.eqb_eq in E0; lia |].
    eexists. cbn [addAof aofLog]. rewrite Haof. reflexivity.
  - apply Z.ltb_ge in E. replace (n =? 0) with true by (symmetry; apply Z.eqb_eq; lia).
    exact Haof.
Qed.

Lemma execFlushDB_aof db now args reply db' :
  execFlushDB db now args = Done (reply, db') -> aof_rule reply db db'.
Proof.
  unfold execFlushDB. intros H. injection H as <- <-. unfold aof_rule.
  cbn [is_error is_zero orb]. eexists. reflexivity.
Qed.

Lemma execExpireWith_aof f db now args reply db' :
  execExpireWith f db now args = Done (reply, db') -> aof_rule reply db db'.
Proof.
  unfold execExpireWith, arg.
  destruct (nth_error args 0) as [a0 |]; [| discriminate]. cbn [must bind].
  destruct (nth_error args 1) as [a1 |]; [| discriminate]. cbn [must bind].
  destruct (strconv.ParseInt a1 64) as [raw ok]. destruct ok; cbn [negb].
  2:{ intros H. injection H as <- <-. reflexivity. }
  destruct (GetEntity db now (to_string a0)) as [[e |] db1] eqn:HG;
    apply GetEntity_aofLog in HG; intros H; injection H as <- <-; unfold aof_rule;
    cbn [MakeIntReply is_error is_zero orb Z.eqb].
  - eexists. cbn [addAof Expire set_ttlMap aofLog]. rewrite HG. reflexivity.
  - exact HG.
Qed.

Lemma execPersist_aof db now args reply db' :
  execPersist db now args = Done (reply, db') -> aof_rule reply db db'.
Proof.
  unfold execPersist, arg.
  destruct (nth_error args 0) as [a0 |]; [| discriminate]. cbn [must bind].
  destruct (GetEntity db now (to_string a0)) as [[e |] db1] eqn:HG;
    apply GetEntity_aofLog in HG.
  - destruct (ttlMap db1 !! to_string a0); intros H; injection H as <- <-; unfold aof_rule;
      cbn [MakeIntReply is_error is_zero orb Z.eqb].
    + eexists. cbn [addAof Persist set_ttlMap aofLog]. rewrite HG. reflexivity.
    + exact HG.
  - intros H; injection H as <- <-. exact HG.
Qed.

Lemma execRename_aof db now args reply db' :
  execRename db now args = Done (reply, db') -> aof_rule reply db db'.
Proof.
  unfold execRename, arg. destruct (negb (length args =? 2)%nat).
  { intros H. injection H as <- <-. reflexivity. }
  destruct (nth_error args 0) as [a0 |]; [| discriminate]. cbn [must bind].
  destruct (nth_error args 1) as [a1 |]; [| discriminate]. cbn [must bind].
  destruct (GetEntity db now (to_string a0)) as [[e |] db1] eqn:HG;
    apply GetEntity_aofLog in HG; intros H; injection H as <- <-; unfold aof_rule;
    cbn [MakeErrReply is_error is_zero orb].
  - eexists. destruct (ttlMap db1 !! to_string a0);
      cbn [addAof Expire Persist Remove PutEntity set_data set_ttlMap aofLog];
      rewrite HG; reflexivity.
  - exact HG.
Qed.

Lemma execRenameNx_aof db now args reply db' :
  execRenameNx db now args = Done (reply, db') -> aof_rule reply db db'.
Proof.
  unfold execRenameNx, arg.
  destruct (nth_error args 0) as [a0 |]; [| discriminate]. cbn [must bind].
  destruct (nth_error args 1) as [a1 |]; [| discriminate]. cbn [must bind].
  destruct (GetEntity db now (to_string a1)) as [[e1 |] db1] eqn:HG1;
    apply GetEntity_aofLog in HG1.
  { intros H. injection H as <- <-. exact HG1. }
  destruct (GetEntity db1 now (to_string a0)) as [[e0 |] db2] eqn:HG0;
    apply GetEntity_aofLog in HG0.
  2:{ intros H. injection H as <- <-. unfold aof_rule. cbn [MakeErrReply is_error orb].
      congruence. }
  destruct (Removes db2 [to_string a0; to_string a1]) as [n db3] eqn:ER.
  apply Removes_spec in ER as (_ & Haof & _).
  intros H. injection H as <- <-. unfold aof_rule.
  cbn [MakeIntReply is_error is_zero orb Z.eqb].
  eexists. destruct (ttlMap db2 !! to_string a0);
    cbn [addAof Expire Persist PutEntity set_data set_ttlMap aofLog];
    rewrite Haof, HG0, HG1; reflexivity.
Qed.

(** With the arity of the registry checked, no executor panics. *)
Lemma keyspaceWrites_no_panic name exec arity db now args :
  In (name, exec, arity) keyspaceWrites -> validateArity arity args = true ->
  exists reply db', exec db now args = Done (reply, db').
Proof.
  intros Hin Harity. cbn [keyspaceWrites In] in Hin.
  repeat (destruct Hin as [Hin | Hin]; [injection Hin as <- <- <- |]); try contradiction.
  - unfold execDel. destruct (Removes db (map to_string args)) as [n db1]. eauto.
  - apply arity_two_args in Harity as (a & b & ->).
    unfold execExpire, execExpireWith. cbn [arg nth_error must bind].
    destruct (strconv.ParseInt b 64) as [raw []]; cbn [negb]; [| eauto].
    destruct (GetEntity db now (to_string a)) as [[e |] db1]; eauto.
  - apply arity_two_args in Harity as (a & b & ->).
    unfold execExpireAt, execExpireWith. cbn [arg nth_error must bind].
    destruct (strconv.ParseInt b 64) as [raw []]; cbn [negb]; [| eauto].
    destruct (GetEntity db now (to_string a)) as [[e |] db1]; eauto.
  - apply arity_two_args in Harity as (a & b & ->).
    unfold execPExpire, execExpireWith. cbn [arg nth_error must bind].
    destruct (strconv.ParseInt b 64) as [raw []]; cbn [negb]; [| eauto].
    destruct (GetEntity db now (to_string a)) as [[e |] db1]; eauto.
  - apply arity_two_args in Harity as (a & b & ->).
    unfold execPExpireAt, execExpireWith. cbn [arg nth_error must bind].
    destruct (strconv.ParseInt b 64) as [raw []]; cbn [negb]; [| eauto].
    destruct (GetEntity db now (to_string a)) as [[e |] db1]; eauto.
  - apply arity_one_arg in Harity as (a & ->).
    unfold execPersist. cbn [arg nth_error must bind].
    destruct (GetEntity db now (to_string a)) as [[e |] db1]; [| eauto].
    destruct (ttlMap db1 !! to_string a); eauto.
  - apply arity_two_args in Harity as (a & b & ->).
    unfold execRename. cbn [length Nat.eqb negb arg nth_error must bind].
    destruct (GetEntity db now (to_string a)) as [[e |] db1]; eauto.
  - apply arity_two_args in Harity as (a & b & ->).
    unfold execRenameNx. cbn [arg nth_error must bind].
    destruct (GetEntity db now (to_string b)) as [[e1 |] db1]; [eauto |].
    destruct (GetEntity db1 now (to_string a)) as [[e0 |] db2]; [| eauto].
    destruct (Removes db2 [to_string a; to_string b]) as [n db3]. eauto.
  - unfold execFlushDB. eauto.
Qed.

(** C8, as stated, fails: DEL of a key that is not stored answers the
    integer 0, which is no error, and appends nothing: the record is
    written under [if deleted > 0]. *)
Lemma C8_del_absent_counterexample :
  execDel db_empty 0 [to_bytes "x"] = Done (IntReply 0, db_empty) /\
  is_error (IntReply 0) = false /\
  aofLog db_empty = [].
Proof. repeat split; vm_compute; reflexivity. Qed.

(** C8, amended: every write command of the keyspace surface, called with
    the arity of the registry, returns a reply; it appends exactly one
    record to the log when the reply is OK or a non-zero integer, and
    nothing when the reply is an error or the integer 0. *)
Theorem C8_aof_discipline name exec arity db now args :
  In (name, exec, arity) keyspaceWrites ->
  validateArity arity args = true ->
  exists reply db',
    exec db now args = Done (reply, db') /\
    (is_error reply || is_zero reply = true -> aofLog db' = aofLog db) /\
    (is_error reply || is_zero reply = false -> exists line, aofLog db' = aofLog db ++ [line]).
Proof.
  intros Hin Harity.
  destruct (keyspaceWrites_no_panic name exec arity db now args Hin Harity)
    as (reply & db' & He).
  exists reply, db'. split; [exact He |].
  assert (Hrule : aof_rule reply db db').
  { cbn [keyspaceWrites In] in Hin.
    repeat (destruct Hin as [Hin | Hin]; [injection Hin as <- <- <- |]); try contradiction.
    - eapply execDel_aof, He.
    - unfold execExpire in He. eapply execExpireWith_aof, He.
    - unfold execExpireAt in He. eapply execExpireWith_aof, He.
    - unfold execPExpire in He. eapply execExpireWith_aof, He.
    - unfold execPExpireAt in He. eapply execExpireWith_aof, He.
    - eapply execPersist_aof, He.
    - eapply execRename_aof, He.
    - eapply execRenameNx_aof, He.
    - eapply execFlushDB_aof, He. }
  unfold aof_rule in Hrule.
  destruct (is_error reply || is_zero reply); split; intros H; first [exact Hrule | discriminate H].
Qed.

Lemma C8_aof_discipline_witness :
  In ("Del"%string, execDel, -2) keyspaceWrites /\
  validateArity (-2) [to_bytes "a"] = true /\
  exists reply db',
    execDel db_a 0 [to_bytes "a"] = Done (reply, db') /\
    (is_error reply || is_zero reply = true -> aofLog db' = aofLog db_a) /\
    (is_error reply || is_zero reply = false -> exists line, aofLog db' = aofLog db_a ++ [line]).
Proof.
  assert (Hin : In ("Del"%string, execDel, -2) keyspaceWrites) by (left; reflexivity).
  assert (Ha : validateArity (-2) [to_bytes "a"] = true) by reflexivity.
  split; [exact Hin |]. split; [exact Ha |].
  exact (C8_aof_discipline "Del" execDel (-2) db_a 0 [to_bytes "a"] Hin Ha).
Defined.

Example execDel_present_logs :
  execDel db_a 0 [to_bytes "a"] =
  Done (IntReply 1, {| data := ∅; ttlMap := ∅; aofLog := [[to_bytes "del"; to_bytes "a"]] |}).
Proof. vm_compute. reflexivity. Qed.

(** *** No orphan TTL: what the other paths keep *)

Lemma no_orphan_addAof db line : no_orphan_ttl db -> no_orphan_ttl (addAof db line).
Proof. intros H. exact H. Qed.

Lemma no_orphan_Persist db key : no_orphan_ttl db -> no_orphan_ttl (Persist db key).
Proof.
  intros H k [t Hk]. cbn [Persist set_ttlMap data ttlMap] in *.
  destruct (decide (key = k)) as [-> | Hne].
  - rewrite lookup_delete_eq in Hk. discriminate.
  - rewrite lookup_delete_ne in Hk by exact Hne. apply H. eauto.
Qed.

Lemma no_orphan_Expire db key t :
  is_Some (data db !! key) -> no_orphan_ttl db -> no_orphan_ttl (Expire db key t).
Proof.
  intros Hd H k [t' Hk]. cbn [Expire set_ttlMap data ttlMap] in *.
  destruct (decide (key = k)) as [-> | Hne]; [exact Hd |].
  rewrite lookup_insert_ne in Hk by exact Hne. apply H. eauto.
Qed.

Lemma no_orphan_PutEntity db key e : no_orphan_ttl db -> no_orphan_ttl (PutEntity db key e).
Proof.
  intros H k Hk. cbn [PutEntity set_data data ttlMap] in *.
  destruct (decide (key = k)) as [-> | Hne].
  - rewrite lookup_insert_eq. eauto.
  - rewrite lookup_insert_ne by exact Hne. apply H, Hk.
Qed.

Lemma no_orphan_Remove db key : no_orphan_ttl db -> no_orphan_ttl (Remove db key).
Proof.
  intros H k [t Hk]. cbn [Remove data ttlMap] in *.
  destruct (decide (key = k)) as [-> | Hne].
  - rewrite lookup_delete_eq in Hk. discriminate.
  - rewrite lookup_delete_ne in Hk by exact Hne. rewrite lookup_delete_ne by exact Hne.
    apply H. eauto.
Qed.

Lemma GetEntity_no_orphan db now key e db' :
  GetEntity db now key = (e, db') -> no_orphan_ttl db -> no_orphan_ttl db'.
Proof.
  destruct e as [e |]; intros H.
  - apply GetEntity_present in H as [-> _]. auto.
  - apply GetEntity_absent in H as (_ & _ & _ & _ & _ & H). exact H.
Qed.

Lemma execExpireWith_no_orphan f db now args reply db' :
  execExpireWith f db now args = Done (reply, db') ->
  no_orphan_ttl db -> no_orphan_ttl db'.
Proof.
  unfold execExpireWith, arg.
  destruct (nth_error args 0) as [a0 |]; [| discriminate]. cbn [must bind].
  destruct (nth_error args 1) as [a1 |]; [| discriminate]. cbn [must bind].
  destruct (strconv.ParseInt a1 64) as [raw ok]. destruct ok; cbn [negb].
  2:{ intros H. injection H as _ <-. auto. }
  destruct (GetEntity db now (to_string a0)) as [[e |] db1] eqn:HG.
  - apply GetEntity_present in HG as [-> (e' & He' & _)].
    intros H Hinv. injection H as _ <-.
    apply no_orphan_addAof, no_orphan_Expire; [eauto | exact Hinv].
  - intros H Hinv. injection H as _ <-. eapply GetEntity_no_orphan; eauto.
Qed.

Lemma execRenameNx_no_orphan db now args reply db' :
  execRenameNx db now args = Done (reply, db') ->
  no_orphan_ttl db -> no_orphan_ttl db'.
Proof.
  unfold execRenameNx, arg.
  destruct (nth_error args 0) as [a0 |]; [| discriminate]. cbn [must bind].
  destruct (nth_error args 1) as [a1 |]; [| discriminate]. cbn [must bind].
  destruct (GetEntity db now (to_string a1)) as [[e1 |] db1] eqn:HG1.
  { intros H Hinv. injection H as _ <-. eapply GetEntity_no_orphan; eauto. }
  destruct (GetEntity db1 now (to_string a0)) as [[e0 |] db2] eqn:HG0.
  2:{ intros H Hinv. injection H as _ <-.
      eapply GetEntity_no_orphan; [exact HG0 |]. eapply GetEntity_no_orphan; eauto. }
  destruct (Removes db2 [to_string a0; to_string a1]) as [n db3] eqn:ER.
  apply Removes_spec in ER as (_ & _ & _ & Hrm).
  intros H Hinv. injection H as _ <-.
  assert (H3 : no_orphan_ttl db3).
  { apply Hrm. eapply GetEntity_no_orphan; [exact HG0 |]. eapply GetEntity_no_orphan; eauto. }
  apply no_orphan_addAof. destruct (ttlMap db2 !! to_string a0).
  - apply no_orphan_Expire.
    + cbn [Persist PutEntity set_ttlMap set_data data]. rewrite lookup_insert_eq. eauto.
    + apply no_orphan_Persist, no_orphan_Persist, no_orphan_PutEntity, H3.
  - apply no_orphan_PutEntity, H3.
Qed.

(** RENAME keeps the invariant when the two keys differ. *)
Lemma execRename_no_orphan db now (src dst : bytes) reply db' :
  to_string src <> to_string dst ->
  execRename db now [src; dst] = Done (reply, db') ->
  no_orphan_ttl db -> no_orphan_ttl db'.
Proof.
  intros Hne. unfold execRename. cbn [length Nat.eqb negb arg nth_error must bind].
  destruct (GetEntity db now (to_string src)) as [[e |] db1] eqn:HG.
  2:{ intros H Hinv. injection H as _ <-. eapply GetEntity_no_orphan; eauto. }
  apply GetEntity_present in HG as [-> _].
  intros H Hinv. injection H as _ <-. apply no_orphan_addAof.
  destruct (ttlMap db !! to_string src).
  - apply no_orphan_Expire.
    + cbn [Persist Remove PutEntity set_ttlMap set_data data].
      rewrite lookup_delete_ne by exact Hne. rewrite lookup_insert_eq. eauto.
    + apply no_orphan_Persist, no_orphan_Persist, no_orphan_Remove, no_orphan_PutEntity, Hinv.
  - apply no_orphan_Remove, no_orphan_PutEntity, Hinv.
Qed.

(** X21.  Every write command other than RENAME keeps the invariant that
    no key has a TTL without being stored, whatever its arguments. *)
Lemma keyspaceWrites_no_orphan name exec arity db now args reply db' :
  In (name, exec, arity) keyspaceWrites -> name <> "Rename"%string ->
  exec db now args = Done (reply, db') ->
  no_orphan_ttl db -> no_orphan_ttl db'.
Proof.
  intros Hin Hname He Hinv. cbn [keyspaceWrites In] in Hin.
  repeat (destruct Hin as [Hin | Hin]; [injection Hin as <- <- <- |]); try contradiction.
  - unfold execDel in He. destruct (Removes db (map to_string args)) as [n db1] eqn:ER.
    apply Removes_spec in ER as (_ & _ & _ & Hrm). injection He as _ <-.
    destruct (0 <? n); [apply no_orphan_addAof |]; auto.
  - unfold execExpire in He. eapply execExpireWith_no_orphan; eauto.
  - unfold execExpireAt in He. eapply execExpireWith_no_orphan; eauto.
  - unfold execPExpire in He. eapply execExpireWith_no_orphan; eauto.
  - unfold execPExpireAt in He. eapply execExpireWith_no_orphan; eauto.
  - unfold execPersist, arg in He.
    destruct (nth_error args 0) as [a0 |]; [| discriminate]. cbn [must bind] in He.
    destruct (GetEntity db now (to_string a0)) as [[e |] db1] eqn:HG.
    + apply GetEntity_present in HG as [-> _].
      destruct (ttlMap db !! to_string a0); injection He as _ <-; [| exact Hinv].
      apply no_orphan_addAof, no_orphan_Persist, Hinv.
    + injection He as _ <-. eapply GetEntity_no_orphan; eauto.
  - eapply execRenameNx_no_orphan; eauto.
  - unfold execFlushDB in He. injection He as _ <-.
    intros k [t Hk]. cbn [addAof Flush ttlMap] in Hk. rewrite lookup_empty in Hk. discriminate.
Qed.

(** C9 reads present as live: a destination that is stored but expired is
    removed by the lookup, and the rename goes through. *)
Example renamenx_expired_destination :
  execRenameNx
    {| data := {[ "a"%string := entity_of "1"; "b"%string := entity_of "2" ]};
       ttlMap := {[ "a"%string := 100 ]}; aofLog := [] |}
    150 [to_bytes "b"; to_bytes "a"] =
  Done (IntReply 1,
        {| data := {[ "a"%string := entity_of "2" ]}; ttlMap := ∅;
           aofLog := [[to_bytes "renamenx"; to_bytes "b"; to_bytes "a"]] |}).
Proof. vm_compute. reflexivity. Qed.

(** Scenario S4 of the spec: RENAME a b moves the entity and its TTL. *)
Example rename_moves_entity_and_ttl :
  execRename db_a_ttl 50 [to_bytes "a"; to_bytes "b"] =
  Done (OkReply,
        {| data := {[ "b"%string := entity_of "1" ]}; ttlMap := {[ "b"%string := 100 ]};
           aofLog := [[to_bytes "rename"; to_bytes "a"; to_bytes "b"]] |}).
Proof. vm_compute. reflexivity. Qed.

End Commands.

(** ** More on the parser: what every run does *)

Section ParserRuns.
Import parser.

Lemma index_in_range (s : bytes) i : 0 <= i < blen s -> exists c, index s i = Some c.
Proof.
  intros Hi. unfold index.
  destruct (0 <=? i) eqn:E1; [| apply Z.leb_gt in E1; lia].
  destruct (i <? blen s) eqn:E2; [| apply Z.ltb_ge in E2; lia].
  cbn [andb]. destruct (nth_error s (Z.to_nat i)) as [c |] eqn:E; [eauto |].
  apply nth_error_None in E. unfold blen in Hi. lia.
Qed.

Lemma index_out_of_range (s : bytes) i : index s i = None -> i < 0 \/ blen s <= i.
Proof.
  intros H. destruct (Z_lt_le_dec i 0) as [Hneg | Hpos]; [left; exact Hneg |].
  destruct (Z_lt_le_dec i (blen s)) as [Hlt | Hge]; [| right; exact Hge].
  destruct (index_in_range s i ltac:(lia)) as [c Hc]. congruence.
Qed.

Lemma index_last_two (msg : bytes) c1 c2 :
  index msg (blen msg - 2) = Some c1 -> index msg (blen msg - 1) = Some c2 ->
  exists body, msg = body ++ [c1; c2].
Proof.
  destruct msg as [| x msg] using rev_ind.
  { intros H. vm_compute in H. discriminate. }
  clear IHmsg. destruct msg as [| y msg] using rev_ind.
  { intros H. vm_compute in H. discriminate. }
  clear IHmsg. intros H1 H2. exists msg.
  rewrite <- app_assoc in *. cbn [app] in *.
  assert (Hlen : blen (msg ++ [y; x]) = blen msg + 2).
  { rewrite blen_app. reflexivity. }
  rewrite Hlen in H1, H2.
  replace (blen msg + 2 - 2) with (blen msg + 0) in H1 by lia.
  replace (blen msg + 2 - 1) with (blen msg + 1) in H2 by lia.
  rewrite index_app_r in H1 by (unfold blen; simpl; lia).
  rewrite index_app_r in H2 by (unfold blen; simpl; lia).
  change (Z.to_nat 0) with 0%nat in H1. change (Z.to_nat 1) with 1%nat in H2.
  cbn [nth_error] in H1, H2. congruence.
Qed.

Lemma ReadBytes_ok r : forall msg r',
  ReadBytes LF r = (msg, None, r') ->
  exists line, msg = line ++ [LF] /\ ~ In LF line /\ r = msg ++ r'.
Proof.
  induction r as [| c r IH]; intros msg r' H; [discriminate |].
  cbn [ReadBytes] in H. destruct (Ascii.eqb_spec c LF) as [-> | Hne].
  - injection H as <- <-. exists []. repeat split; auto.
  - destruct (ReadBytes LF r) as [[line err] rest] eqn:E.
    injection H as <- -> <-. destruct (IH _ _ eq_refl) as (l & -> & Hnin & ->).
    exists (c :: l). split; [reflexivity |]. split; [| reflexivity].
    intros [Hc | Hin]; [congruence | contradiction].
Qed.

Lemma ReadBytes_err r msg e r' : ReadBytes LF r = (msg, Some e, r') -> e = io_EOF.
Proof.
  revert msg r'. induction r as [| c r IH]; intros msg r' H.
  - injection H as _ <- _. reflexivity.
  - cbn [ReadBytes] in H. destruct (Ascii.eqb c LF); [discriminate |].
    destruct (ReadBytes LF r) as [[line err] rest] eqn:E.
    injection H as _ -> _. eapply IH. reflexivity.
Qed.

Lemma ReadFull_ok r n msg r' :
  ReadFull r n = (msg, None, r') -> r = msg ++ r' /\ length msg = n.
Proof.
  unfold ReadFull. destruct (n <=? length r)%nat eqn:E.
  - apply Nat.leb_le in E. intros H. injection H as <- <-.
    split; [symmetry; apply firstn_skipn | apply firstn_length_le, E].
  - destruct r; discriminate.
Qed.

Lemma ReadFull_err r n msg e r' :
  ReadFull r n = (msg, Some e, r') -> e = io_EOF \/ e = io_ErrUnexpectedEOF.
Proof.
  unfold ReadFull. destruct (n <=? length r)%nat; [discriminate |].
  destruct r; intros H; injection H as _ <- _; auto.
Qed.

Lemma set_bulkLen_same st : bulkLen st = 0 -> set_bulkLen 0 st = st.
Proof. destruct st. cbn. intros ->. reflexivity. Qed.

(** Everything [readLine] can do, from a state with a sane bulk length. *)
Lemma readLine_cases r st :
  state_ok st ->
  match readLine r st with
  | Panic =>
      (bulkLen st = 0 /\ exists rest, r = LF :: rest) \/ 2 ^ 63 - 2 <= bulkLen st
  | Done (msg, ioErr, Some e, r', st') =>
      (ioErr = true /\ (e = io_EOF \/ e = io_ErrUnexpectedEOF)) \/
      (ioErr = false /\ exists m, e = protocol_error m)
  | Done (msg, ioErr, None, r', st') =>
      ioErr = false /\ st' = set_bulkLen 0 st /\
      exists body, msg = body ++ CRLF /\ r = msg ++ r' /\
                   (bulkLen st = 0 -> ~ In LF body) /\
                   (bulkLen st <> 0 -> blen body = bulkLen st)
  end.
Proof.
  intros Hok. unfold state_ok in Hok. unfold readLine.
  destruct (bulkLen st =? 0) eqn:E0.
  - apply Z.eqb_eq in E0.
    destruct (ReadBytes LF r) as [[m e] rest] eqn:ER. destruct e as [e |].
    { left. split; [reflexivity | left; eapply ReadBytes_err, ER]. }
    destruct (ReadBytes_ok _ _ _ ER) as (line & -> & Hnin & ->).
    destruct (blen (line ++ [LF]) =? 0); [right; split; eauto |].
    destruct (index (line ++ [LF]) (blen (line ++ [LF]) - 2)) as [c |] eqn:Ei; cbn [must bind].
    + destruct (Ascii.eqb_spec c CR) as [-> | Hne]; cbn [negb]; [| right; split; eauto].
      split; [reflexivity |]. split; [symmetry; apply set_bulkLen_same, E0 |].
      assert (Hl : index (line ++ [LF]) (blen (line ++ [LF]) - 1) = Some LF).
      { rewrite blen_app. replace (blen line + blen [LF] - 1) with (blen line + 0)
          by (unfold blen; simpl; lia).
        rewrite index_app_r; [reflexivity | unfold blen; simpl; lia]. }
      destruct (index_last_two _ _ _ Ei Hl) as (body & Hb).
      exists body. change CRLF with ([CR] ++ [LF]). rewrite app_assoc.
      change [CR; LF] with ([CR] ++ [LF]) in Hb. rewrite app_assoc in Hb.
      apply app_inj_tail in Hb as [-> _].
      repeat split; try reflexivity.
      * intros _ Hin. apply Hnin. apply in_or_app. left. exact Hin.
      * intros Hc. contradiction.
    + left. split; [exact E0 |]. apply index_out_of_range in Ei.
      rewrite blen_app in Ei. pose proof (blen_nonneg line).
      change (blen [LF]) with 1 in Ei.
      destruct line as [| x line]; [cbn [app]; eauto |].
      rewrite blen_cons in Ei. pose proof (blen_nonneg line). lia.
  - apply Z.eqb_neq in E0.
    destruct (wrap64 (bulkLen st + 2) <? 0) eqn:E1.
    { right. apply Z.ltb_lt in E1. unfold wrap64 in E1.
      destruct (Z_lt_le_dec (bulkLen st + 2) (2 ^ 63)) as [Hlt | Hge]; [| lia].
      rewrite Z.mod_small in E1; lia. }
    apply Z.ltb_ge in E1.
    assert (Hn : wrap64 (bulkLen st + 2) = bulkLen st + 2).
    { unfold wrap64 in *.
      destruct (Z_lt_le_dec (bulkLen st + 2) (2 ^ 63)) as [Hlt | Hge].
      - rewrite Z.mod_small; lia.
      - exfalso.
        replace (bulkLen st + 2 + 2 ^ 63) with (bulkLen st + 2 - 2 ^ 63 + 1 * 2 ^ 64) in E1 by lia.
        rewrite Z.mod_add in E1 by lia. rewrite Z.mod_small in E1; lia. }
    rewrite Hn.
    destruct (ReadFull r (Z.to_nat (bulkLen st + 2))) as [[m e] rest] eqn:ER.
    destruct e as [e |].
    { left. split; [reflexivity | eapply ReadFull_err, ER]. }
    destruct (ReadFull_ok _ _ _ _ ER) as [-> Hlen].
    assert (Hbl : blen m = bulkLen st + 2) by (unfold blen; lia).
    destruct (blen m =? 0); [right; split; eauto |].
    destruct (index_in_range m (blen m - 2) ltac:(lia)) as [c1 Hc1].
    destruct (index_in_range m (blen m - 1) ltac:(lia)) as [c2 Hc2].
    rewrite Hc1. cbn [must bind].
    destruct (Ascii.eqb_spec c1 CR) as [-> | Hne1]; cbn [negb]; [| right; split; eauto].
    rewrite Hc2. cbn [must bind].
    destruct (Ascii.eqb_spec c2 LF) as [-> | Hne2]; cbn [negb]; [| right; split; eauto].
    split; [reflexivity |]. split; [reflexivity |].
    destruct (index_last_two _ _ _ Hc1 Hc2) as (body & ->).
    exists body. repeat split; try reflexivity.
    + intros Hc. contradiction.
    + intros _. rewrite blen_app in Hbl. change (blen [CR; LF]) with 2 in Hbl. lia.
Qed.

Lemma state_inv_ok st : state_inv st -> state_ok st.
Proof.
  intros [-> | (_ & _ & _ & H)]; [apply zeroState_ok | exact H].
Qed.

Lemma state_inv_zero : state_inv zeroState.
Proof. left. reflexivity. Qed.

Lemma ParseUint_nonneg s bits v ok : 0 <= bits -> strconv.ParseUint s bits = (v, ok) -> 0 <= v.
Proof.
  intros Hb. unfold strconv.ParseUint. destruct s as [| c s].
  { intros H. injection H as <- _. lia. }
  destruct (strconv.parse_digits (c :: s) 0) as [n |] eqn:E.
  - pose proof (parse_digits_nonneg _ _ _ (Z.le_refl 0) E) as Hn.
    destruct (n <? 2 ^ bits) eqn:E2; intros H; injection H as <- _; [lia |].
    apply Z.ltb_ge in E2. lia.
  - intros H. injection H as <- _. lia.
Qed.

(** Everything one iteration can do, from a state the parser reaches. *)
Lemma iter_cases st r :
  state_inv st ->
  match iter st r with
  | Done (Next sent st' r') =>
      state_inv st' /\ forallb payload_wf sent = true /\ existsb is_io_error sent = false
  | Done (Return sent) =>
      exists p, sent = [p] /\ payload_wf p = true /\ is_io_error p = true
  | Panic =>
      (bulkLen st = 0 /\ exists rest, r = LF :: rest) \/
      (readingMultiLine st = true /\ bulkLen st = 0 /\ exists rest, r = CRLF ++ rest) \/
      2 ^ 63 - 2 <= bulkLen st
  end.
Proof.
  intros Hinv. pose proof (state_inv_ok st Hinv) as Hok.
  pose proof (readLine_cases r st Hok) as HR. unfold iter.
  destruct (readLine r st) as [[[[[msg ioErr] err] r1] st1] |]; cbn [bind].
  2:{ destruct HR as [Hlf | Hbig]; [left; exact Hlf | right; right; exact Hbig]. }
  destruct err as [e |].
  { destruct HR as [[-> He] | [-> [m ->]]].
    - exists (errPayload e). split; [reflexivity |]. split; [reflexivity |].
      destruct He; subst; reflexivity.
    - split; [apply state_inv_zero | split; reflexivity]. }
  destruct HR as (-> & -> & body & -> & -> & Hnl & Hbl).
  destruct Hinv as [-> | (Hml & Hty & Hargs & Hbulk)].
  - (* a fresh message *)
    change (set_bulkLen 0 zeroState) with zeroState.
    cbn [zeroState readingMultiLine negb].
    destruct body as [| c b'].
    { cbn. split; [apply state_inv_zero | split; reflexivity]. }
    change (index ((c :: b') ++ CRLF) 0) with (index (c :: b' ++ CRLF) 0).
    rewrite index_0. cbn [must bind].
    destruct (Ascii.eqb_spec c "*") as [-> | Hstar].
    { unfold parseMultiBulkHeader. rewrite slice_line. cbn [must bind].
      destruct (strconv.ParseUint b' 32) as [n ok] eqn:EP. destruct ok; cbn [negb].
      2:{ cbn [bind]. split; [apply state_inv_zero | split; reflexivity]. }
      destruct (n =? 0) eqn:E0.
      { cbn [bind set_expectedArgsCount expectedArgsCount]. rewrite Z.eqb_refl.
        split; [apply state_inv_zero | split; reflexivity]. }
      apply ParseUint_nonneg in EP; [| lia]. apply Z.eqb_neq in E0.
      destruct (0 <? n) eqn:E1; [| apply Z.ltb_ge in E1; lia].
      change (index (("*"%char :: b') ++ CRLF) 0) with (index ("*"%char :: b' ++ CRLF) 0).
      rewrite index_0. cbn [must bind expectedArgsCount].
      destruct (n =? 0) eqn:E2; [apply Z.eqb_eq in E2; lia |].
      split; [| split; reflexivity].
      right. cbn. repeat split; auto; lia. }
    destruct (Ascii.eqb_spec c "$") as [-> | Hdollar].
    { unfold parseBulkHeader. rewrite slice_line. cbn [must bind].
      destruct (strconv.ParseInt b' 64) as [n ok] eqn:EP. destruct ok; cbn [negb].
      2:{ cbn [bind]. split; [apply state_inv_zero | split; reflexivity]. }
      apply ParseInt_range in EP. unfold int64_range in EP.
      cbn [bulkLen set_bulkLen].
      destruct (n =? -1) eqn:E0.
      { cbn [bind bulkLen set_bulkLen]. rewrite E0.
        split; [apply state_inv_zero | split; reflexivity]. }
      destruct (0 <? n) eqn:E1.
      2:{ cbn [bind]. split; [apply state_inv_zero | split; reflexivity]. }
      apply Z.ltb_lt in E1.
      change (index (("$"%char :: b') ++ CRLF) 0) with (index ("$"%char :: b' ++ CRLF) 0).
      rewrite index_0. cbn [must bind bulkLen]. rewrite E0.
      split; [| split; reflexivity].
      right. cbn. repeat split; auto; lia. }
    unfold parseSingleLineReply. rewrite TrimSuffix_CRLF.
    change (index ((c :: b') ++ CRLF) 0) with (index (c :: b' ++ CRLF) 0).
    rewrite index_0. cbn [must bind]. rewrite slice_from_1. cbn [must bind].
    destruct (Ascii.eqb c "+"); [cbn [bind]; split; [apply state_inv_zero | split; reflexivity] |].
    destruct (Ascii.eqb c "-"); [cbn [bind]; split; [apply state_inv_zero | split; reflexivity] |].
    destruct (Ascii.eqb c ":").
    + destruct (strconv.ParseInt b' 64) as [v ok]. destruct ok; cbn [negb bind];
        (split; [apply state_inv_zero | split; reflexivity]).
    + cbn [bind]. split; [apply state_inv_zero | split; reflexivity].
  - (* arguments are being collected *)
    replace (readingMultiLine (set_bulkLen 0 st)) with true by (symmetry; exact Hml).
    cbn [negb]. unfold readBody. rewrite slice_body. cbn [must bind].
    destruct body as [| c b'].
    { cbn [index must bind]. right. left. split; [exact Hml |].
      destruct (Z.eq_dec (bulkLen st) 0) as [Hz | Hnz].
      - split; [exact Hz |]. exists r1. reflexivity.
      - specialize (Hbl Hnz). change (blen []) with 0 in Hbl. lia. }
    rewrite index_0. cbn [must bind].
    assert (Hfin : forall st2 : readState,
      readingMultiLine st2 = true ->
      msgType st2 = msgType st -> expectedArgsCount st2 = expectedArgsCount st ->
      0 <= bulkLen st2 < 2 ^ 63 ->
      (length (args st2) <= length (args st) + 1)%nat ->
      match
        (if finished st2
         then
           let* result :=
             if Ascii.eqb (msgType st2) "*"
             then Done (Some (MakeMultiBulkReply (args st2)))
             else if Ascii.eqb (msgType st2) "$"
                  then let* a0 := must (nth_error (args st2) 0) in
                       Done (Some (MakeBulkReply a0))
                  else Done None in
           Done (Next [{| Data := result; Err := None |}] zeroState r1)
         else Done (Next [] st2 r1))
      with
      | Done (Next sent st' r') =>
          state_inv st' /\ forallb payload_wf sent = true /\ existsb is_io_error sent = false
      | Done (Return sent) =>
          exists p, sent = [p] /\ payload_wf p = true /\ is_io_error p = true
      | Panic =>
          (bulkLen st = 0 /\ exists rest, ((c :: b') ++ CRLF) ++ r1 = LF :: rest) \/
          (readingMultiLine st = true /\ bulkLen st = 0 /\
           exists rest, ((c :: b') ++ CRLF) ++ r1 = CRLF ++ rest) \/
          2 ^ 63 - 2 <= bulkLen st
      end).
    { intros st2 H2ml H2ty H2cnt H2bulk H2len. unfold finished.
      destruct (0 <? expectedArgsCount st2) eqn:Epos; cbn [andb].
      2:{ apply Z.ltb_ge in Epos. lia. }
      destruct (Z.of_nat (length (args st2)) =? expectedArgsCount st2) eqn:Eeq.
      - apply Z.eqb_eq in Eeq. apply Z.ltb_lt in Epos.
        rewrite H2ty. destruct Hty as [-> | ->].
        + cbn. split; [apply state_inv_zero | split; reflexivity].
        + change (Ascii.eqb "$" "*") with false. change (Ascii.eqb "$" "$") with true.
          cbv iota. destruct (args st2) as [| a0 rest0]; [cbn [length] in Eeq; lia |].
          cbn. split; [apply state_inv_zero | split; reflexivity].
      - apply Z.eqb_neq in Eeq. split; [| split; reflexivity].
        right. rewrite H2ty. repeat split; auto; lia. }
    destruct (Ascii.eqb c "$").
    + rewrite slice_from_1. cbn [must bind].
      destruct (strconv.ParseInt b' 64) as [n ok] eqn:EP. destruct ok; cbn [negb].
      2:{ cbn [bind]. split; [apply state_inv_zero | split; reflexivity]. }
      apply ParseInt_range in EP. unfold int64_range in EP.
      cbn [bulkLen set_bulkLen]. destruct (n <=? 0) eqn:E0; cbn [bind].
      * apply Hfin; cbn; auto; try lia. rewrite length_app. cbn. lia.
      * apply Z.leb_gt in E0. apply Hfin; cbn; auto; lia.
    + cbn [bind]. apply Hfin; cbn; auto; try lia. rewrite length_app. cbn. lia.
Qed.

Lemma loop_cases fuel : forall st r ps e,
  state_inv st -> loop fuel st r = Some (ps, e) ->
  forallb payload_wf ps = true /\
  match e with
  | Closed => exists ps' p, ps = ps' ++ [p] /\ is_io_error p = true /\
                            existsb is_io_error ps' = false
  | LeftOpen => existsb is_io_error ps = false
  end.
Proof.
  induction fuel as [| f IH]; intros st r ps e Hinv H; [discriminate |].
  cbn [loop] in H. pose proof (iter_cases st r Hinv) as HC.
  destruct (iter st r) as [[sent st' r' | sent] |].
  - destruct HC as (Hinv' & Hwf & Hio).
    destruct (loop f st' r') as [[ps1 e1] |] eqn:EL; [| discriminate].
    injection H as <- <-. destruct (IH _ _ _ _ Hinv' EL) as [Hwf1 He1].
    split; [rewrite forallb_app, Hwf, Hwf1; reflexivity |].
    destruct e1.
    + destruct He1 as (ps' & p & -> & Hp & Hps').
      exists (sent ++ ps'), p. rewrite app_assoc. split; [reflexivity |].
      split; [exact Hp |]. rewrite existsb_app, Hio, Hps'. reflexivity.
    + rewrite existsb_app, Hio, He1. reflexivity.
  - destruct HC as (p & -> & Hwf & Hio). injection H as <- <-.
    split; [cbn; rewrite Hwf; reflexivity |].
    exists [], p. repeat split; auto.
  - injection H as <- <-. split; reflexivity.
Qed.

(** X1.  [parse0] finishes on every input.  Every payload it sends carries
    a reply or an error, never both and never neither.  It closes the
    channel only right after an I/O error, which is then the last payload
    and the only I/O error; when it leaves the channel open (a recovered
    panic) it has sent no I/O error. *)
Theorem parse0_payloads (input : bytes) :
  exists ps e,
    parse0 input = Some (ps, e) /\
    forallb payload_wf ps = true /\
    match e with
    | Closed => exists ps' p, ps = ps' ++ [p] /\ is_io_error p = true /\
                              existsb is_io_error ps' = false
    | LeftOpen => existsb is_io_error ps = false
    end.
Proof.
  destruct (parse0_total input) as (ps & e & H). exists ps, e.
  split; [exact H |]. exact (loop_cases _ _ _ _ _ state_inv_zero H).
Qed.

Lemma iter_lone_LF st (rest : bytes) : bulkLen st = 0 -> iter st (LF :: rest) = Panic.
Proof.
  intros Hb. unfold iter, readLine. rewrite Hb. reflexivity.
Qed.

Lemma iter_empty_line st (rest : bytes) :
  readingMultiLine st = true -> bulkLen st = 0 -> iter st (CRLF ++ rest) = Panic.
Proof.
  intros Hm Hb. unfold iter.
  change (CRLF ++ rest) with ([] ++ CRLF ++ rest).
  rewrite readLine_line by (first [exact Hb | intros []]).
  cbn [bind app]. rewrite Hm. reflexivity.
Qed.

(** X2.  From a state the parser reaches, with a pending bulk length Go can
    allocate, an iteration of [parse0] panics exactly when a header line is
    due and the next byte is a line feed (the index [len(msg)-2] is -1), or
    arguments are being collected and the next line is empty ([line[0]] on
    an empty line). *)
Theorem iter_panics_iff st (r : bytes) :
  state_inv st -> bulkLen st + 2 < 2 ^ 47 ->
  iter st r = Panic <->
  bulkLen st = 0 /\
  ((exists rest, r = LF :: rest) \/
   (readingMultiLine st = true /\ exists rest, r = CRLF ++ rest)).
Proof.
  intros Hinv Hsmall. split.
  - intros H. pose proof (iter_cases st r Hinv) as HC. rewrite H in HC.
    destruct HC as [[Hb Hr] | [(Hm & Hb & Hr) | Hbig]].
    + split; [exact Hb | left; exact Hr].
    + split; [exact Hb | right; split; [exact Hm | exact Hr]].
    + lia.
  - intros [Hb [[rest ->] | [Hm [rest ->]]]].
    + apply iter_lone_LF, Hb.
    + apply iter_empty_line; assumption.
Qed.

Lemma iter_panics_iff_witness :
  state_inv (collecting "*" 2 [] 0) /\
  bulkLen (collecting "*" 2 [] 0) + 2 < 2 ^ 47 /\
  iter (collecting "*" 2 [] 0) (CRLF ++ to_bytes "x") = Panic.
Proof.
  assert (Hinv : state_inv (collecting "*" 2 [] 0)).
  { right. cbn. repeat split; auto; lia. }
  assert (Hs : bulkLen (collecting "*" 2 [] 0) + 2 < 2 ^ 47) by (cbn; lia).
  split; [exact Hinv |]. split; [exact Hs |].
  apply (proj2 (iter_panics_iff (collecting "*" 2 [] 0) (CRLF ++ to_bytes "x") Hinv Hs)).
  split; [reflexivity |]. right. split; [reflexivity |]. exists (to_bytes "x"). reflexivity.
Defined.

Lemma iter_bad_line st (line rest : bytes) c :
  bulkLen st = 0 -> ~ In LF (line ++ [c]) -> c <> CR ->
  iter st ((line ++ [c]) ++ LF :: rest) =
  Done (Next [errPayload (protocol_error ((line ++ [c]) ++ [LF]))] zeroState rest).
Proof.
  intros Hb Hnin Hc. unfold iter, readLine. rewrite Hb. cbn [Z.eqb].
  rewrite ReadBytes_found by exact Hnin.
  assert (Hi : index ((line ++ [c]) ++ [LF]) (blen ((line ++ [c]) ++ [LF]) - 2) = Some c).
  { rewrite <- app_assoc. cbn [app]. rewrite blen_app.
    replace (blen line + blen [c; LF] - 2) with (blen line + 0) by (unfold blen; simpl; lia).
    rewrite index_app_r; [reflexivity | unfold blen; simpl; lia]. }
  rewrite Hi.
  destruct (blen ((line ++ [c]) ++ [LF]) =? 0); [reflexivity |].
  cbn [must bind]. destruct (Ascii.eqb_spec c CR) as [-> | _]; [congruence |].
  reflexivity.
Qed.

(** X3.  A header line of two bytes or more whose line feed does not follow
    a carriage return is answered with one protocol error quoting the line;
    the state is reset and parsing goes on with the next byte. *)
Theorem iter_line_without_CR st (line rest : bytes) c :
  bulkLen st = 0 -> ~ In LF (line ++ [c]) -> c <> CR ->
  iter st ((line ++ [c]) ++ LF :: rest) =
  Done (Next [errPayload (protocol_error ((line ++ [c]) ++ [LF]))] zeroState rest).
Proof. exact (iter_bad_line st line rest c). Qed.

Lemma iter_line_without_CR_witness :
  bulkLen zeroState = 0 /\ ~ In LF (to_bytes "GE" ++ ["T"%char]) /\ "T"%char <> CR /\
  iter zeroState ((to_bytes "GE" ++ ["T"%char]) ++ LF :: to_bytes "+OK") =
  Done (Next [errPayload (protocol_error ((to_bytes "GE" ++ ["T"%char]) ++ [LF]))]
          zeroState (to_bytes "+OK")).
Proof.
  assert (Hn : ~ In LF (to_bytes "GE" ++ ["T"%char])).
  { intros H. repeat (destruct H as [H | H]; [discriminate |]). exact H. }
  assert (Hc : "T"%char <> CR) by discriminate.
  split; [reflexivity |]. split; [exact Hn |]. split; [exact Hc |].
  apply (iter_line_without_CR zeroState (to_bytes "GE") (to_bytes "+OK") "T" eq_refl Hn Hc).
Defined.

(** *** Inline commands *)








(** *** Nulls and negative counts *)

(** X5.  While the arguments of an array are collected, a bulk header with
    a length of zero or less, the null bulk [$-1] included, adds an empty
    argument and reads no payload; when it was the last argument the array
    is sent. *)
Theorem iter_nonpositive_item count acc n (rest : bytes) :
  int64_range n -> n <= 0 -> Z.of_nat (length acc) < count ->
  iter (collecting "*" count acc 0) (("$"%char :: strconv.FormatInt n) ++ CRLF ++ rest) =
  if Z.of_nat (length acc) + 1 =? count
  then Done (Next [dataPayload (MultiBulkReply (acc ++ [[]]))] zeroState rest)
  else Done (Next [] (collecting "*" count (acc ++ [[]]) 0) rest).
Proof.
  intros Hn Hle Hacc. unfold iter.
  rewrite readLine_line
    by (first [reflexivity | apply In_cons_line; [discriminate | apply FormatInt_no_LF]]).
  cbn [bind readingMultiLine collecting negb].
  unfold readBody. rewrite slice_body. cbn [must bind]. rewrite index_0. cbn [must bind].
  change (Ascii.eqb "$" "$") with true. cbv iota.
  rewrite slice_from_1. cbn [must bind]. rewrite ParseInt_FormatInt by exact Hn.
  cbn [negb bulkLen set_bulkLen].
  destruct (n <=? 0) eqn:E0; [| apply Z.leb_gt in E0; lia].
  cbn [bind]. unfold finished, set_bulkLen, set_args, collecting.
  cbn [expectedArgsCount args readingMultiLine msgType bulkLen].
  rewrite length_app. cbn [length].
  replace (Z.of_nat (length acc + 1)) with (Z.of_nat (length acc) + 1) by lia.
  destruct (0 <? count) eqn:Epos; [| apply Z.ltb_ge in Epos; lia]. cbn [andb].
  destruct (Z.of_nat (length acc) + 1 =? count); reflexivity.
Qed.

Lemma iter_nonpositive_item_witness :
  int64_range (-1) /\ -1 <= 0 /\ Z.of_nat (length ([] : list bytes)) < 1 /\
  iter (collecting "*" 1 [] 0) (("$"%char :: strconv.FormatInt (-1)) ++ CRLF ++ []) =
  Done (Next [dataPayload (MultiBulkReply [[]])] zeroState []).
Proof.
  assert (H1 : int64_range (-1)) by (unfold int64_range; lia).
  assert (H2 : -1 <= 0) by lia.
  assert (H3 : Z.of_nat (length ([] : list bytes)) < 1) by (cbn; lia).
  split; [exact H1 |]. split; [exact H2 |]. split; [exact H3 |].
  exact (iter_nonpositive_item 1 [] (-1) [] H1 H2 H3).
Defined.

(** X6.  A negative array count, the null array [*-1] included, is a
    protocol error: the count is read as an unsigned number. *)
Theorem iter_negative_count n (rest : bytes) :
  n < 0 ->
  iter zeroState (("*"%char :: strconv.FormatInt n) ++ CRLF ++ rest) =
  Done (Next [errPayload (protocol_error (("*"%char :: strconv.FormatInt n) ++ CRLF))]
          zeroState rest).
Proof.
  intros Hn. unfold iter.
  rewrite readLine_line
    by (first [reflexivity | apply In_cons_line; [discriminate | apply FormatInt_no_LF]]).
  cbn [bind readingMultiLine zeroState negb].
  change (index (("*"%char :: strconv.FormatInt n) ++ CRLF) 0)
    with (index ("*"%char :: strconv.FormatInt n ++ CRLF) 0).
  rewrite index_0. cbn [must bind]. change (Ascii.eqb "*" "*") with true. cbv iota.
  unfold parseMultiBulkHeader. rewrite slice_line. cbn [must bind].
  unfold strconv.FormatInt. destruct (n <? 0) eqn:E; [| apply Z.ltb_ge in E; lia].
  reflexivity.
Qed.

Lemma iter_negative_count_witness :
  -1 < 0 /\
  iter zeroState (("*"%char :: strconv.FormatInt (-1)) ++ CRLF ++ []) =
  Done (Next [errPayload (protocol_error (("*"%char :: strconv.FormatInt (-1)) ++ CRLF))]
          zeroState []).
Proof.
  assert (H : -1 < 0) by lia.
  split; [exact H | exact (iter_negative_count (-1) [] H)].
Defined.

(** *** The end of the input *)

Lemma ReadBytes_none (r : bytes) : ~ In LF r -> ReadBytes LF r = (r, Some io_EOF, []).
Proof.
  induction r as [| c r IH]; intros Hn; [reflexivity |].
  cbn [ReadBytes]. destruct (Ascii.eqb_spec c LF) as [-> | _].
  - exfalso. apply Hn. left. reflexivity.
  - rewrite IH; [reflexivity | intros Hin; apply Hn; right; exact Hin].
Qed.

Lemma run_unterminated (tail : bytes) :
  ~ In LF tail -> run zeroState tail = Some ([errPayload io_EOF], Closed).
Proof.
  intros Hn. rewrite run_unfold by apply zeroState_ok.
  unfold iter, readLine. cbn [bulkLen zeroState Z.eqb].
  rewrite ReadBytes_none by exact Hn. reflexivity.
Qed.

Lemma run_replies_then (rs : list Reply) (tail : bytes) :
  forallb wire_safe rs = true ->
  run zeroState (concat (map ToBytes rs) ++ tail) =
  match run zeroState tail with
  | Some (ps, e) => Some (map dataPayload rs ++ ps, e)
  | None => None
  end.
Proof.
  induction rs as [| r rs IH]; intros Hall.
  - cbn [map concat app]. destruct (run zeroState tail) as [[ps e] |]; reflexivity.
  - cbn [forallb] in Hall. apply andb_prop in Hall as [Hr Hrs].
    cbn [map concat]. rewrite <- app_assoc, (run_reply r _ Hr), (IH Hrs).
    destruct (run zeroState tail) as [[ps e] |]; reflexivity.
Qed.

Lemma collect_data (rs : list Reply) : forall ps e acc,
  collect (map dataPayload rs ++ ps) e acc = collect ps e (acc ++ map Some rs).
Proof.
  induction rs as [| r rs IH]; intros ps e acc.
  - cbn. rewrite app_nil_r. reflexivity.
  - cbn [map app collect dataPayload Err Data]. rewrite IH, <- app_assoc. reflexivity.
Qed.

(** X7.  On a pipeline of messages that are [wire_safe] (status and error
    lines without a line feed, 64-bit integers, the null bulk, the empty
    array, bulk strings and arrays of 1 to 2^32-1 bulk strings whose
    payloads are not empty and do not start with a dollar sign),
    [ParseBytes] returns the replies in the order they arrived, without an
    error, also when the input goes on with an unterminated line: what
    follows the last line feed is dropped and reported as plain end of
    file.  [ParseOne] returns the first reply. *)
Theorem ParseBytes_pipeline (r : Reply) (rs : list Reply) (tail : bytes) :
  forallb wire_safe (r :: rs) = true -> ~ In LF tail ->
  ParseBytes (concat (map ToBytes (r :: rs)) ++ tail) =
    Some (Returns (map Some (r :: rs), None)) /\
  ParseOne (concat (map ToBytes (r :: rs)) ++ tail) = Some (Returns (Some r, None)).
Proof.
  intros Hall Hn. unfold ParseBytes, ParseOne.
  change (parse0 (concat (map ToBytes (r :: rs)) ++ tail))
    with (run zeroState (concat (map ToBytes (r :: rs)) ++ tail)).
  rewrite (run_replies_then _ _ Hall), (run_unterminated _ Hn).
  split; [| reflexivity]. rewrite collect_data. reflexivity.
Qed.

Lemma ParseBytes_pipeline_witness :
  forallb wire_safe [IntReply 1; StatusReply "OK"] = true /\
  ~ In LF (to_bytes "+par") /\
  ParseBytes (concat (map ToBytes [IntReply 1; StatusReply "OK"]) ++ to_bytes "+par") =
    Some (Returns ([Some (IntReply 1); Some (StatusReply "OK")], None)).
Proof.
  assert (Hs : forallb wire_safe [IntReply 1; StatusReply "OK"] = true) by reflexivity.
  assert (Hn : ~ In LF (to_bytes "+par")).
  { intros H. repeat (destruct H as [H | H]; [discriminate |]). exact H. }
  split; [exact Hs |]. split; [exact Hn |].
  exact (proj1 (ParseBytes_pipeline (IntReply 1) [StatusReply "OK"] (to_bytes "+par") Hs Hn)).
Defined.

(** X8.  A bulk string cut short, its header declaring a length that is
    positive and, with the two bytes of the CRLF, below 2^47, so that the
    buffer of [readLine] can be allocated: when the stream ends inside the
    payload or its CRLF, [parse0] sends [io.ErrUnexpectedEOF] and closes,
    and [ParseBytes] returns that error and no reply; when it ends right
    after the header, the error is [io.EOF] and [ParseBytes] returns no
    error. *)
Theorem ParseBytes_truncated_bulk (b cut : bytes) :
  0 < blen b -> blen b + 2 < 2 ^ 47 -> blen cut < blen b + 2 ->
  ParseBytes (("$"%char :: strconv.FormatInt (blen b)) ++ CRLF ++ cut) =
  Some (Returns ([], match cut with
                     | [] => None
                     | _ => Some io_ErrUnexpectedEOF
                     end)).
Proof.
  intros Hpos Hmax Hcut. unfold ParseBytes.
  change (parse0 (("$"%char :: strconv.FormatInt (blen b)) ++ CRLF ++ cut))
    with (run zeroState (("$"%char :: strconv.FormatInt (blen b)) ++ CRLF ++ cut)).
  erewrite run_skip; [| apply zeroState_ok | apply iter_bulk_header; lia].
  rewrite run_unfold by (apply collecting_ok; lia).
  unfold iter, readLine. cbn [bulkLen collecting].
  destruct (blen b =? 0) eqn:E0; [apply Z.eqb_eq in E0; lia |].
  rewrite wrap64_small by (unfold int64_range; lia).
  destruct (blen b + 2 <? 0) eqn:E1; [apply Z.ltb_lt in E1; lia |].
  unfold ReadFull.
  destruct (Z.to_nat (blen b + 2) <=? length cut)%nat eqn:E2.
  { apply Nat.leb_le in E2. unfold blen in *. lia. }
  destruct cut; reflexivity.
Qed.

Lemma ParseBytes_truncated_bulk_witness :
  0 < blen (to_bytes "hello") /\ blen (to_bytes "hello") + 2 < 2 ^ 47 /\
  blen (to_bytes "hel") < blen (to_bytes "hello") + 2 /\
  ParseBytes (("$"%char :: strconv.FormatInt (blen (to_bytes "hello"))) ++ CRLF
                ++ to_bytes "hel") =
  Some (Returns ([], Some io_ErrUnexpectedEOF)).
Proof.
  assert (H1 : 0 < blen (to_bytes "hello")) by reflexivity.
  assert (H2 : blen (to_bytes "hello") + 2 < 2 ^ 47) by reflexivity.
  assert (H3 : blen (to_bytes "hel") < blen (to_bytes "hello") + 2) by reflexivity.
  split; [exact H1 |]. split; [exact H2 |]. split; [exact H3 |].
  exact (ParseBytes_truncated_bulk (to_bytes "hello") (to_bytes "hel") H1 H2 H3).
Defined.

End ParserRuns.

(** ** The session *)

Section Session.
Import parser database server.

Variables DBState Conn : Type.
Variable Exec : DBState -> CmdLine -> option Reply * DBState.
Variable Write : Conn -> bytes -> Conn * bool.



Lemma serve_replies (rs : list Reply) : forall ps e db client,
  serve Exec Write (map dataPayload rs ++ ps) e db client =
  serve Exec Write ps e
    (snd (run_commands Exec (commands_of rs) db))
    (fold_left (fun c b => fst (Write c b)) (fst (run_commands Exec (commands_of rs) db))
       client).
Proof.
  induction rs as [| r rs IH]; intros ps e db client; [reflexivity |].
  cbn [map app serve dataPayload Err Data].
  destruct r; try (rewrite IH; reflexivity).
  cbn [commands_of flat_map app run_commands].
  fold (commands_of rs).
  destruct (Exec db Args) as [result db1].
  destruct (run_commands Exec (commands_of rs) db1) as [out db2] eqn:ER.
  cbn [fst snd fold_left].
  destruct result as [reply |]; cbn [reply_bytes].
  - destruct (Write client (ToBytes reply)) as [client' failed]. rewrite IH, ER. reflexivity.
  - destruct (Write client unknownErrReplyBytes) as [client' failed]. rewrite IH, ER.
    reflexivity.
Qed.

(** X10.  One answer per command, in arrival order, on a pipeline of
    [wire_safe] messages (status and error lines without a line feed,
    64-bit integers, the null bulk, the empty array, bulk strings and
    arrays of 1 to 2^32-1 bulk strings whose payloads are not empty and do
    not start with a dollar sign): each multi-bulk array is executed
    against the keyspace left by the one before and its reply (or
    [-ERR unknown] for a nil reply) is written, failed writes included;
    every other kind of message (status, error, integer, bulk, null bulk,
    empty array) is skipped without an answer.  At the end of the stream
    the client is closed. *)
Theorem Handle_pipeline (rs : list Reply) (tail : bytes) db client :
  forallb wire_safe rs = true -> ~ In LF tail ->
  Handle Exec Write false (concat (map ToBytes rs) ++ tail) db client =
  Some (snd (run_commands Exec (commands_of rs) db),
        fold_left (fun c b => fst (Write c b))
          (fst (run_commands Exec (commands_of rs) db)) client,
        ClientClosed).
Proof.
  intros Hall Hn. unfold Handle.
  change (parse0 (concat (map ToBytes rs) ++ tail))
    with (run zeroState (concat (map ToBytes rs) ++ tail)).
  rewrite (run_replies_then _ _ Hall), (run_unterminated _ Hn).
  rewrite serve_replies. reflexivity.
Qed.


End Session.

(** ** More on the keyspace commands *)

Section KeyspaceCommands.
Import database.

Lemma liveb_live db now key : liveb db now key = true <-> live db now key.
Proof.
  unfold liveb, live. split.
  - destruct (data db !! key) as [e |]; [| discriminate].
    destruct (ttlMap db !! key) as [t |]; intros H.
    + apply Z.ltb_lt in H. exists e. split; [reflexivity |].
      intros t' Ht'. injection Ht' as <-. exact H.
    + exists e. split; [reflexivity | discriminate].
  - intros (e & -> & Ht). destruct (ttlMap db !! key) as [t |]; [| reflexivity].
    apply Z.ltb_lt, Ht. reflexivity.
Qed.

Lemma GetEntity_liveb db now key e db' :
  GetEntity db now key = (e, db') ->
  (match e with Some _ => liveb db now key = true | None => liveb db now key = false end) /\
  forall k, liveb db' now k = liveb db now k.
Proof.
  unfold GetEntity, liveb. destruct (data db !! key) as [ent |] eqn:Hd.
  - destruct (ttlMap db !! key) as [t |] eqn:Ht.
    + destruct (t <=? now) eqn:E; intros H; injection H as <- <-.
      * apply Z.leb_le in E. split; [apply Z.ltb_ge; lia |].
        intros k. cbn [Remove data ttlMap]. destruct (decide (key = k)) as [<- | Hne].
        -- rewrite lookup_delete_eq, Hd, Ht. symmetry. apply Z.ltb_ge. lia.
        -- rewrite !lookup_delete_ne by exact Hne. reflexivity.
      * apply Z.leb_gt in E. split; [apply Z.ltb_lt; lia | reflexivity].
    + intros H; injection H as <- <-. split; reflexivity.
  - intros H; injection H as <- <-. split; reflexivity.
Qed.

Lemma Removes_effect keys : forall db n db',
  Removes db keys = (n, db') ->
  data db' ⊆ data db /\ ttlMap db' ⊆ ttlMap db /\
  n = Z.of_nat (size (data db)) - Z.of_nat (size (data db')) /\
  (forall k, In k keys -> data db' !! k = None) /\
  (forall k, In k keys -> is_Some (data db !! k) -> ttlMap db' !! k = None) /\
  (forall k, ~ In k keys ->
     data db' !! k = data db !! k /\ ttlMap db' !! k = ttlMap db !! k).
Proof.
  induction keys as [| key keys IH]; intros db n db' H; cbn [Removes] in H.
  - injection H as <- <-. repeat split; auto; try lia; intros k [].
  - destruct (data db !! key) as [ent |] eqn:Hd.
    + destruct (Removes (Remove db key) keys) as [m db1] eqn:ER.
      injection H as <- <-.
      destruct (IH _ _ _ ER) as (Hsd & Hst & Hn & Ha & Hc & Hb).
      cbn [Remove data ttlMap] in *.
      assert (Hsz : size (delete key (data db)) = pred (size (data db)))
        by (apply map_size_delete_Some; eauto).
      assert (Hpos : (0 < size (data db))%nat).
      { destruct (size (data db)) eqn:Es; [| lia].
        apply map_size_empty_iff in Es. rewrite Es, lookup_empty in Hd. discriminate. }
      split; [etrans; [exact Hsd | apply delete_subseteq] |].
      split; [etrans; [exact Hst | apply delete_subseteq] |].
      split; [lia |].
      split; [| split].
      * intros k [<- | Hin]; [| apply Ha, Hin].
        eapply lookup_weaken_None; [apply lookup_delete_eq | exact Hsd].
      * intros k Hin Hs. destruct (decide (key = k)) as [<- | Hne].
        -- eapply lookup_weaken_None; [apply lookup_delete_eq | exact Hst].
        -- destruct Hin as [Heq | Hin]; [congruence |].
           apply Hc; [exact Hin |]. rewrite lookup_delete_ne by exact Hne. exact Hs.
      * intros k Hnin. destruct (Hb k) as [H1 H2]; [intros Hin; apply Hnin; right; exact Hin |].
        assert (Hne : key <> k) by (intros ->; apply Hnin; left; reflexivity).
        rewrite H1, H2, !lookup_delete_ne by exact Hne. split; reflexivity.
    + destruct (IH _ _ _ H) as (Hsd & Hst & Hn & Ha & Hc & Hb).
      split; [exact Hsd |]. split; [exact Hst |]. split; [exact Hn |].
      split; [| split].
      * intros k [<- | Hin]; [| apply Ha, Hin].
        eapply lookup_weaken_None; [exact Hd | exact Hsd].
      * intros k [<- | Hin] Hs; [rewrite Hd in Hs; destruct Hs; discriminate |].
        apply Hc; assumption.
      * intros k Hnin. apply Hb. intros Hin. apply Hnin. right. exact Hin.
Qed.

(** X12.  DEL never fails and does not look at the clock: its reply is the
    number of entries that left the keyspace, expired ones included; each
    named key is gone afterwards, with its TTL when the keyspace held no
    orphan TTL; every other key keeps its entity and its TTL. *)
Theorem execDel_effect db now args :
  exists n db',
    execDel db now args = Done (IntReply n, db') /\
    n = Z.of_nat (size (data db)) - Z.of_nat (size (data db')) /\
    (forall a, In a args -> data db' !! to_string a = None) /\
    (no_orphan_ttl db -> forall a, In a args -> ttlMap db' !! to_string a = None) /\
    (forall k, ~ In k (map to_string args) ->
       data db' !! k = data db !! k /\ ttlMap db' !! k = ttlMap db !! k).
Proof.
  unfold execDel. destruct (Removes db (map to_string args)) as [n db1] eqn:ER.
  destruct (Removes_effect _ _ _ _ ER) as (Hsd & Hst & Hn & Ha & Hc & Hb).
  exists n, (if 0 <? n then addAof db1 (ToCmdLine3 "del" args) else db1).
  assert (Hdata : data (if 0 <? n then addAof db1 (ToCmdLine3 "del" args) else db1) = data db1)
    by (destruct (0 <? n); reflexivity).
  assert (Httl : ttlMap (if 0 <? n then addAof db1 (ToCmdLine3 "del" args) else db1)
                 = ttlMap db1) by (destruct (0 <? n); reflexivity).
  rewrite Hdata, Httl. split; [reflexivity |]. split; [exact Hn |].
  split; [| split].
  - intros a Hin. apply Ha, in_map, Hin.
  - intros Hno a Hin. destruct (data db !! to_string a) as [ent |] eqn:Hd.
    + apply Hc; [apply in_map, Hin | rewrite Hd; eauto].
    + destruct (ttlMap db !! to_string a) as [t |] eqn:Ht.
      * destruct (Hno (to_string a)) as [ent Hent]; [rewrite Ht; eauto | congruence].
      * eapply lookup_weaken_None; [exact Ht | exact Hst].
  - exact Hb.
Qed.

Lemma execExists_loop_count args : forall db now acc,
  exists db',
    execExists_loop db now args acc =
      (acc + Z.of_nat (length (List.filter (fun a => liveb db now (to_string a)) args)), db') /\
    (forall k, liveb db' now k = liveb db now k) /\ aofLog db' = aofLog db.
Proof.
  induction args as [| a args IH]; intros db now acc.
  - exists db. cbn. split; [f_equal; lia | split; reflexivity].
  - cbn [execExists_loop List.filter].
    destruct (GetEntity db now (to_string a)) as [e db1] eqn:HG.
    pose proof (GetEntity_aofLog _ _ _ _ _ HG) as Haof.
    destruct (GetEntity_liveb _ _ _ _ _ HG) as [He Hl].
    destruct (IH db1 now (match e with Some _ => acc + 1 | None => acc end))
      as (db' & Hloop & Hl' & Haof').
    exists db'. rewrite Hloop. split; [| split].
    + assert (Hf : List.filter (fun a0 => liveb db1 now (to_string a0)) args =
                   List.filter (fun a0 => liveb db now (to_string a0)) args).
      { apply List.filter_ext. intros x. apply Hl. }
      rewrite Hf. destruct e; rewrite He; cbn [length]; f_equal; lia.
    + intros k. rewrite Hl', Hl. reflexivity.
    + congruence.
Qed.

(** X13.  EXISTS replies the number of its arguments that are live at the
    time of the call, a key named twice counting twice; it may drop expired
    keys, but no key changes between live and not live and nothing is
    logged. *)
Theorem execExists_counts_live db now args :
  exists db',
    execExists db now args =
      Done (IntReply
              (Z.of_nat (length (List.filter (fun a => liveb db now (to_string a)) args))),
            db') /\
    (forall k, liveb db' now k = liveb db now k) /\ aofLog db' = aofLog db.
Proof.
  unfold execExists. destruct (execExists_loop_count args db now 0) as (db' & H & Hl & Ha).
  exists db'. rewrite H. split; [reflexivity | split; assumption].
Qed.

(** *** Expirations *)

Lemma execExpire_live db now (k s : bytes) n :
  strconv.ParseInt s 64 = (n, true) -> live db now (to_string k) ->
  execExpire db now [k; s] =
  Done (IntReply 1,
        addAof (Expire db (to_string k) (now + wrap64 (n * Second)))
          (MakeExpireCmd (to_string k) (now + wrap64 (n * Second)))).
Proof.
  intros Hp Hl. unfold execExpire, execExpireWith. cbn [arg nth_error must bind].
  rewrite Hp. cbn [negb]. destruct (GetEntity_live _ _ _ Hl) as (e & HG & _).
  rewrite HG. reflexivity.
Qed.

Lemma GetEntity_stored_fresh db now key e t :
  data db !! key = Some e -> ttlMap db !! key = Some t -> now < t ->
  GetEntity db now key = (Some e, db).
Proof.
  intros Hd Ht Hlt. unfold GetEntity. rewrite Hd, Ht.
  destruct (t <=? now) eqn:E; [apply Z.leb_le in E; lia | reflexivity].
Qed.

(** X14.  TTL reads back what EXPIRE set: after EXPIRE k s on a live key,
    with s seconds fitting a 64-bit duration, TTL k asked [d] nanoseconds
    later and before the expiration replies the whole seconds that are
    left, rounded down; asked at once it replies s. *)
Theorem expire_then_ttl db now (k s : bytes) n d :
  strconv.ParseInt s 64 = (n, true) -> live db now (to_string k) ->
  int64_range (n * Second) -> 0 <= d < n * Second ->
  exists db1,
    execExpire db now [k; s] = Done (IntReply 1, db1) /\
    execTTL db1 (now + d) [k] = Done (IntReply (Z.quot (n * Second - d) Second), db1).
Proof.
  intros Hp Hl Hr Hd. eexists. split; [apply (execExpire_live _ _ _ _ _ Hp Hl) |].
  rewrite wrap64_small by exact Hr.
  destruct Hl as (e & He & _).
  unfold execTTL, execTTLWith. cbn [arg nth_error must bind].
  erewrite GetEntity_stored_fresh;
    [| cbn [addAof Expire set_ttlMap data]; exact He
     | cbn [addAof Expire set_ttlMap ttlMap]; apply lookup_insert_eq
     | lia].
  cbn [addAof Expire set_ttlMap ttlMap]. rewrite lookup_insert_eq.
  unfold Sub. unfold int64_range in Hr.
  replace (now + n * Second - (now + d)) with (n * Second - d) by lia.
  rewrite Z.min_r by lia. rewrite Z.max_r by lia. reflexivity.
Qed.

Lemma expire_then_ttl_witness :
  strconv.ParseInt (to_bytes "100") 64 = (100, true) /\
  live db_a 0 (to_string (to_bytes "a")) /\
  int64_range (100 * Second) /\ 0 <= 500000000 < 100 * Second /\
  exists db1,
    execExpire db_a 0 [to_bytes "a"; to_bytes "100"] = Done (IntReply 1, db1) /\
    execTTL db1 (0 + 500000000) [to_bytes "a"] = Done (IntReply 99, db1).
Proof.
  assert (Hp : strconv.ParseInt (to_bytes "100") 64 = (100, true)) by reflexivity.
  assert (Hl : live db_a 0 (to_string (to_bytes "a"))).
  { exists (entity_of "1"). split; [reflexivity | intros t H; discriminate H]. }
  assert (Hr : int64_range (100 * Second)) by (unfold int64_range, Second; lia).
  assert (Hd : 0 <= 500000000 < 100 * Second) by (unfold Second; lia).
  split; [exact Hp |]. split; [exact Hl |]. split; [exact Hr |]. split; [exact Hd |].
  exact (expire_then_ttl db_a 0 (to_bytes "a") (to_bytes "100") 100 500000000 Hp Hl Hr Hd).
Defined.

(** X15.  The TTL lifecycle, for seconds s that are positive and whose
    nanoseconds, s times 10^9, fit the 64 bits of a [time.Duration]: on a
    live key EXPIRE k s replies 1, and at the same reading of the clock
    PERSIST k then replies 1, TTL k replies -1 and a second PERSIST k
    replies 0; at the end the key is stored as before, without
    expiration. *)
Theorem expire_persist_lifecycle db now (k s : bytes) n :
  strconv.ParseInt s 64 = (n, true) -> live db now (to_string k) ->
  int64_range (n * Second) -> 0 < n ->
  exists db1 db2,
    execExpire db now [k; s] = Done (IntReply 1, db1) /\
    execPersist db1 now [k] = Done (IntReply 1, db2) /\
    execTTL db2 now [k] = Done (IntReply (-1), db2) /\
    execPersist db2 now [k] = Done (IntReply 0, db2) /\
    data db2 = data db /\ ttlMap db2 !! to_string k = None.
Proof.
  intros Hp Hl Hr Hn. eexists. eexists.
  split; [apply (execExpire_live _ _ _ _ _ Hp Hl) |].
  rewrite wrap64_small by exact Hr. destruct Hl as (e & He & _).
  assert (Hlt : now < now + n * Second) by (unfold Second; lia).
  split.
  { unfold execPersist. cbn [arg nth_error must bind].
    erewrite GetEntity_stored_fresh;
      [| cbn [addAof Expire set_ttlMap data]; exact He
       | cbn [addAof Expire set_ttlMap ttlMap]; apply lookup_insert_eq
       | exact Hlt].
    cbn [addAof Expire set_ttlMap ttlMap]. rewrite lookup_insert_eq. reflexivity. }
  assert (HG : forall line1 line2,
    GetEntity
      (addAof (Persist (addAof (Expire db (to_string k) (now + n * Second)) line1)
                 (to_string k)) line2) now (to_string k) =
    (Some e, addAof (Persist (addAof (Expire db (to_string k) (now + n * Second)) line1)
                       (to_string k)) line2)).
  { intros line1 line2. unfold GetEntity.
    cbn [addAof Persist Expire set_ttlMap data ttlMap]. rewrite He, lookup_delete_eq.
    reflexivity. }
  split; [| split; [| split]].
  - unfold execTTL, execTTLWith. cbn [arg nth_error must bind]. rewrite HG.
    cbn [addAof Persist Expire set_ttlMap ttlMap]. rewrite lookup_delete_eq. reflexivity.
  - unfold execPersist. cbn [arg nth_error must bind]. rewrite HG.
    cbn [addAof Persist Expire set_ttlMap ttlMap]. rewrite lookup_delete_eq. reflexivity.
  - reflexivity.
  - cbn [addAof Persist Expire set_ttlMap ttlMap]. apply lookup_delete_eq.
Qed.

Lemma expire_persist_lifecycle_witness :
  strconv.ParseInt (to_bytes "100") 64 = (100, true) /\
  live db_a 0 (to_string (to_bytes "a")) /\
  int64_range (100 * Second) /\ 0 < 100 /\
  exists db1 db2,
    execExpire db_a 0 [to_bytes "a"; to_bytes "100"] = Done (IntReply 1, db1) /\
    execPersist db1 0 [to_bytes "a"] = Done (IntReply 1, db2) /\
    execTTL db2 0 [to_bytes "a"] = Done (IntReply (-1), db2) /\
    execPersist db2 0 [to_bytes "a"] = Done (IntReply 0, db2) /\
    data db2 = data db_a /\ ttlMap db2 !! to_string (to_bytes "a") = None.
Proof.
  assert (Hp : strconv.ParseInt (to_bytes "100") 64 = (100, true)) by reflexivity.
  assert (Hl : live db_a 0 (to_string (to_bytes "a"))).
  { exists (entity_of "1"). split; [reflexivity | intros t H; discriminate H]. }
  assert (Hr : int64_range (100 * Second)) by (unfold int64_range, Second; lia).
  assert (Hn : 0 < 100) by lia.
  split; [exact Hp |]. split; [exact Hl |]. split; [exact Hr |]. split; [exact Hn |].
  exact (expire_persist_lifecycle db_a 0 (to_bytes "a") (to_bytes "100") 100 Hp Hl Hr Hn).
Defined.

(** X16.  EXPIRE on a live key with seconds s that are zero or negative
    and whose nanoseconds, s times 10^9, fit the 64 bits of a
    [time.Duration], replies 1 and leaves the key stored with an expiration
    that has passed: the next read finds nothing, EXISTS replies 0 and
    removes the key and its TTL. *)
Theorem expire_nonpositive_kills db now (k s : bytes) n :
  strconv.ParseInt s 64 = (n, true) -> live db now (to_string k) ->
  int64_range (n * Second) -> n <= 0 ->
  exists db1 db2,
    execExpire db now [k; s] = Done (IntReply 1, db1) /\
    is_Some (data db1 !! to_string k) /\ ~ live db1 now (to_string k) /\
    execExists db1 now [k] = Done (IntReply 0, db2) /\
    data db2 !! to_string k = None /\ ttlMap db2 !! to_string k = None.
Proof.
  intros Hp Hl Hr Hn. eexists. eexists.
  split; [apply (execExpire_live _ _ _ _ _ Hp Hl) |].
  rewrite wrap64_small by exact Hr. destruct Hl as (e & He & _).
  assert (Hle : now + n * Second <= now) by (unfold Second; lia).
  split; [cbn [addAof Expire set_ttlMap data]; rewrite He; eauto |].
  split.
  { intros (e' & _ & Ht). cbn [addAof Expire set_ttlMap ttlMap] in Ht.
    specialize (Ht _ (lookup_insert_eq _ _ _)). lia. }
  split.
  { unfold execExists. cbn [execExists_loop]. unfold GetEntity.
    cbn [addAof Expire set_ttlMap data ttlMap]. rewrite He, lookup_insert_eq.
    destruct (now + n * Second <=? now) eqn:E; [| apply Z.leb_gt in E; lia].
    reflexivity. }
  cbn [Remove addAof Expire set_ttlMap data ttlMap].
  split; apply lookup_delete_eq.
Qed.

Lemma expire_nonpositive_kills_witness :
  strconv.ParseInt (to_bytes "-5") 64 = (-5, true) /\
  live db_a 0 (to_string (to_bytes "a")) /\
  int64_range (-5 * Second) /\ -5 <= 0 /\
  exists db1 db2,
    execExpire db_a 0 [to_bytes "a"; to_bytes "-5"] = Done (IntReply 1, db1) /\
    is_Some (data db1 !! to_string (to_bytes "a")) /\
    ~ live db1 0 (to_string (to_bytes "a")) /\
    execExists db1 0 [to_bytes "a"] = Done (IntReply 0, db2) /\
    data db2 !! to_string (to_bytes "a") = None /\
    ttlMap db2 !! to_string (to_bytes "a") = None.
Proof.
  assert (Hp : strconv.ParseInt (to_bytes "-5") 64 = (-5, true)) by reflexivity.
  assert (Hl : live db_a 0 (to_string (to_bytes "a"))).
  { exists (entity_of "1"). split; [reflexivity | intros t H; discriminate H]. }
  assert (Hr : int64_range (-5 * Second)) by (unfold int64_range, Second; lia).
  assert (Hn : -5 <= 0) by lia.
  split; [exact Hp |]. split; [exact Hl |]. split; [exact Hr |]. split; [exact Hn |].
  exact (expire_nonpositive_kills db_a 0 (to_bytes "a") (to_bytes "-5") (-5) Hp Hl Hr Hn).
Defined.

(** *** Renaming *)

(** X17.  RENAME of a key that has no TTL leaves the TTL of the destination
    alone: when the destination had one, the entity moved there inherits
    it. *)
Theorem execRename_keeps_destination_ttl db now (src dst : bytes) entity :
  to_string src <> to_string dst ->
  data db !! to_string src = Some entity ->
  ttlMap db !! to_string src = None ->
  exists db',
    execRename db now [src; dst] = Done (OkReply, db') /\
    data db' !! to_string dst = Some entity /\
    ttlMap db' !! to_string dst = ttlMap db !! to_string dst.
Proof.
  intros Hne Hd Ht.
  unfold execRename. cbn [length Nat.eqb negb arg nth_error must bind].
  unfold GetEntity. rewrite Hd, Ht. rewrite Ht. eexists. split; [reflexivity |].
  cbn [addAof Remove PutEntity set_data data ttlMap]. split.
  - rewrite lookup_delete_ne by exact Hne. apply lookup_insert_eq.
  - apply lookup_delete_ne, Hne.
Qed.

Lemma execRename_keeps_destination_ttl_witness :
  to_string (to_bytes "b") <> to_string (to_bytes "a") /\
  exists db',
    execRename
      {| data := {[ "a"%string := entity_of "1"; "b"%string := entity_of "2" ]};
         ttlMap := {[ "a"%string := 100 ]}; aofLog := [] |}
      50 [to_bytes "b"; to_bytes "a"] = Done (OkReply, db') /\
    data db' !! to_string (to_bytes "a") = Some (entity_of "2") /\
    ttlMap db' !! to_string (to_bytes "a") = Some 100.
Proof.
  assert (Hne : to_string (to_bytes "b") <> to_string (to_bytes "a")) by discriminate.
  split; [exact Hne |].
  exact (execRename_keeps_destination_ttl
           {| data := {[ "a"%string := entity_of "1"; "b"%string := entity_of "2" ]};
              ttlMap := {[ "a"%string := 100 ]}; aofLog := [] |}
           50 (to_bytes "b") (to_bytes "a") (entity_of "2") Hne eq_refl eq_refl).
Defined.

Lemma GetEntity_not_live db now key :
  ~ live db now key ->
  (GetEntity db now key = (None, db) /\ data db !! key = None) \/
  (GetEntity db now key = (None, Remove db key) /\ is_Some (data db !! key)).
Proof.
  intros Hn. unfold GetEntity. destruct (data db !! key) as [e |] eqn:Hd; [| left; auto].
  right. destruct (ttlMap db !! key) as [t |] eqn:Ht.
  - destruct (t <=? now) eqn:E; [split; eauto |].
    apply Z.leb_gt in E. exfalso. apply Hn. exists e. split; [exact Hd |].
    intros t' Ht'. rewrite Ht in Ht'. injection Ht' as <-. exact E.
  - exfalso. apply Hn. exists e. split; [exact Hd |]. intros t' Ht'. congruence.
Qed.

(** X18.  RENAMENX onto a destination that is not live: when the source is
    live the reply is 1, the destination holds the source's entity and
    exactly the source's TTL (none when the source had none, whatever the
    destination had), and the source is gone with its TTL. *)
Theorem execRenameNx_moves db now (src dst : bytes) :
  no_orphan_ttl db ->
  ~ live db now (to_string dst) -> live db now (to_string src) ->
  exists db',
    execRenameNx db now [src; dst] = Done (IntReply 1, db') /\
    data db' !! to_string dst = data db !! to_string src /\
    ttlMap db' !! to_string dst = ttlMap db !! to_string src /\
    data db' !! to_string src = None /\
    ttlMap db' !! to_string src = None.
Proof.
  intros Hno Hnd Hls.
  assert (Hne : to_string src <> to_string dst) by (intros Heq; rewrite Heq in Hls; auto).
  assert (Hne' : to_string dst <> to_string src) by congruence.
  destruct Hls as (e & He & Hfresh).
  assert (Hmain : forall db1,
    data db1 !! to_string src = Some e ->
    ttlMap db1 !! to_string src = ttlMap db !! to_string src ->
    data db1 !! to_string dst = None -> ttlMap db1 !! to_string dst = None ->
    exists db',
      (let '(e0, db2) := GetEntity db1 now (to_string src) in
       match e0 with
       | None => Done (MakeErrReply "no such key", db2)
       | Some entity =>
           let rawTTL := ttlMap db2 !! to_string src in
           let '(_, db3) := Removes db2 [to_string src; to_string dst] in
           let db4 := PutEntity db3 (to_string dst) entity in
           let db5 :=
             match rawTTL with
             | Some expireTime =>
                 Expire (Persist (Persist db4 (to_string src)) (to_string dst))
                   (to_string dst) expireTime
             | None => db4
             end in
           Done (MakeIntReply 1, addAof db5 (ToCmdLine3 "renamenx" [src; dst]))
       end) = Done (IntReply 1, db') /\
      data db' !! to_string dst = data db !! to_string src /\
      ttlMap db' !! to_string dst = ttlMap db !! to_string src /\
      data db' !! to_string src = None /\
      ttlMap db' !! to_string src = None).
  { intros db1 H1 H2 H3 H4.
    assert (HG : GetEntity db1 now (to_string src) = (Some e, db1)).
    { unfold GetEntity. rewrite H1, H2.
      destruct (ttlMap db !! to_string src) as [t |] eqn:Et; [| reflexivity].
      specialize (Hfresh t eq_refl).
      destruct (t <=? now) eqn:E; [apply Z.leb_le in E; lia | reflexivity]. }
    rewrite HG. cbn [Removes]. rewrite H1.
    cbn [Remove data ttlMap]. rewrite lookup_delete_ne by exact Hne. rewrite H3.
    rewrite H2, He.
    destruct (ttlMap db !! to_string src) as [t |] eqn:Et; eexists;
      (split; [reflexivity |]);
      cbn [addAof Expire Persist PutEntity Remove set_data set_ttlMap data ttlMap].
    - split; [apply lookup_insert_eq |]. split; [apply lookup_insert_eq |].
      split.
      + rewrite lookup_insert_ne by exact Hne'. apply lookup_delete_eq.
      + rewrite lookup_insert_ne by exact Hne'. rewrite lookup_delete_ne by exact Hne'.
        apply lookup_delete_eq.
    - split; [apply lookup_insert_eq |].
      split; [rewrite lookup_delete_ne by exact Hne; exact H4 |].
      split.
      + rewrite lookup_insert_ne by exact Hne'. apply lookup_delete_eq.
      + apply lookup_delete_eq. }
  unfold execRenameNx. cbn [arg nth_error must bind].
  destruct (GetEntity_not_live _ _ _ Hnd) as [[HG Hd] | [HG Hd]]; rewrite HG.
  - apply Hmain; auto.
    destruct (ttlMap db !! to_string dst) as [t |] eqn:Et; [| reflexivity].
    destruct (Hno (to_string dst)) as [x Hx]; [rewrite Et; eauto | congruence].
  - apply Hmain; cbn [Remove data ttlMap].
    + rewrite lookup_delete_ne by exact Hne'. exact He.
    + apply lookup_delete_ne, Hne'.
    + apply lookup_delete_eq.
    + apply lookup_delete_eq.
Qed.

Lemma execRenameNx_moves_witness :
  no_orphan_ttl db_a /\
  ~ live db_a 0 (to_string (to_bytes "b")) /\ live db_a 0 (to_string (to_bytes "a")) /\
  exists db',
    execRenameNx db_a 0 [to_bytes "a"; to_bytes "b"] = Done (IntReply 1, db') /\
    data db' !! to_string (to_bytes "b") = data db_a !! to_string (to_bytes "a").
Proof.
  assert (Hno : no_orphan_ttl db_a).
  { intros key [t Hk]. cbn [db_a ttlMap] in Hk. rewrite lookup_empty in Hk. discriminate. }
  assert (Hnd : ~ live db_a 0 (to_string (to_bytes "b"))).
  { intros (e & He & _). vm_compute in He. discriminate. }
  assert (Hl : live db_a 0 (to_string (to_bytes "a"))).
  { exists (entity_of "1"). split; [reflexivity | intros t H; discriminate H]. }
  split; [exact Hno |]. split; [exact Hnd |]. split; [exact Hl |].
  destruct (execRenameNx_moves db_a 0 (to_bytes "a") (to_bytes "b") Hno Hnd Hl)
    as (db' & H1 & H2 & _).
  exists db'. split; [exact H1 | exact H2].
Defined.

(** *** KEYS *)

Lemma ForEach_entries_filter (f : string -> bool) (l : list (string * DataEntity)) :
  forall acc,
  ForEach_entries l
    (fun key (_ : DataEntity) result => (if f key then result ++ [to_bytes key] else result, true))
    acc =
  acc ++ List.map to_bytes (List.filter f (List.map fst l)).
Proof.
  induction l as [| [key val] l IH]; intros acc.
  - cbn. rewrite app_nil_r. reflexivity.
  - cbn [ForEach_entries List.map List.filter fst]. rewrite IH.
    destruct (f key); [| reflexivity].
    cbn [List.map]. rewrite <- app_assoc. reflexivity.
Qed.

Lemma to_bytes_inj s1 s2 : to_bytes s1 = to_bytes s2 -> s1 = s2.
Proof.
  unfold to_bytes. intros H.
  rewrite <- (string_of_list_ascii_of_string s1), <- (string_of_list_ascii_of_string s2), H.
  reflexivity.
Qed.

Lemma NoDup_map_to_bytes (l : list string) : List.NoDup l -> List.NoDup (List.map to_bytes l).
Proof.
  induction 1 as [| x l Hx Hl IH]; cbn [List.map]; constructor; [| exact IH].
  intros Hin. apply in_map_iff in Hin as (y & Hy & Hin).
  apply to_bytes_inj in Hy. subst y. apply Hx. exact Hin.
Qed.

(** X19.  KEYS replies each stored key that matches the pattern, once, as
    its bytes, and nothing else; it reads the keyspace as it is stored,
    whatever the clock says, and leaves it unchanged. *)
Theorem execKeys_members db now (pattern : bytes) :
  exists keys,
    execKeys db now [pattern] = Done (MultiBulkReply keys, db) /\
    List.NoDup keys /\
    (forall b, In b keys -> exists key, b = to_bytes key) /\
    (forall key, In (to_bytes key) keys <->
       is_Some (data db !! key) /\
       IsMatch (CompilePattern (to_string pattern)) key = true).
Proof.
  unfold execKeys, ForEach. cbn [arg nth_error must bind].
  rewrite ForEach_entries_filter. cbn [app].
  eexists. split; [reflexivity |].
  pose proof (NoDup_fst_map_to_list (data db)) as Hnd.
  apply NoDup_ListNoDup in Hnd.
  change ((map_to_list (data db)).*1) with (List.map fst (map_to_list (data db))) in Hnd.
  split; [| split].
  - apply NoDup_map_to_bytes, List.NoDup_filter, Hnd.
  - intros b Hin. apply in_map_iff in Hin as (key & <- & _). eauto.
  - intros key. split.
    + intros Hin. apply in_map_iff in Hin as (key' & Hk & Hin).
      apply to_bytes_inj in Hk. subst key'.
      apply List.filter_In in Hin as [Hin Hm]. split; [| exact Hm].
      apply in_map_iff in Hin as ([k v] & Hk & Hin). cbn [fst] in Hk. subst k.
      apply list_elem_of_In, elem_of_map_to_list in Hin. eauto.
    + intros [[v Hv] Hm]. apply in_map. apply List.filter_In. split; [| exact Hm].
      apply in_map_iff. exists (key, v). split; [reflexivity |].
      apply list_elem_of_In, elem_of_map_to_list, Hv.
Qed.

(** *** Undo of an expiration *)

Lemma unix_millis_range t :
  int64_range t ->
  unix_millis t = Z.quot t 1000000 /\ int64_range (Z.quot t 1000000 * Millisecond) /\
  int64_range (Z.quot t 1000000).
Proof.
  intros Hr. unfold unix_millis. rewrite wrap64_small by exact Hr.
  rewrite Z.quot_quot by lia. change (1000 * 1000) with 1000000.
  unfold int64_range, Millisecond in *.
  pose proof (Z.quot_rem' t 1000000) as Hqr.
  destruct (Z_le_gt_dec 0 t) as [Hpos | Hneg].
  - pose proof (Z.rem_bound_pos t 1000000 Hpos ltac:(lia)) as Hb.
    repeat split; lia.
  - pose proof (Z.rem_bound_pos_neg t 1000000 ltac:(lia) ltac:(lia)) as Hb.
    repeat split; lia.
Qed.

(** X20.  The undo of an expiration command restores the TTL: taken before
    the command, [undoExpire] yields PERSIST k when k had no TTL and
    PEXPIREAT k ms when it had one; run later through [execPersist] or
    [execPExpireAt] on a keyspace where k is live, it leaves k without TTL,
    or with the old instant cut to whole milliseconds. *)
Theorem undoExpire_restores db (k : bytes) rest db' now :
  live db' now (to_string k) ->
  (forall t, ttlMap db !! to_string k = Some t -> int64_range t) ->
  exists cmd cmdArgs,
    undoExpire db (k :: rest) = Done [to_bytes cmd :: cmdArgs] /\
    match ttlMap db !! to_string k with
    | None =>
        cmd = "PERSIST"%string /\
        exists reply db'',
          execPersist db' now cmdArgs = Done (reply, db'') /\
          data db'' = data db' /\ ttlMap db'' !! to_string k = None
    | Some t =>
        cmd = "PEXPIREAT"%string /\
        exists db'',
          execPExpireAt db' now cmdArgs = Done (IntReply 1, db'') /\
          data db'' = data db' /\
          ttlMap db'' !! to_string k = Some (Z.quot t 1000000 * 1000000)
    end.
Proof.
  intros Hl Hr. destruct (GetEntity_live _ _ _ Hl) as (e & HG & _).
  assert (Hk : to_string (to_bytes (to_string k)) = to_string k).
  { unfold to_string, to_bytes. rewrite list_ascii_of_string_of_list_ascii. reflexivity. }
  unfold undoExpire, toTTLCmd. cbn [arg nth_error must bind].
  destruct (ttlMap db !! to_string k) as [t |] eqn:Et.
  - specialize (Hr t eq_refl).
    destruct (unix_millis_range t Hr) as (Hms & Hr1 & Hr2).
    exists "PEXPIREAT"%string. eexists. cbn [MakeMultiBulkReply Args_of ToCmdLine List.map].
    split; [reflexivity |]. split; [reflexivity |].
    unfold execPExpireAt, execExpireWith. cbn [arg nth_error must bind].
    rewrite Hk. unfold to_string at 1, to_bytes at 1.
    rewrite list_ascii_of_string_of_list_ascii, Hms.
    rewrite ParseInt_FormatInt by exact Hr2. cbn [negb]. rewrite HG.
    eexists. split; [reflexivity |]. split; [reflexivity |].
    cbn [addAof Expire set_ttlMap ttlMap]. rewrite lookup_insert_eq.
    rewrite wrap64_small by exact Hr1. reflexivity.
  - exists "PERSIST"%string. eexists. cbn [MakeMultiBulkReply Args_of ToCmdLine List.map].
    split; [reflexivity |]. split; [reflexivity |].
    unfold execPersist. cbn [arg nth_error must bind]. rewrite Hk, HG.
    destruct (ttlMap db' !! to_string k) as [t' |] eqn:Et'.
    + eexists. eexists. split; [reflexivity |]. split; [reflexivity |].
      cbn [addAof Persist set_ttlMap ttlMap]. apply lookup_delete_eq.
    + eexists. eexists. split; [reflexivity |]. split; [reflexivity | exact Et'].
Qed.

Lemma undoExpire_restores_witness :
  live db_a 0 (to_string (to_bytes "a")) /\
  exists cmd cmdArgs,
    undoExpire db_a_ttl [to_bytes "a"; to_bytes "7"] = Done [to_bytes cmd :: cmdArgs] /\
    cmd = "PEXPIREAT"%string.
Proof.
  assert (Hl : live db_a 0 (to_string (to_bytes "a"))).
  { exists (entity_of "1"). split; [reflexivity | intros t H; discriminate H]. }
  assert (Hr : forall t, ttlMap db_a_ttl !! to_string (to_bytes "a") = Some t -> int64_range t).
  { intros t H. vm_compute in H. injection H as <-. unfold int64_range. lia. }
  split; [exact Hl |].
  destruct (undoExpire_restores db_a_ttl (to_bytes "a") [to_bytes "7"] db_a 0 Hl Hr)
    as (cmd & cmdArgs & Hu & Hm).
  exists cmd, cmdArgs. split; [exact Hu |].
  change (ttlMap db_a_ttl !! to_string (to_bytes "a")) with (Some 100) in Hm.
  exact (proj1 Hm).
Defined.

(** *** Witnesses for the invariant and the rename lemmas *)

Lemma keyspaceWrites_no_orphan_witness :
  In ("RenameNx"%string, execRenameNx, 3) keyspaceWrites /\
  "RenameNx"%string <> "Rename"%string /\
  no_orphan_ttl db_a_ttl /\
  exists reply db',
    execRenameNx db_a_ttl 50 [to_bytes "a"; to_bytes "b"] = Done (reply, db') /\
    no_orphan_ttl db'.
Proof.
  assert (Hin : In ("RenameNx"%string, execRenameNx, 3) keyspaceWrites)
    by (do 7 right; left; reflexivity).
  assert (Hname : "RenameNx"%string <> "Rename"%string) by discriminate.
  assert (Hno : no_orphan_ttl db_a_ttl).
  { intros key [t Hk]. cbn [db_a_ttl ttlMap data] in *.
    destruct (decide (key = "a"%string)) as [-> | Hne].
    - rewrite lookup_singleton_eq. eauto.
    - rewrite lookup_singleton_ne in Hk by congruence. discriminate. }
  split; [exact Hin |]. split; [exact Hname |]. split; [exact Hno |].
  eexists. eexists. split; [vm_compute; reflexivity |].
  refine (keyspaceWrites_no_orphan "RenameNx" execRenameNx 3 db_a_ttl 50
            [to_bytes "a"; to_bytes "b"] _ _ Hin Hname _ Hno).
  vm_compute. reflexivity.
Defined.

Lemma execRename_distinct_witness :
  to_string (to_bytes "a") <> to_string (to_bytes "b") /\
  data db_a_ttl !! to_string (to_bytes "a") = Some (entity_of "1") /\
  (forall t, ttlMap db_a_ttl !! to_string (to_bytes "a") = Some t -> 50 < t) /\
  exists db',
    execRename db_a_ttl 50 [to_bytes "a"; to_bytes "b"] = Done (OkReply, db') /\
    data db' !! to_string (to_bytes "b") = Some (entity_of "1") /\
    data db' !! to_string (to_bytes "a") = None.
Proof.
  assert (Hne : to_string (to_bytes "a") <> to_string (to_bytes "b")) by discriminate.
  assert (Hd : data db_a_ttl !! to_string (to_bytes "a") = Some (entity_of "1"))
    by reflexivity.
  assert (Ht : forall t, ttlMap db_a_ttl !! to_string (to_bytes "a") = Some t -> 50 < t).
  { intros t H. vm_compute in H. injection H as <-. reflexivity. }
  split; [exact Hne |]. split; [exact Hd |]. split; [exact Ht |].
  destruct (execRename_distinct db_a_ttl 50 (to_bytes "a") (to_bytes "b") (entity_of "1")
              Hne Hd Ht) as (db' & H1 & H2 & H3 & _).
  exists db'. split; [exact H1 |]. split; [exact H2 | exact H3].
Defined.

End KeyspaceCommands.

Section Flush.
Import database.

Lemma execExists_loop_empty args : forall db now acc,
  data db = ∅ -> execExists_loop db now args acc = (acc, db).
Proof.
  induction args as [| a args IH]; intros db now acc Hd; [reflexivity |].
  cbn [execExists_loop]. unfold GetEntity. rewrite Hd, lookup_empty.
  apply IH, Hd.
Qed.

(** X23.  After FLUSHDB, which replies OK and logs one record whatever its
    arguments, nothing is left: at any later instant KEYS replies the empty
    array for every pattern and EXISTS replies 0 for every list of keys,
    both leaving the keyspace as it is. *)
Theorem execFlushDB_empties db now args :
  exists db1,
    execFlushDB db now args = Done (OkReply, db1) /\
    aofLog db1 = aofLog db ++ [ToCmdLine3 "flushdb" args] /\
    (forall later pattern,
       execKeys db1 later [pattern] = Done (MultiBulkReply [], db1)) /\
    (forall later keys, execExists db1 later keys = Done (IntReply 0, db1)).
Proof.
  eexists. split; [reflexivity |]. split; [reflexivity |]. split.
  - intros later pattern. unfold execKeys, ForEach. cbn [arg nth_error must bind].
    cbn [addAof Flush data]. rewrite map_to_list_empty. reflexivity.
  - intros later keys. unfold execExists.
    rewrite execExists_loop_empty by reflexivity. reflexivity.
Qed.

End Flush.

Section SessionWitnesses.
Import parser database server.

Lemma Handle_pipeline_witness :
  forallb wire_safe [MultiBulkReply [to_bytes "GET"; to_bytes "k"]; StatusReply "x";
                     MultiBulkReply [to_bytes "PING"]] = true /\
  ~ In LF (to_bytes "par") /\
  Handle (fun (n : nat) (cmd : CmdLine) => (Some (IntReply (Z.of_nat (length cmd))), S n))
    record_write false
    (concat (map ToBytes [MultiBulkReply [to_bytes "GET"; to_bytes "k"]; StatusReply "x";
                          MultiBulkReply [to_bytes "PING"]]) ++ to_bytes "par")
    O [] =
  Some (2%nat, [ToBytes (IntReply 2); ToBytes (IntReply 1)], ClientClosed).
Proof.
  assert (Hs : forallb wire_safe [MultiBulkReply [to_bytes "GET"; to_bytes "k"];
                                  StatusReply "x"; MultiBulkReply [to_bytes "PING"]] = true)
    by reflexivity.
  assert (Hn : ~ In LF (to_bytes "par")).
  { intros H. repeat (destruct H as [H | H]; [discriminate |]). exact H. }
  split; [exact Hs |]. split; [exact Hn |].
  exact (Handle_pipeline nat (list bytes)
           (fun (n : nat) (cmd : CmdLine) => (Some (IntReply (Z.of_nat (length cmd))), S n))
           record_write
           [MultiBulkReply [to_bytes "GET"; to_bytes "k"]; StatusReply "x";
            MultiBulkReply [to_bytes "PING"]]
           (to_bytes "par") O [] Hs Hn).
Defined.


End SessionWitnesses.
